(** * Megaz: the player state machine, its physics and the layer scheduler

    A shallow embedding of [Player] (checkInput, updatePhysics,
    updateAnimation, update), of the [GameObject] base class, of
    [ObjectSortManager] and of the [KeyManager] and [TimeManager] the
    player reads, followed by the properties of the specification that
    were checked against them and by further properties of the code.

    Numbers.  JavaScript numbers are modelled as exact rationals ([Q]); the
    comparisons of the source become [Qle_bool] tests.  Integer-valued
    fields that the code only ever uses as indices are [Z].  The code
    itself computes in binary64: where a statement turns on a running sum
    reaching a bound, the frame deltas are taken to be binary fractions,
    which binary64 adds without rounding, and [Binary64] holds the attack
    timer with the arithmetic of the source. *)

From Stdlib Require Import QArith ZArith List Bool Lia Lqa Qround String.
From Stdlib Require PrimFloat FloatOps SpecFloat.
Import ListNotations.
Open Scope Q_scope.

(** ** utils/constants.js *)

Inductive DIRECTION : Type := LEFT | RIGHT | UP | DOWN.

Inductive STATUS : Type :=
  | ATTACKED | IDLE | WALK | DASH | DASHEND | JUMPSTART | JUMPOFF | JUMPDOWN
  | WALL | DAMAGED | A1 | A2 | A3 | FIREATTACK | JUMPATTACK.

Inductive POS_STATION : Type := GROUND | AIR | ATTACH_WALL.

Module OBJ_NUM.
Definition BG : Z := 0%Z.
Definition BG2 : Z := 1%Z.
Definition BG3 : Z := 2%Z.
Definition BG4 : Z := 3%Z.
Definition WALL : Z := 4%Z.
Definition PLATFORM : Z := 5%Z.
Definition MONSTER : Z := 6%Z.
Definition PLAYER : Z := 7%Z.
Definition UI : Z := 8%Z.
End OBJ_NUM.

(** The string-valued fields of the player range over closed sets. *)

(** [this.dashPhase]: 'none', 'start', 'moving', 'end'. *)
Inductive DashPhase : Type := phase_none | phase_start | phase_moving | phase_end.

(** [this.currentAnimation]: the keys of [this.animations]. *)
Inductive AnimName : Type :=
  | anim_IDLE | anim_WALK | anim_JUMP_START | anim_JUMP_DOWN
  | anim_DASH | anim_DASH_END | anim_ATTACK.

Scheme Equality for DIRECTION.
Scheme Equality for STATUS.
Scheme Equality for POS_STATION.
Scheme Equality for DashPhase.
Scheme Equality for AnimName.

(** Strict comparison on rationals: [a < b] of the source. *)
Definition Qlt_bool (a b : Q) : bool := negb (Qle_bool b a).

(** [Math.min] on two numbers. *)
Definition Math_min (a b : Q) : Q := if Qle_bool a b then a else b.

(** ** Player: fields *)

(** The fields the constructor assigns once and no method writes again are
    constants of the model. *)
Definition maxYPosition : Q := 480.
Definition speed : Q := 220.
Definition highSpeed : Q := 350.
Definition jumpPower : Q := 15.
Definition gravity : Q := 300.
Definition maxFallSpeed : Q := 400.
Definition dashDistance : Q := 300.
Definition dashSpeed : Q := 350.
Definition canChangeDashDirection : bool := true.
Definition dashEasing_startAcceleration : Q := 0.4.
Definition dashEasing_endDeceleration : Q := 0.6.
Definition maxAttackDuration : Q := 1.0.
Definition superJumpVelocityX : Q := 300.
Definition superJumpMultiplier : Q := 1.5.

(** [this.animations]: frame count and playback rate per animation. *)
Record AnimData : Type := mkAnimData {
  path : string;
  frames : Z;
  anim_speed : Q;
  isMultiFile : bool
}.

Definition animations (a : AnimName) : AnimData :=
  match a with
  | anim_IDLE => mkAnimData "/assets/textures/Single/IDLE.png" 5 0.5 false
  | anim_WALK => mkAnimData "/assets/textures/Multi/Walk" 14 12 true
  | anim_JUMP_START => mkAnimData "/assets/textures/Multi/JumpStart" 4 8 true
  | anim_JUMP_DOWN => mkAnimData "/assets/textures/Multi/JumpDown" 6 8 true
  | anim_DASH => mkAnimData "/assets/textures/Multi/DashStart" 7 10 true
  | anim_DASH_END => mkAnimData "/assets/textures/Multi/DashEnd" 4 8 true
  | anim_ATTACK => mkAnimData "/assets/textures/Multi/Attack_M1_" 7 12 true
  end.

(** The mutable fields: those of [GameObject] that the scheduler and
    [update] read, then those of [Player]. *)
Record Player : Type := mkPlayer {
  sortID : Z;
  visible : bool;
  active : bool;
  destroyed : bool;
  transform_position_x : Q;
  transform_position_y : Q;
  status : STATUS;
  direction : DIRECTION;
  positionStation : POS_STATION;
  x : Q;
  y : Q;
  angle : Q;
  velocityX : Q;
  velocityY : Q;
  isOnGround : bool;
  canJump : bool;
  jumpKeyWasPressed : bool;
  dashKeyWasPressed : bool;
  isDashing : bool;
  dashProgress : Q;
  dashPhase : DashPhase;
  canDashAgain : bool;
  dashDirection : DIRECTION;
  attackTimer : Q;
  isSuperJumping : bool;
  currentAnimation : AnimName;
  animationFrame : Z;
  frameTime : Q;
  isControlEnabled : bool;
  isGrounded : bool;
  jumpFrames_jumpStart : Q;
  jumpFrames_jumpDown : Q
}.

(** Field assignment [this.f = v], one function per assigned field. *)

Definition set_transform_position_x (v : Q) (p : Player) : Player :=
  let '(mkPlayer f0 f1 f2 f3 f4 f5 f6 f7 f8 f9 f10 f11 f12 f13 f14 f15 f16 f17
     f18 f19 f20 f21 f22 f23 f24 f25 f26 f27 f28 f29 f30 f31) := p in
  mkPlayer f0 f1 f2 f3 v f5 f6 f7 f8 f9 f10 f11 f12 f13 f14 f15 f16 f17 f18
     f19 f20 f21 f22 f23 f24 f25 f26 f27 f28 f29 f30 f31.

Definition set_transform_position_y (v : Q) (p : Player) : Player :=
  let '(mkPlayer f0 f1 f2 f3 f4 f5 f6 f7 f8 f9 f10 f11 f12 f13 f14 f15 f16 f17
     f18 f19 f20 f21 f22 f23 f24 f25 f26 f27 f28 f29 f30 f31) := p in
  mkPlayer f0 f1 f2 f3 f4 v f6 f7 f8 f9 f10 f11 f12 f13 f14 f15 f16 f17 f18
     f19 f20 f21 f22 f23 f24 f25 f26 f27 f28 f29 f30 f31.

Definition set_status (v : STATUS) (p : Player) : Player :=
  let '(mkPlayer f0 f1 f2 f3 f4 f5 f6 f7 f8 f9 f10 f11 f12 f13 f14 f15 f16 f17
     f18 f19 f20 f21 f22 f23 f24 f25 f26 f27 f28 f29 f30 f31) := p in
  mkPlayer f0 f1 f2 f3 f4 f5 v f7 f8 f9 f10 f11 f12 f13 f14 f15 f16 f17 f18
     f19 f20 f21 f22 f23 f24 f25 f26 f27 f28 f29 f30 f31.

Definition set_direction (v : DIRECTION) (p : Player) : Player :=
  let '(mkPlayer f0 f1 f2 f3 f4 f5 f6 f7 f8 f9 f10 f11 f12 f13 f14 f15 f16 f17
     f18 f19 f20 f21 f22 f23 f24 f25 f26 f27 f28 f29 f30 f31) := p in
  mkPlayer f0 f1 f2 f3 f4 f5 f6 v f8 f9 f10 f11 f12 f13 f14 f15 f16 f17 f18
     f19 f20 f21 f22 f23 f24 f25 f26 f27 f28 f29 f30 f31.

Definition set_positionStation (v : POS_STATION) (p : Player) : Player :=
  let '(mkPlayer f0 f1 f2 f3 f4 f5 f6 f7 f8 f9 f10 f11 f12 f13 f14 f15 f16 f17
     f18 f19 f20 f21 f22 f23 f24 f25 f26 f27 f28 f29 f30 f31) := p in
  mkPlayer f0 f1 f2 f3 f4 f5 f6 f7 v f9 f10 f11 f12 f13 f14 f15 f16 f17 f18
     f19 f20 f21 f22 f23 f24 f25 f26 f27 f28 f29 f30 f31.

Definition set_x (v : Q) (p : Player) : Player :=
  let '(mkPlayer f0 f1 f2 f3 f4 f5 f6 f7 f8 f9 f10 f11 f12 f13 f14 f15 f16 f17
     f18 f19 f20 f21 f22 f23 f24 f25 f26 f27 f28 f29 f30 f31) := p in
  mkPlayer f0 f1 f2 f3 f4 f5 f6 f7 f8 v f10 f11 f12 f13 f14 f15 f16 f17 f18
     f19 f20 f21 f22 f23 f24 f25 f26 f27 f28 f29 f30 f31.

Definition set_y (v : Q) (p : Player) : Player :=
  let '(mkPlayer f0 f1 f2 f3 f4 f5 f6 f7 f8 f9 f10 f11 f12 f13 f14 f15 f16 f17
     f18 f19 f20 f21 f22 f23 f24 f25 f26 f27 f28 f29 f30 f31) := p in
  mkPlayer f0 f1 f2 f3 f4 f5 f6 f7 f8 f9 v f11 f12 f13 f14 f15 f16 f17 f18 f19
     f20 f21 f22 f23 f24 f25 f26 f27 f28 f29 f30 f31.

Definition set_angle (v : Q) (p : Player) : Player :=
  let '(mkPlayer f0 f1 f2 f3 f4 f5 f6 f7 f8 f9 f10 f11 f12 f13 f14 f15 f16 f17
     f18 f19 f20 f21 f22 f23 f24 f25 f26 f27 f28 f29 f30 f31) := p in
  mkPlayer f0 f1 f2 f3 f4 f5 f6 f7 f8 f9 f10 v f12 f13 f14 f15 f16 f17 f18 f19
     f20 f21 f22 f23 f24 f25 f26 f27 f28 f29 f30 f31.

Definition set_velocityX (v : Q) (p : Player) : Player :=
  let '(mkPlayer f0 f1 f2 f3 f4 f5 f6 f7 f8 f9 f10 f11 f12 f13 f14 f15 f16 f17
     f18 f19 f20 f21 f22 f23 f24 f25 f26 f27 f28 f29 f30 f31) := p in
  mkPlayer f0 f1 f2 f3 f4 f5 f6 f7 f8 f9 f10 f11 v f13 f14 f15 f16 f17 f18 f19
     f20 f21 f22 f23 f24 f25 f26 f27 f28 f29 f30 f31.

Definition set_velocityY (v : Q) (p : Player) : Player :=
  let '(mkPlayer f0 f1 f2 f3 f4 f5 f6 f7 f8 f9 f10 f11 f12 f13 f14 f15 f16 f17
     f18 f19 f20 f21 f22 f23 f24 f25 f26 f27 f28 f29 f30 f31) := p in
  mkPlayer f0 f1 f2 f3 f4 f5 f6 f7 f8 f9 f10 f11 f12 v f14 f15 f16 f17 f18 f19
     f20 f21 f22 f23 f24 f25 f26 f27 f28 f29 f30 f31.

Definition set_isOnGround (v : bool) (p : Player) : Player :=
  let '(mkPlayer f0 f1 f2 f3 f4 f5 f6 f7 f8 f9 f10 f11 f12 f13 f14 f15 f16 f17
     f18 f19 f20 f21 f22 f23 f24 f25 f26 f27 f28 f29 f30 f31) := p in
  mkPlayer f0 f1 f2 f3 f4 f5 f6 f7 f8 f9 f10 f11 f12 f13 v f15 f16 f17 f18 f19
     f20 f21 f22 f23 f24 f25 f26 f27 f28 f29 f30 f31.

Definition set_canJump (v : bool) (p : Player) : Player :=
  let '(mkPlayer f0 f1 f2 f3 f4 f5 f6 f7 f8 f9 f10 f11 f12 f13 f14 f15 f16 f17
     f18 f19 f20 f21 f22 f23 f24 f25 f26 f27 f28 f29 f30 f31) := p in
  mkPlayer f0 f1 f2 f3 f4 f5 f6 f7 f8 f9 f10 f11 f12 f13 f14 v f16 f17 f18 f19
     f20 f21 f22 f23 f24 f25 f26 f27 f28 f29 f30 f31.

Definition set_jumpKeyWasPressed (v : bool) (p : Player) : Player :=
  let '(mkPlayer f0 f1 f2 f3 f4 f5 f6 f7 f8 f9 f10 f11 f12 f13 f14 f15 f16 f17
     f18 f19 f20 f21 f22 f23 f24 f25 f26 f27 f28 f29 f30 f31) := p in
  mkPlayer f0 f1 f2 f3 f4 f5 f6 f7 f8 f9 f10 f11 f12 f13 f14 f15 v f17 f18 f19
     f20 f21 f22 f23 f24 f25 f26 f27 f28 f29 f30 f31.

Definition set_dashKeyWasPressed (v : bool) (p : Player) : Player :=
  let '(mkPlayer f0 f1 f2 f3 f4 f5 f6 f7 f8 f9 f10 f11 f12 f13 f14 f15 f16 f17
     f18 f19 f20 f21 f22 f23 f24 f25 f26 f27 f28 f29 f30 f31) := p in
  mkPlayer f0 f1 f2 f3 f4 f5 f6 f7 f8 f9 f10 f11 f12 f13 f14 f15 f16 v f18 f19
     f20 f21 f22 f23 f24 f25 f26 f27 f28 f29 f30 f31.

Definition set_isDashing (v : bool) (p : Player) : Player :=
  let '(mkPlayer f0 f1 f2 f3 f4 f5 f6 f7 f8 f9 f10 f11 f12 f13 f14 f15 f16 f17
     f18 f19 f20 f21 f22 f23 f24 f25 f26 f27 f28 f29 f30 f31) := p in
  mkPlayer f0 f1 f2 f3 f4 f5 f6 f7 f8 f9 f10 f11 f12 f13 f14 f15 f16 f17 v f19
     f20 f21 f22 f23 f24 f25 f26 f27 f28 f29 f30 f31.

Definition set_dashProgress (v : Q) (p : Player) : Player :=
  let '(mkPlayer f0 f1 f2 f3 f4 f5 f6 f7 f8 f9 f10 f11 f12 f13 f14 f15 f16 f17
     f18 f19 f20 f21 f22 f23 f24 f25 f26 f27 f28 f29 f30 f31) := p in
  mkPlayer f0 f1 f2 f3 f4 f5 f6 f7 f8 f9 f10 f11 f12 f13 f14 f15 f16 f17 f18 v
     f20 f21 f22 f23 f24 f25 f26 f27 f28 f29 f30 f31.

Definition set_dashPhase (v : DashPhase) (p : Player) : Player :=
  let '(mkPlayer f0 f1 f2 f3 f4 f5 f6 f7 f8 f9 f10 f11 f12 f13 f14 f15 f16 f17
     f18 f19 f20 f21 f22 f23 f24 f25 f26 f27 f28 f29 f30 f31) := p in
  mkPlayer f0 f1 f2 f3 f4 f5 f6 f7 f8 f9 f10 f11 f12 f13 f14 f15 f16 f17 f18
     f19 v f21 f22 f23 f24 f25 f26 f27 f28 f29 f30 f31.

Definition set_canDashAgain (v : bool) (p : Player) : Player :=
  let '(mkPlayer f0 f1 f2 f3 f4 f5 f6 f7 f8 f9 f10 f11 f12 f13 f14 f15 f16 f17
     f18 f19 f20 f21 f22 f23 f24 f25 f26 f27 f28 f29 f30 f31) := p in
  mkPlayer f0 f1 f2 f3 f4 f5 f6 f7 f8 f9 f10 f11 f12 f13 f14 f15 f16 f17 f18
     f19 f20 v f22 f23 f24 f25 f26 f27 f28 f29 f30 f31.

Definition set_dashDirection (v : DIRECTION) (p : Player) : Player :=
  let '(mkPlayer f0 f1 f2 f3 f4 f5 f6 f7 f8 f9 f10 f11 f12 f13 f14 f15 f16 f17
     f18 f19 f20 f21 f22 f23 f24 f25 f26 f27 f28 f29 f30 f31) := p in
  mkPlayer f0 f1 f2 f3 f4 f5 f6 f7 f8 f9 f10 f11 f12 f13 f14 f15 f16 f17 f18
     f19 f20 f21 v f23 f24 f25 f26 f27 f28 f29 f30 f31.

Definition set_attackTimer (v : Q) (p : Player) : Player :=
  let '(mkPlayer f0 f1 f2 f3 f4 f5 f6 f7 f8 f9 f10 f11 f12 f13 f14 f15 f16 f17
     f18 f19 f20 f21 f22 f23 f24 f25 f26 f27 f28 f29 f30 f31) := p in
  mkPlayer f0 f1 f2 f3 f4 f5 f6 f7 f8 f9 f10 f11 f12 f13 f14 f15 f16 f17 f18
     f19 f20 f21 f22 v f24 f25 f26 f27 f28 f29 f30 f31.

Definition set_isSuperJumping (v : bool) (p : Player) : Player :=
  let '(mkPlayer f0 f1 f2 f3 f4 f5 f6 f7 f8 f9 f10 f11 f12 f13 f14 f15 f16 f17
     f18 f19 f20 f21 f22 f23 f24 f25 f26 f27 f28 f29 f30 f31) := p in
  mkPlayer f0 f1 f2 f3 f4 f5 f6 f7 f8 f9 f10 f11 f12 f13 f14 f15 f16 f17 f18
     f19 f20 f21 f22 f23 v f25 f26 f27 f28 f29 f30 f31.

Definition set_currentAnimation (v : AnimName) (p : Player) : Player :=
  let '(mkPlayer f0 f1 f2 f3 f4 f5 f6 f7 f8 f9 f10 f11 f12 f13 f14 f15 f16 f17
     f18 f19 f20 f21 f22 f23 f24 f25 f26 f27 f28 f29 f30 f31) := p in
  mkPlayer f0 f1 f2 f3 f4 f5 f6 f7 f8 f9 f10 f11 f12 f13 f14 f15 f16 f17 f18
     f19 f20 f21 f22 f23 f24 v f26 f27 f28 f29 f30 f31.

Definition set_animationFrame (v : Z) (p : Player) : Player :=
  let '(mkPlayer f0 f1 f2 f3 f4 f5 f6 f7 f8 f9 f10 f11 f12 f13 f14 f15 f16 f17
     f18 f19 f20 f21 f22 f23 f24 f25 f26 f27 f28 f29 f30 f31) := p in
  mkPlayer f0 f1 f2 f3 f4 f5 f6 f7 f8 f9 f10 f11 f12 f13 f14 f15 f16 f17 f18
     f19 f20 f21 f22 f23 f24 f25 v f27 f28 f29 f30 f31.

Definition set_frameTime (v : Q) (p : Player) : Player :=
  let '(mkPlayer f0 f1 f2 f3 f4 f5 f6 f7 f8 f9 f10 f11 f12 f13 f14 f15 f16 f17
     f18 f19 f20 f21 f22 f23 f24 f25 f26 f27 f28 f29 f30 f31) := p in
  mkPlayer f0 f1 f2 f3 f4 f5 f6 f7 f8 f9 f10 f11 f12 f13 f14 f15 f16 f17 f18
     f19 f20 f21 f22 f23 f24 f25 f26 v f28 f29 f30 f31.

Definition set_isControlEnabled (v : bool) (p : Player) : Player :=
  let '(mkPlayer f0 f1 f2 f3 f4 f5 f6 f7 f8 f9 f10 f11 f12 f13 f14 f15 f16 f17
     f18 f19 f20 f21 f22 f23 f24 f25 f26 f27 f28 f29 f30 f31) := p in
  mkPlayer f0 f1 f2 f3 f4 f5 f6 f7 f8 f9 f10 f11 f12 f13 f14 f15 f16 f17 f18
     f19 f20 f21 f22 f23 f24 f25 f26 f27 v f29 f30 f31.

Definition set_isGrounded (v : bool) (p : Player) : Player :=
  let '(mkPlayer f0 f1 f2 f3 f4 f5 f6 f7 f8 f9 f10 f11 f12 f13 f14 f15 f16 f17
     f18 f19 f20 f21 f22 f23 f24 f25 f26 f27 f28 f29 f30 f31) := p in
  mkPlayer f0 f1 f2 f3 f4 f5 f6 f7 f8 f9 f10 f11 f12 f13 f14 f15 f16 f17 f18
     f19 f20 f21 f22 f23 f24 f25 f26 f27 f28 v f30 f31.

Definition set_jumpFrames_jumpStart (v : Q) (p : Player) : Player :=
  let '(mkPlayer f0 f1 f2 f3 f4 f5 f6 f7 f8 f9 f10 f11 f12 f13 f14 f15 f16 f17
     f18 f19 f20 f21 f22 f23 f24 f25 f26 f27 f28 f29 f30 f31) := p in
  mkPlayer f0 f1 f2 f3 f4 f5 f6 f7 f8 f9 f10 f11 f12 f13 f14 f15 f16 f17 f18
     f19 f20 f21 f22 f23 f24 f25 f26 f27 f28 f29 v f31.

Definition set_jumpFrames_jumpDown (v : Q) (p : Player) : Player :=
  let '(mkPlayer f0 f1 f2 f3 f4 f5 f6 f7 f8 f9 f10 f11 f12 f13 f14 f15 f16 f17
     f18 f19 f20 f21 f22 f23 f24 f25 f26 f27 f28 f29 f30 f31) := p in
  mkPlayer f0 f1 f2 f3 f4 f5 f6 f7 f8 f9 f10 f11 f12 f13 f14 f15 f16 f17 f18
     f19 f20 f21 f22 f23 f24 f25 f26 f27 f28 f29 f30 v.

(** ** The managers the player talks to *)

(** KeyManager: the logical buttons [checkInput] samples. *)
Inductive Key : Type := KEY_X | KEY_Z | KEY_LEFT | KEY_RIGHT | KEY_C | KEY_V.

Record KeyManager : Type := mkKeys {
  keyX : bool;
  keyZ : bool;
  keyLEFT : bool;
  keyRIGHT : bool;
  keyC : bool;
  keyV : bool
}.

Definition isKeyDown (km : KeyManager) (k : Key) : bool :=
  match k with
  | KEY_X => keyX km
  | KEY_Z => keyZ km
  | KEY_LEFT => keyLEFT km
  | KEY_RIGHT => keyRIGHT km
  | KEY_C => keyC km
  | KEY_V => keyV km
  end.

(** TimeManager: [getTime] returns the stored frame delta. *)
Record TimeManager : Type := mkTime { deltaTime : Q }.

Definition getTime (tm : TimeManager) : Q := deltaTime tm.

(** ObjectSortManager.scrollOffset, the shared camera scroll vector. *)
Module ScrollOffset.
Record t : Type := mk { x : Q; y : Q; z : Q }.
End ScrollOffset.

(** SoundManager.playSound is fire-and-forget; the model logs the cue. *)
Record SoundCue : Type := mkCue { cue : string; loop : bool; volume : Q }.

(** The store one player update works on: the player object and the two
    singletons it mutates. *)
Record Game : Type := mkGame {
  player : Player;
  scrollOffset : ScrollOffset.t;
  played : list SoundCue
}.

Definition with_player (f : Player -> Player) (g : Game) : Game :=
  mkGame (f (player g)) (scrollOffset g) (played g).

Notation "g <~ f" := (with_player f g) (at level 50, left associativity).

Definition playSound (name : string) (lp : bool) (vol : Q) (g : Game) : Game :=
  mkGame (player g) (scrollOffset g) (played g ++ [mkCue name lp vol]).

(** [getScrollOffset] returns a copy of the vector. *)
Definition getScrollOffset (g : Game) : ScrollOffset.t :=
  ScrollOffset.mk (ScrollOffset.x (scrollOffset g))
                  (ScrollOffset.y (scrollOffset g))
                  (ScrollOffset.z (scrollOffset g)).

Definition setScrollOffset (sx sy sz : Q) (g : Game) : Game :=
  mkGame (player g) (ScrollOffset.mk sx sy sz) (played g).

(** ** Sequencing

    The methods are sequences of assignments and conditionals on one
    object.  [let! s := e in k] runs [e] to a state and continues with [k]
    on it; it is the plain [let] (lemmas [strict_Player_eq],
    [strict_Game_eq]), written as a match on the record so that evaluation
    proceeds statement by statement. *)

Class Strict (S : Type) : Type :=
  strict : forall {A : Type}, S -> (S -> A) -> A.

#[global] Instance Strict_Player : Strict Player :=
  fun A p k =>
    match p with
    | mkPlayer f0 f1 f2 f3 f4 f5 f6 f7 f8 f9 f10 f11 f12 f13 f14 f15 f16 f17
        f18 f19 f20 f21 f22 f23 f24 f25 f26 f27 f28 f29 f30 f31 =>
        k (mkPlayer f0 f1 f2 f3 f4 f5 f6 f7 f8 f9 f10 f11 f12 f13 f14 f15 f16
             f17 f18 f19 f20 f21 f22 f23 f24 f25 f26 f27 f28 f29 f30 f31)
    end.

#[global] Instance Strict_Game : Strict Game :=
  fun A g k =>
    match g with
    | mkGame p sc pl => strict p (fun p => k (mkGame p sc pl))
    end.

Notation "'let!' s ':=' e 'in' k" := (strict e (fun s => k))
  (at level 10, s name, e at level 100, k at level 200).

(** ** Player: constructor and initialize *)

Definition newPlayer : Player :=
  {| sortID := OBJ_NUM.PLAYER; visible := true; active := true;
     destroyed := false;
     transform_position_x := 0; transform_position_y := 0;
     status := IDLE; direction := RIGHT; positionStation := GROUND;
     x := 400; y := 480; angle := 0;
     velocityX := 0; velocityY := 0;
     isOnGround := true; canJump := true;
     jumpKeyWasPressed := false; dashKeyWasPressed := false;
     isDashing := false; dashProgress := 0; dashPhase := phase_none;
     canDashAgain := true; dashDirection := RIGHT;
     attackTimer := 0; isSuperJumping := false;
     currentAnimation := anim_IDLE; animationFrame := 0%Z; frameTime := 0;
     isControlEnabled := false; isGrounded := false;
     jumpFrames_jumpStart := 0; jumpFrames_jumpDown := 0 |}.

(** The state part of [initialize] (texture loading is outside the model). *)
Definition initialize (p : Player) : Player :=
  let! p := set_transform_position_x (x p) p in
  let! p := set_transform_position_y (y p) p in
  let! p := set_isControlEnabled true p in
  set_status IDLE p.

(** ObjectSortManager's constructor value of the scroll vector. *)
Definition initialScroll : ScrollOffset.t := ScrollOffset.mk (-600) 30 0.

Definition newGame : Game := mkGame (initialize newPlayer) initialScroll [].

(** ** Player: helpers of checkInput *)

(** [isAttacking] *)
Definition isAttacking (p : Player) : bool :=
  STATUS_beq (status p) A1 || STATUS_beq (status p) A2
  || STATUS_beq (status p) A3 || STATUS_beq (status p) FIREATTACK
  || STATUS_beq (status p) JUMPATTACK.

(** [updateScroll(scrollDelta)] *)
Definition updateScroll (scrollDelta : Q) (g : Game) : Game :=
  if Qlt_bool 400 (x (player g)) && Qlt_bool (x (player g)) 1200 then
    let scrollOffset := getScrollOffset g in
    setScrollOffset (ScrollOffset.x scrollOffset + scrollDelta)
                    (ScrollOffset.y scrollOffset)
                    (ScrollOffset.z scrollOffset) g
  else g.

(** [handleWalking(leftKeyDown, rightKeyDown, deltaTime)] *)
Definition handleWalking (leftKeyDown rightKeyDown : bool) (dt : Q)
    (g : Game) : Game :=
  if leftKeyDown then
    let! g := g <~ set_direction LEFT in
    let! g := g <~ set_status WALK in
    let! g := g <~ (fun p => set_x (x p - speed * dt) p) in
    updateScroll (speed * dt) g
  else if rightKeyDown then
    let! g := g <~ set_direction RIGHT in
    let! g := g <~ set_status WALK in
    let! g := g <~ (fun p => set_x (x p + speed * dt) p) in
    updateScroll (- speed * dt) g
  else
    if isOnGround (player g) && negb (isDashing (player g))
    then g <~ set_status IDLE
    else g.

(** [handleAirMovement(leftKeyDown, rightKeyDown, deltaTime)] *)
Definition handleAirMovement (leftKeyDown rightKeyDown : bool) (dt : Q)
    (g : Game) : Game :=
  let airControlSpeed := speed * 0.7 in
  if leftKeyDown then
    let! g := g <~ set_direction LEFT in
    let! g := g <~ (fun p => set_x (x p - airControlSpeed * dt) p) in
    updateScroll (airControlSpeed * dt) g
  else if rightKeyDown then
    let! g := g <~ set_direction RIGHT in
    let! g := g <~ (fun p => set_x (x p + airControlSpeed * dt) p) in
    updateScroll (- airControlSpeed * dt) g
  else g.

(** checkInput, "GROUND DETECTION (always runs first)". *)
Definition groundDetection (g : Game) : Game :=
  if Qle_bool maxYPosition (y (player g)) then
    let! g := g <~ set_positionStation GROUND in
    let! g := g <~ set_isOnGround true in
    let! g := g <~ set_jumpFrames_jumpDown 0 in
    let! g :=
      if negb (isGrounded (player g)) then
        let! g := playSound "plat" false 0.5 g in
        g <~ set_isGrounded true
      else g in
    let! g := g <~ set_angle 0 in
    if STATUS_beq (status (player g)) JUMPDOWN && isDashing (player g)
    then g <~ set_isDashing false
    else g
  else
    let! g := g <~ set_positionStation AIR in
    let! g := g <~ set_isOnGround false in
    g <~ set_isGrounded false.

(** checkInput, "1. ALWAYS RESET KEY TRACKING FIRST". *)
Definition resetKeyTracking (xKeyDown zKeyDown : bool) (p : Player) : Player :=
  let! p :=
    if negb xKeyDown then
      let! p := set_jumpKeyWasPressed false p in
      if isOnGround p then set_canJump true p else p
    else p in
  if negb zKeyDown && negb (isDashing p)
  then set_dashKeyWasPressed false p
  else p.

(** checkInput, "3. SAFETY RESETS": the grounded safety-reset pass. *)
Definition safetyResets (xKeyDown zKeyDown leftKeyDown rightKeyDown : bool)
    (p : Player) : Player :=
  if isOnGround p then
    let! p :=
      if negb xKeyDown then
        let! p := set_jumpKeyWasPressed false p in
        set_canJump true p
      else p in
    let! p :=
      if negb zKeyDown then
        let! p := set_dashKeyWasPressed false p in
        if negb (isDashing p) then set_canDashAgain true p else p
      else p in
    let! p :=
      if isDashing p
         && negb (STATUS_beq (status p) DASH)
         && negb (STATUS_beq (status p) DASHEND)
      then
        let! p := set_isDashing false p in
        let! p := set_dashPhase phase_none p in
        let! p := set_canDashAgain true p in
        set_dashDirection (direction p) p
      else p in
    if negb xKeyDown && negb zKeyDown && negb leftKeyDown && negb rightKeyDown
       && negb (STATUS_beq (status p) IDLE)
       && negb (STATUS_beq (status p) WALK)
       && negb (STATUS_beq (status p) DASH)
       && negb (STATUS_beq (status p) DASHEND)
       && negb (isAttacking p)
    then
      let! p := set_status IDLE p in
      set_canDashAgain true p
    else p
  else p.

(** ** Player: checkInput *)

(** [checkInput] leaves through [return] in the middle of its [switch], or
    falls out of the [switch] ([break]) into the safety resets. *)
Inductive Flow : Type :=
  | Return (g : Game)
  | Break (g : Game).

Section PlayerMethods.

(** [Math.cos(angle * Math.PI / 180 * 2)] as a function of [angle]; the
    trigonometric function is left abstract. *)
Variable cosTwiceDegrees : Q -> Q.

(** checkInput, "2. STATE MACHINE APPROACH": the [switch (this.status)]. *)
Definition stateMachine (km : KeyManager) (dt : Q) (g : Game) : Flow :=
  let xKeyDown := isKeyDown km KEY_X in
  let zKeyDown := isKeyDown km KEY_Z in
  let leftKeyDown := isKeyDown km KEY_LEFT in
  let rightKeyDown := isKeyDown km KEY_RIGHT in
  let cKeyDown := isKeyDown km KEY_C in
  let vKeyDown := isKeyDown km KEY_V in
  let this := player g in
  match status this with
  | IDLE | WALK =>
      if cKeyDown && isOnGround this then
        (* Basic attack (ground only) *)
        let! g := g <~ set_animationFrame 0%Z in
        let! g := g <~ set_status A1 in
        let! g := g <~ set_attackTimer 0 in
        let! g := playSound "a1" false 0.7 g in
        let! g := playSound "sword" false 0.7 g in
        Return g
      else if vKeyDown && isOnGround this then
        (* Fire attack *)
        let! g := playSound "fire" false 0.7 g in
        let! g := g <~ set_status FIREATTACK in
        let! g := g <~ set_attackTimer 0 in
        let! g := g <~ set_positionStation AIR in
        Return g
      else if xKeyDown && zKeyDown
              && negb (jumpKeyWasPressed this) && negb (dashKeyWasPressed this)
              && isOnGround this && canJump this && canDashAgain this then
        (* SUPER JUMP *)
        let! g := g <~ set_status JUMPSTART in
        let! g := g <~ set_velocityY (- jumpPower * 10 * superJumpMultiplier) in
        let! g :=
          if DIRECTION_beq (direction this) RIGHT
          then g <~ set_velocityX superJumpVelocityX
          else g <~ set_velocityX (- superJumpVelocityX) in
        let! g := g <~ set_isOnGround false in
        let! g := g <~ set_canJump false in
        let! g := g <~ set_jumpKeyWasPressed true in
        let! g := g <~ set_dashKeyWasPressed true in
        let! g := g <~ set_positionStation AIR in
        let! g := g <~ set_jumpFrames_jumpStart 0 in
        let! g := g <~ set_animationFrame 0%Z in
        let! g := g <~ set_isGrounded false in
        let! g := g <~ set_isSuperJumping true in
        let! g := playSound "jump" false 0.6 g in
        let! g := playSound "dash" false 0.4 g in
        Return g
      else if xKeyDown && negb (jumpKeyWasPressed this)
              && isOnGround this && canJump this then
        (* Regular jump *)
        let! g := g <~ set_status JUMPSTART in
        let! g := g <~ set_velocityY (- jumpPower * 10) in
        let! g := g <~ set_isOnGround false in
        let! g := g <~ set_canJump false in
        let! g := g <~ set_jumpKeyWasPressed true in
        let! g := g <~ set_positionStation AIR in
        let! g := g <~ set_jumpFrames_jumpStart 0 in
        let! g := g <~ set_animationFrame 0%Z in
        let! g := g <~ set_isGrounded false in
        let! g := playSound "jump" false 0.5 g in
        Return g
      else if zKeyDown && negb (dashKeyWasPressed this) && isOnGround this
              && negb (isDashing this) && canDashAgain this then
        (* Dash from the ground states *)
        let! g := g <~ set_status DASH in
        let! g := g <~ set_isDashing true in
        let! g := g <~ set_dashProgress 0 in
        let! g := g <~ set_dashPhase phase_start in
        let! g := g <~ set_dashKeyWasPressed true in
        let! g := g <~ set_canDashAgain false in
        let! g :=
          if leftKeyDown then
            let! g := g <~ set_dashDirection LEFT in
            g <~ set_direction LEFT
          else if rightKeyDown then
            let! g := g <~ set_dashDirection RIGHT in
            g <~ set_direction RIGHT
          else g <~ set_dashDirection (direction this) in
        let! g := playSound "dash" false 0.6 g in
        Return g
      else
        Break (handleWalking leftKeyDown rightKeyDown dt g)
  | JUMPSTART | JUMPDOWN =>
      if cKeyDown then
        let! g := playSound "sword" false 0.7 g in
        let! g := g <~ set_status JUMPATTACK in
        let! g := g <~ set_attackTimer 0 in
        let! g := g <~ set_angle 120 in
        Return g
      else
        let! g :=
          if STATUS_beq (status this) JUMPSTART then
            let! g :=
              if Qlt_bool (velocityY this) 0 then
                let! g := g <~ (fun p =>
                  set_y (y p - jumpPower * cosTwiceDegrees (angle p)) p) in
                let scrollOffset := getScrollOffset g in
                let! g := setScrollOffset
                           (ScrollOffset.x scrollOffset)
                           (Math_min (ScrollOffset.y scrollOffset + speed * dt) 80)
                           (ScrollOffset.z scrollOffset) g in
                g <~ set_isGrounded false
              else g in
            let! g :=
              if Qle_bool 0 (velocityY (player g)) then
                let! g := g <~ set_status JUMPDOWN in
                g <~ set_jumpFrames_jumpDown 0
              else g in
            if negb xKeyDown then
              let! g := g <~ set_status JUMPDOWN in
              let! g := g <~ set_jumpFrames_jumpStart 0 in
              let! g := g <~ set_jumpFrames_jumpDown 0 in
              g <~ set_angle 90
            else g
          else g in
        Break (handleAirMovement leftKeyDown rightKeyDown dt g)
  | DASH => Break g
  | DASHEND => Break g
  | A1 | JUMPATTACK | FIREATTACK =>
      let! g := g <~ (fun p => set_attackTimer (attackTimer p + dt) p) in
      let! g :=
        if Qle_bool maxAttackDuration (attackTimer (player g)) then
          let! g := g <~ set_attackTimer 0 in
          if STATUS_beq (status (player g)) JUMPATTACK
             && negb (isOnGround (player g))
          then g <~ set_status JUMPDOWN
          else g <~ set_status IDLE
        else g in
      Break g
  | _ =>
      let! g :=
        if POS_STATION_beq (positionStation this) AIR
        then g <~ set_status JUMPDOWN
        else g in
      Break g
  end.

(** [checkInput()] *)
Definition checkInput (km : KeyManager) (tm : TimeManager) (g : Game) : Game :=
  if negb (isControlEnabled (player g)) then g
  else
    let deltaTime := getTime tm in
    let xKeyDown := isKeyDown km KEY_X in
    let zKeyDown := isKeyDown km KEY_Z in
    let leftKeyDown := isKeyDown km KEY_LEFT in
    let rightKeyDown := isKeyDown km KEY_RIGHT in
    let! g := groundDetection g in
    let! g := g <~ resetKeyTracking xKeyDown zKeyDown in
    match stateMachine km deltaTime g with
    | Return g => g
    | Break g =>
        g <~ safetyResets xKeyDown zKeyDown leftKeyDown rightKeyDown
    end.

(** ** Player: updatePhysics *)

(** The easing factor of the dash, a function of
    [progress = dashProgress / dashDistance]. *)
Definition dashEasingFactor (progress : Q) : Q :=
  if Qlt_bool progress dashEasing_startAcceleration then
    0.3 + (progress / dashEasing_startAcceleration) * 0.7
  else if Qlt_bool (1.0 - dashEasing_endDeceleration) progress then
    let endProgress :=
      (progress - (1.0 - dashEasing_endDeceleration))
      / dashEasing_endDeceleration in
    1.0 - (endProgress * 0.4)
  else 1.0.

(** updatePhysics, [case STATUS.DASH] of the [switch]. *)
Definition dashPhysics (km : KeyManager) (dt : Q) (g : Game) : Game :=
  match dashPhase (player g) with
  | phase_start => g
  | phase_moving =>
      let baseDashMovement := dashSpeed * dt in
      let progress := dashProgress (player g) / dashDistance in
      let easingFactor := dashEasingFactor progress in
      let dashMovement := baseDashMovement * easingFactor in
      let! g :=
        if canChangeDashDirection then
          let leftKeyDown := isKeyDown km KEY_LEFT in
          let rightKeyDown := isKeyDown km KEY_RIGHT in
          if leftKeyDown && negb rightKeyDown then
            let! g := g <~ set_dashDirection LEFT in
            g <~ set_direction LEFT
          else if rightKeyDown && negb leftKeyDown then
            let! g := g <~ set_dashDirection RIGHT in
            g <~ set_direction RIGHT
          else g
        else g in
      let! g :=
        if DIRECTION_beq (dashDirection (player g)) RIGHT then
          let! g := g <~ (fun p => set_x (x p + dashMovement) p) in
          updateScroll (- dashMovement) g
        else
          let! g := g <~ (fun p => set_x (x p - dashMovement) p) in
          updateScroll dashMovement g in
      let! g := g <~ (fun p =>
        set_dashProgress (dashProgress p + baseDashMovement) p) in
      if Qle_bool (dashDistance * 0.85) (dashProgress (player g)) then
        let! g := g <~ set_dashPhase phase_end in
        g <~ set_status DASHEND
      else g
  | _ => g
  end.

(** updatePhysics, the [switch (this.status)]. *)
Definition statePhysics (km : KeyManager) (dt : Q) (g : Game) : Game :=
  match status (player g) with
  | DASH => dashPhysics km dt g
  | DASHEND => g
  | JUMPSTART | JUMPDOWN => g
  | _ => g <~ (fun p => set_velocityX (velocityX p * 0.8) p)
  end.

(** updatePhysics, "Apply gravity if not on ground". *)
Definition applyGravity (dt : Q) (p : Player) : Player :=
  if negb (isOnGround p) then
    let! p := set_velocityY (velocityY p + gravity * dt) p in
    if Qlt_bool maxFallSpeed (velocityY p)
    then set_velocityY maxFallSpeed p
    else p
  else p.

(** updatePhysics, "Handle super jump physics". *)
Definition superJumpPhysics (dt : Q) (g : Game) : Game :=
  if isSuperJumping (player g) then
    let! g := g <~ (fun p => set_x (x p + velocityX p * dt) p) in
    let! g := g <~ (fun p => set_velocityX (velocityX p * 0.98) p) in
    let! g :=
      if Qlt_bool 0 (velocityX (player g))
      then updateScroll (- velocityX (player g) * dt * 0.5) g
      else updateScroll (- velocityX (player g) * dt * 0.5) g in
    if Qlt_bool (jumpPower * 2) (velocityY (player g)) then
      let! g := g <~ set_isSuperJumping false in
      g <~ (fun p => set_velocityX (velocityX p * 0.5) p)
    else g
  else g.

(** updatePhysics, "Ground collision". *)
Definition groundCollision (p : Player) : Player :=
  if Qle_bool maxYPosition (y p) then
    let! p := set_y maxYPosition p in
    let! p := set_velocityY 0 p in
    let! p := set_isOnGround true p in
    let! p := set_positionStation GROUND p in
    let! p := if negb (jumpKeyWasPressed p) then set_canJump true p else p in
    let! p := if isSuperJumping p then set_isSuperJumping false p else p in
    let! p :=
      if (STATUS_beq (status p) JUMPSTART || STATUS_beq (status p) JUMPDOWN)
         && negb (isDashing p)
      then
        let! p := set_status IDLE p in
        let! p := set_isDashing false p in
        set_dashPhase phase_none p
      else p in
    set_positionStation GROUND p
  else
    let! p := set_isOnGround false p in
    let! p := set_positionStation AIR p in
    if Qlt_bool 0 (velocityY p) && STATUS_beq (status p) JUMPSTART
    then set_status JUMPDOWN p
    else p.

(** updatePhysics, "Screen boundaries". *)
Definition screenBoundaries (p : Player) : Player :=
  let! p :=
    if Qlt_bool (x p) 20 then
      let! p := set_x 20 p in
      set_velocityX 0 p
    else p in
  if Qlt_bool 780 (x p) then
    let! p := set_x 780 p in
    set_velocityX 0 p
  else p.

(** [updatePhysics(deltaTime)] *)
Definition updatePhysics (km : KeyManager) (dt : Q) (g : Game) : Game :=
  let! g := g <~ applyGravity dt in
  let! g := superJumpPhysics dt g in
  let! g := statePhysics km dt g in
  let! g := g <~ (fun p => set_x (x p + velocityX p * dt) p) in
  let! g := g <~ (fun p => set_y (y p + velocityY p * dt) p) in
  let! g := g <~ groundCollision in
  let! g := g <~ screenBoundaries in
  let! g := g <~ (fun p => set_transform_position_x (x p) p) in
  g <~ (fun p => set_transform_position_y (y p) p).

(** ** Player: updateAnimation *)

(** [changeAnimation(newAnimation)]; the sprite refresh is presentation
    only and has no counterpart in the model. *)
Definition changeAnimation (newAnimation : AnimName) (p : Player) : Player :=
  if AnimName_beq (currentAnimation p) newAnimation then p
  else
    let! p := set_currentAnimation newAnimation p in
    let! p := set_animationFrame 0%Z p in
    set_frameTime 0 p.

Definition targetAnimation (s : STATUS) : AnimName :=
  match s with
  | IDLE => anim_IDLE
  | WALK => anim_WALK
  | DASH => anim_DASH
  | DASHEND => anim_DASH_END
  | JUMPSTART => anim_JUMP_START
  | JUMPDOWN => anim_JUMP_DOWN
  | A1 => anim_ATTACK
  | JUMPATTACK => anim_ATTACK
  | FIREATTACK => anim_ATTACK
  | _ => anim_IDLE
  end.

(** The animation-completed event: the body of
    [if (this.frameTime >= animData.frames)]. *)
Definition animationCompleted (km : KeyManager) (p : Player) : Player :=
  let! p := set_frameTime 0 p in
  if AnimName_beq (currentAnimation p) anim_DASH
     && DashPhase_beq (dashPhase p) phase_start then
    let! p := set_dashPhase phase_moving p in
    set_dashProgress 0 p
  else if AnimName_beq (currentAnimation p) anim_DASH_END
          && DashPhase_beq (dashPhase p) phase_end then
    let! p := set_isDashing false p in
    let! p := set_dashPhase phase_none p in
    let! p := set_status IDLE p in
    let! p := set_canDashAgain true p in
    let zKeyDown := isKeyDown km KEY_Z in
    let! p :=
      if zKeyDown then set_dashKeyWasPressed false p
      else set_dashKeyWasPressed false p in
    set_dashDirection (direction p) p
  else if AnimName_beq (currentAnimation p) anim_ATTACK then
    let! p := set_attackTimer 0 p in
    if STATUS_beq (status p) JUMPATTACK then
      if isOnGround p then set_status IDLE p else set_status JUMPDOWN p
    else if STATUS_beq (status p) FIREATTACK then set_status IDLE p
    else set_status IDLE p
  else p.

(** [updateAnimation(deltaTime)] *)
Definition updateAnimation (km : KeyManager) (dt : Q) (p : Player) : Player :=
  let! p :=
    if negb (AnimName_beq (currentAnimation p) (targetAnimation (status p)))
    then changeAnimation (targetAnimation (status p)) p
    else p in
  let animData := animations (currentAnimation p) in
  let! p := set_frameTime (frameTime p + anim_speed animData * dt) p in
  if Qle_bool 1.0 (frameTime p) then
    let! p :=
      set_animationFrame (Z.rem (Qfloor (frameTime p)) (frames animData)) p in
    let! p :=
      if AnimName_beq (currentAnimation p) anim_DASH
         && DashPhase_beq (dashPhase p) phase_start
         && (4 <=? animationFrame p)%Z
      then
        let! p := set_dashPhase phase_moving p in
        set_dashProgress 0 p
      else p in
    if Qle_bool (inject_Z (frames animData)) (frameTime p)
    then animationCompleted km p
    else p
  else p.

(** ** GameObject.update and Player.update *)

(** [GameObject.update]: the calls to [this.updateAnimation] and
    [this.updatePhysics] dispatch to the player's overrides.  The collision
    box is not part of the model. *)
Definition GameObject_update (km : KeyManager) (dt : Q) (g : Game) : Game :=
  if negb (active (player g)) || destroyed (player g) then g
  else
    let! g := g <~ updateAnimation km dt in
    updatePhysics km dt g.

(** [Player.update(deltaTime)] *)
Definition update (km : KeyManager) (tm : TimeManager) (dt : Q) (g : Game)
    : Game :=
  if destroyed (player g) then g
  else
    let! g :=
      if isControlEnabled (player g) then checkInput km tm g else g in
    let! g := updatePhysics km dt g in
    let! g := g <~ updateAnimation km dt in
    let! g := g <~ (fun p => set_transform_position_x (x p) p) in
    let! g := g <~ (fun p => set_transform_position_y (y p) p) in
    GameObject_update km dt g.

End PlayerMethods.

(** ** ObjectSortManager *)

(** What the scheduler asks of an object (it is duck-typed in the source):
    its layer, its visibility and whether it is destroyed. *)
Class SortedObject (Obj : Type) : Type := {
  getSortID : Obj -> Z;
  obj_visible : Obj -> bool;
  isDestroyed : Obj -> bool
}.

#[global] Instance Player_SortedObject : SortedObject Player :=
  {| getSortID := sortID; obj_visible := visible; isDestroyed := destroyed |}.

Section Scheduler.

Context {Obj : Type} `{SortedObject Obj}.

Record ObjectSortManager : Type := mkManager {
  objectLayers : list (list Obj);
  initialized : bool
}.

(** The constructor followed by [initializeLayers]: 20 empty layers. *)
Definition initializeLayers : ObjectSortManager :=
  mkManager (repeat [] 20) true.

(** [this.objectLayers[i].push(obj)] for an index inside the array. *)
Fixpoint push_at (i : nat) (obj : Obj) (layers : list (list Obj))
    : list (list Obj) :=
  match layers, i with
  | [], _ => []
  | layer :: rest, O => (layer ++ [obj]) :: rest
  | layer :: rest, S j => layer :: push_at j obj rest
  end.

(** [addSortedObject(obj)]; [None] stands for a missing object. *)
Definition addSortedObject (obj : option Obj) (m : ObjectSortManager)
    : bool * ObjectSortManager :=
  match obj with
  | None => (false, m)
  | Some o =>
      if negb (initialized m) then (false, m)
      else
        let sortID := getSortID o in
        if (0 <=? sortID)%Z
           && (sortID <? Z.of_nat (List.length (objectLayers m)))%Z
        then
          (true,
           mkManager (push_at (Z.to_nat sortID) o (objectLayers m))
                     (initialized m))
        else (false, m)
  end.

(** [insertObject(obj)], the alias. *)
Definition insertObject (obj : option Obj) (m : ObjectSortManager)
    : bool * ObjectSortManager :=
  addSortedObject obj m.

(** Inserting a sequence of objects, one call after the other. *)
Definition insertAll (objs : list Obj) (m : ObjectSortManager)
    : ObjectSortManager :=
  fold_left (fun m o => snd (insertObject (Some o) m)) objs m.

(** The inner loop of [renderObjects]: the objects of one layer on which
    [render] is called, in call order. *)
Fixpoint renderLayer (layer : list Obj) : list Obj :=
  match layer with
  | [] => []
  | obj :: rest =>
      if obj_visible obj && negb (isDestroyed obj)
      then obj :: renderLayer rest
      else renderLayer rest
  end.

(** The outer loop, from layer 0 to the highest. *)
Fixpoint renderLayers (layers : list (list Obj)) : list Obj :=
  match layers with
  | [] => []
  | layer :: rest => renderLayer layer ++ renderLayers rest
  end.

(** [renderObjects()]: the sequence of objects rendered. *)
Definition renderObjects (m : ObjectSortManager) : list Obj :=
  if negb (initialized m) then [] else renderLayers (objectLayers m).

(** [getLayer(layerIndex)] *)
Definition getLayer (layerIndex : Z) (m : ObjectSortManager) : list Obj :=
  if (0 <=? layerIndex)%Z
     && (layerIndex <? Z.of_nat (List.length (objectLayers m)))%Z
  then nth (Z.to_nat layerIndex) (objectLayers m) []
  else [].

(** Vocabulary of the render-order property: the objects of [objs]
    declared for layer [i], in the order of [objs], and the test of the
    render loop. *)
Definition declaredFor (objs : list Obj) (i : nat) : list Obj :=
  filter (fun o => (getSortID o =? Z.of_nat i)%Z) objs.

Definition rendered (o : Obj) : bool := obj_visible o && negb (isDestroyed o).

End Scheduler.

Arguments ObjectSortManager Obj : clear implicits.

(** ** Frames *)

(** One call of [update]: the key snapshot, the TimeManager that
    [checkInput] reads and the [deltaTime] argument. *)
Record FrameInput : Type := mkFrame {
  frameKeys : KeyManager;
  frameClock : TimeManager;
  frameDelta : Q
}.

(** Successive calls of [update]. *)
Fixpoint runFrames (cosT : Q -> Q) (frames : list FrameInput) (g : Game)
    : Game :=
  match frames with
  | [] => g
  | f :: rest =>
      runFrames cosT rest
        (update cosT (frameKeys f) (frameClock f) (frameDelta f) g)
  end.

(** The game after a run of frames from its start. *)
Definition gameAfter (cosT : Q -> Q) (history : list FrameInput) : Game :=
  runFrames cosT history newGame.

(** The jump button was up in the last frame of the history; an empty
    history counts, no button having been seen down yet. *)
Definition jumpButtonWasUp (history : list FrameInput) : bool :=
  match rev history with
  | [] => true
  | f :: _ => negb (isKeyDown (frameKeys f) KEY_X)
  end.

(** The input pass of a frame takes the status into JUMPSTART. *)
Definition firesJumpStart (cosT : Q -> Q) (f : FrameInput) (g : Game) : bool :=
  negb (destroyed (player g))
  && isControlEnabled (player g)
  && negb (STATUS_beq (status (player g)) JUMPSTART)
  && STATUS_beq
       (status (player (checkInput cosT (frameKeys f) (frameClock f) g)))
       JUMPSTART.

(** The number of frames of a run whose input pass fires a JUMPSTART. *)
Fixpoint jumpStartsFired (cosT : Q -> Q) (frames : list FrameInput) (g : Game)
    : nat :=
  match frames with
  | [] => 0%nat
  | f :: rest =>
      ((if firesJumpStart cosT f g then 1 else 0)
       + jumpStartsFired cosT rest
           (update cosT (frameKeys f) (frameClock f) (frameDelta f) g))%nat
  end.

(** A frame in which the animation clock is stalled: the input pass and the
    physics step run, no animation event is delivered. *)
Definition stalledFrame (cosT : Q -> Q) (f : FrameInput) (g : Game) : Game :=
  updatePhysics (frameKeys f) (frameDelta f)
    (checkInput cosT (frameKeys f) (frameClock f) g).

Definition stalledFrames (cosT : Q -> Q) (frames : list FrameInput) (g : Game)
    : Game :=
  fold_left (fun g f => stalledFrame cosT f g) frames g.





(** ** Vocabulary of the stage lemmas *)

(** The game a [Flow] carries. *)
Definition flowGame (f : Flow) : Game :=
  match f with
  | Return g => g
  | Break g => g
  end.

(** The statuses of the attack case of the [switch]. *)
Definition isAttackStatus (s : STATUS) : bool :=
  match s with
  | A1 | JUMPATTACK | FIREATTACK => true
  | _ => false
  end.

(** The attacks that start on the ground. *)
Definition isGroundAttack (s : STATUS) : bool :=
  match s with
  | A1 | FIREATTACK => true
  | _ => false
  end.

(** Between two frames: at the ground line the player is at rest, and a
    ground attack is under way only at the ground line. *)
Definition standsOnGround (p : Player) : Prop :=
  (maxYPosition <= y p -> velocityY p = 0) /\
  (isGroundAttack (status p) = true -> maxYPosition <= y p).

(** Between the input pass and the physics step: a ground attack is under
    way only at rest at the ground line. *)
Definition heldOnGround (p : Player) : Prop :=
  isGroundAttack (status p) = true ->
  maxYPosition <= y p /\ velocityY p = 0.

(** The fields a stage leaves alone unless its lemma says otherwise. *)
Definition untouched (p p' : Player) : Prop :=
  isControlEnabled p' = isControlEnabled p /\
  destroyed p' = destroyed p /\
  active p' = active p /\
  attackTimer p' = attackTimer p /\
  jumpKeyWasPressed p' = jumpKeyWasPressed p /\
  velocityY p' = velocityY p /\
  status p' = status p /\
  y p' = y p.

(** What the physics step, the animation step and their repetition in
    [GameObject.update] keep of a player. *)
Definition frameKept (p p' : Player) : Prop :=
  isControlEnabled p' = isControlEnabled p /\
  destroyed p' = destroyed p /\
  active p' = active p /\
  jumpKeyWasPressed p' = jumpKeyWasPressed p /\
  (status p' = JUMPSTART -> status p = JUMPSTART) /\
  (velocityY p <= maxFallSpeed -> velocityY p' <= maxFallSpeed).

(** A plain object of the scheduler, as a test would build it: a name, the
    declared layer and the two flags the render loop reads. *)
Record Sprite : Type := mkSprite {
  spriteName : string;
  spriteLayer : Z;
  spriteVisible : bool;
  spriteDestroyed : bool
}.

#[global] Instance Sprite_SortedObject : SortedObject Sprite :=
  {| getSortID := spriteLayer; obj_visible := spriteVisible;
     isDestroyed := spriteDestroyed |}.

(** A motion step moves the camera only through [updateScroll]: the y and
    z components keep their values, and the vector is unchanged unless the
    player ends the step inside the window. *)
Definition scrollsInWindow (g g' : Game) : Prop :=
  ScrollOffset.y (scrollOffset g') = ScrollOffset.y (scrollOffset g) /\
  ScrollOffset.z (scrollOffset g') = ScrollOffset.z (scrollOffset g) /\
  (scrollOffset g' = scrollOffset g \/
   (400 < x (player g') /\ x (player g') < 1200)).


(** ** Concrete inputs used by the examples below *)

(** A stand-in for the cosine where an example needs a closed term. *)
Definition cosOne : Q -> Q := fun _ => 1.

Definition frame16ms : TimeManager := mkTime 0.016.
Definition frame50ms : TimeManager := mkTime 0.05.

Definition noKeys : KeyManager := mkKeys false false false false false false.
Definition keys_X : KeyManager := mkKeys true false false false false false.
Definition keys_XZ : KeyManager := mkKeys true true false false false false.
Definition keys_XZC : KeyManager := mkKeys true true false false true false.
Definition keys_XC : KeyManager := mkKeys true false false false true false.
Definition keys_C : KeyManager := mkKeys false false false false true false.
Definition keys_V : KeyManager := mkKeys false false false false false true.
Definition keys_CV : KeyManager := mkKeys false false false false true true.

(** A dash in its moving phase, halfway and near its end. *)
Definition movingDash : Game :=
  newGame <~ set_status DASH <~ set_isDashing true
          <~ set_dashPhase phase_moving <~ set_dashProgress 150.

Definition endingDash : Game :=
  newGame <~ set_status DASH <~ set_isDashing true
          <~ set_dashPhase phase_moving <~ set_dashProgress 250.

(** A grounded idle player whose [isDashing] flag was left set. *)
Definition stuckDash : Player := set_isDashing true (initialize newPlayer).

(** A 50 ms frame with no key down. *)
Definition idleFrame : FrameInput := mkFrame noKeys frame50ms 0.05.

(** 50 ms frames with the basic-attack button down, alone or with the
    jump button. *)
Definition attackFrame : FrameInput := mkFrame keys_C frame50ms 0.05.
Definition jumpAttackFrame : FrameInput := mkFrame keys_XC frame50ms 0.05.

(** 50 ms frames with the jump button held, alone or with the dash
    button. *)
Definition jumpFrame : FrameInput := mkFrame keys_X frame50ms 0.05.
Definition superJumpFrame : FrameInput := mkFrame keys_XZ frame50ms 0.05.

(** A 16 ms frame with the fire-attack button down. *)
Definition fireFrame : FrameInput := mkFrame keys_V frame16ms 0.016.

(** A 16 ms frame with the jump button held, alone or with the attack
    button. *)
Definition heldJump : FrameInput := mkFrame keys_X frame16ms 0.016.
Definition heldJumpAttack : FrameInput := mkFrame keys_XC frame16ms 0.016.

(** ** Vocabulary of the run invariants and of the dash rules *)

(** The statuses held on the ground only. *)
Definition isGroundStatus (s : STATUS) : bool :=
  match s with
  | IDLE | WALK | DASH | DASHEND | A1 | FIREATTACK => true
  | _ => false
  end.

(** The ground flags between two frames: the player is on or above the
    ground line, at rest on it, with [isOnGround] and [positionStation]
    telling which, and in a ground status only on the line. *)
Definition grounded (p : Player) : Prop :=
  y p <= maxYPosition /\
  (maxYPosition <= y p -> velocityY p = 0) /\
  isOnGround p = Qle_bool maxYPosition (y p) /\
  positionStation p = (if isOnGround p then GROUND else AIR) /\
  (isGroundStatus (status p) = true -> maxYPosition <= y p).

(** The same between the input pass and the physics step, where the flags
    may be stale (a jump has just started). *)
Definition groundedMidFrame (p : Player) : Prop :=
  isGroundStatus (status p) = true ->
  maxYPosition <= y p /\ velocityY p = 0.

(** The same inside the input pass, after ground detection. *)
Definition groundedFlag (p : Player) : Prop :=
  (isOnGround p = true -> maxYPosition <= y p /\ velocityY p = 0) /\
  (isGroundStatus (status p) = true -> isOnGround p = true).

(** What an animation step can do to the player besides advancing the
    animation clock. *)
Inductive AnimationEvent : Type :=
  | NoEvent
  | DashStartsMoving
  | DashEnds
  | AttackEnds.

(** The writes of each event, as [updateAnimation] makes them. *)
Definition applyEvent (e : AnimationEvent) (p : Player) : Player :=
  match e with
  | NoEvent => p
  | DashStartsMoving => set_dashProgress 0 (set_dashPhase phase_moving p)
  | DashEnds =>
      set_dashDirection (direction p)
        (set_dashKeyWasPressed false
           (set_canDashAgain true
              (set_status IDLE
                 (set_dashPhase phase_none (set_isDashing false p)))))
  | AttackEnds =>
      set_status
        (if STATUS_beq (status p) JUMPATTACK && negb (isOnGround p)
         then JUMPDOWN else IDLE)
        (set_attackTimer 0 p)
  end.

(** The states in which an event can happen. *)
Definition eventAllowed (e : AnimationEvent) (p : Player) : Prop :=
  match e with
  | NoEvent => True
  | DashStartsMoving => status p = DASH /\ dashPhase p = phase_start
  | DashEnds => status p = DASHEND /\ dashPhase p = phase_end
  | AttackEnds => isAttackStatus (status p) = true
  end.

(** A player with its animation clock set. *)
Definition withClock (a : AnimName) (f : Z) (t : Q) (p : Player) : Player :=
  set_frameTime t (set_animationFrame f (set_currentAnimation a p)).

(** The statuses the player's code assigns. *)
Definition isPlayerStatus (s : STATUS) : bool :=
  match s with
  | IDLE | WALK | DASH | DASHEND | JUMPSTART | JUMPDOWN
  | A1 | JUMPATTACK | FIREATTACK => true
  | _ => false
  end.

(** The dash flags agree with the status. *)
Definition dashConsistent (p : Player) : Prop :=
  match status p with
  | DASH =>
      isDashing p = true /\ canDashAgain p = false /\
      (dashPhase p = phase_start \/ dashPhase p = phase_moving)
  | DASHEND =>
      isDashing p = true /\ canDashAgain p = false /\ dashPhase p = phase_end
  | _ => isDashing p = false /\ dashPhase p = phase_none
  end.

(** The player is inside the playfield and its transform is in step. *)
Definition onScreen (p : Player) : Prop :=
  20 <= x p /\ x p <= 780 /\
  transform_position_x p = x p /\ transform_position_y p = y p.

(** The attack timer is below the limit, and at rest outside an attack. *)
Definition timerInRange (p : Player) : Prop :=
  attackTimer p < maxAttackDuration /\
  (isAttackStatus (status p) = false -> attackTimer p = 0).

(** The camera stays at or below its ceiling and in its plane. *)
Definition cameraInRange (g : Game) : Prop :=
  ScrollOffset.y (scrollOffset g) <= 80 /\
  ScrollOffset.z (scrollOffset g) = 0.

(** A status that the physics step does not leave: the end of a dash, the
    idle pose, and a DASH without a phase. *)
Definition dashLocked (p : Player) : Prop :=
  status p = DASHEND \/ status p = IDLE
  \/ (status p = DASH /\ dashPhase p = phase_none).

(** What a step keeps of the dash bookkeeping. *)
Definition dashKept (p p' : Player) : Prop :=
  dashKeyWasPressed p' = dashKeyWasPressed p /\
  canDashAgain p' = canDashAgain p /\
  (dashLocked p -> status p' = status p /\ dashPhase p' = dashPhase p).

(** A 50 ms frame with the dash button held. *)
Definition keys_Z : KeyManager := mkKeys false true false false false false.
Definition dashFrame : FrameInput := mkFrame keys_Z frame50ms 0.05.

(** Frames of 1/32 s (31.25 ms), a binary delta: with no key, with the
    basic-attack button and with the dash button. *)
Definition frame32nd : TimeManager := mkTime 0.03125.
Definition dashFrame32nd : FrameInput := mkFrame keys_Z frame32nd 0.03125.




(** [triggerDash()] with its return value. *)
Definition triggerDash (g : Game) : bool * Game :=
  if isOnGround (player g) then (true, g <~ set_status DASH)
  else (false, g).

(** One step of a fall: gravity on the vertical velocity, capped, then the
    velocity on the height. *)
Definition fallStep (dt : Q) (yv : Q * Q) : Q * Q :=
  let v := Math_min (snd yv + gravity * dt) maxFallSpeed in
  (fst yv + v * dt, v).

(** Both arrows down, without and with the dash button. *)
Definition keys_LEFT_RIGHT : KeyManager :=
  mkKeys false false true true false false.
Definition keys_Z_LEFT_RIGHT : KeyManager :=
  mkKeys false true true true false false.

(** ** The attack timer in binary64

    [attackTimer += deltaTime] adds doubles.  The attack case of the input
    pass is repeated here on Rocq's primitive floats, which are binary64
    with the rounding of the source. *)
Module Binary64.
Import PrimFloat.

Definition maxAttackDuration : float := 1.0%float.






End Binary64.

(** ** ObjectSortManager: the methods that read or change the objects

    The layers hold references; what an object is at a given moment is read
    from a store.  [updateObject] and [destroyObject] are [obj.update] and
    [obj.destroy]; they change the store and not the layers. *)
Class ObjectStore (Ref Store : Type) : Type := {
  sameObject : forall a b : Ref, {a = b} + {a <> b};
  sortIDIn : Store -> Ref -> Z;
  visibleIn : Store -> Ref -> bool;
  destroyedIn : Store -> Ref -> bool;
  activeIn : Store -> Ref -> bool;
  updateObject : Q -> Ref -> Store -> Store;
  destroyObject : Ref -> Store -> Store
}.

Section StoredObjects.

Context {Ref Store : Type} `{ObjectStore Ref Store}.

(** What the scheduler sees of the objects in store [s]. *)
Definition viewAt (s : Store) : SortedObject Ref :=
  {| getSortID := sortIDIn s; obj_visible := visibleIn s;
     isDestroyed := destroyedIn s |}.

(** [layer.indexOf(obj)]; [None] is the source's -1. *)
Fixpoint indexOf (layer : list Ref) (obj : Ref) : option nat :=
  match layer with
  | [] => None
  | o :: rest =>
      if sameObject o obj then Some O else option_map S (indexOf rest obj)
  end.

(** [layer.splice(index, 1)] *)
Fixpoint splice1 (index : nat) (layer : list Ref) : list Ref :=
  match layer, index with
  | [], _ => []
  | _ :: rest, O => rest
  | o :: rest, S j => o :: splice1 j rest
  end.

(** [this.objectLayers[i].splice(index, 1)] for an index inside the array. *)
Fixpoint splice_at (i index : nat) (layers : list (list Ref))
    : list (list Ref) :=
  match layers, i with
  | [], _ => []
  | layer :: rest, O => splice1 index layer :: rest
  | layer :: rest, S j => layer :: splice_at j index rest
  end.

(** [removeSortedObject(obj)]; [None] stands for a missing object. *)
Definition removeSortedObject (obj : option Ref) (s : Store)
    (m : ObjectSortManager Ref) : bool * ObjectSortManager Ref :=
  match obj with
  | None => (false, m)
  | Some o =>
      if negb (initialized m) then (false, m)
      else
        let sortID := sortIDIn s o in
        if (0 <=? sortID)%Z
           && (sortID <? Z.of_nat (List.length (objectLayers m)))%Z
        then
          let layer := nth (Z.to_nat sortID) (objectLayers m) [] in
          match indexOf layer o with
          | Some index =>
              (true,
               mkManager (splice_at (Z.to_nat sortID) index (objectLayers m))
                         (initialized m))
          | None => (false, m)
          end
        else (false, m)
  end.

(** The inner loop of [updateObjects], with [j] indices left to visit: the
    next object is [layer[j - 1]].  The index stays inside the layer, a
    splice removing the position just visited. *)
Fixpoint updateLayer (dt : Q) (j : nat) (layer : list Ref) (s : Store)
    : list Ref * Store :=
  match j with
  | O => (layer, s)
  | S j' =>
      match nth_error layer j' with
      | None => updateLayer dt j' layer s
      | Some obj =>
          if destroyedIn s obj then updateLayer dt j' (splice1 j' layer) s
          else if activeIn s obj
               then updateLayer dt j' layer (updateObject dt obj s)
               else updateLayer dt j' layer s
      end
  end.

(** The outer loop, from layer 0 to the highest. *)
Fixpoint updateLayers (dt : Q) (layers : list (list Ref)) (s : Store)
    : list (list Ref) * Store :=
  match layers with
  | [] => ([], s)
  | layer :: rest =>
      let (layer', s') := updateLayer dt (List.length layer) layer s in
      let (rest', s'') := updateLayers dt rest s' in
      (layer' :: rest', s'')
  end.

(** [updateObjects(deltaTime)] *)
Definition updateObjects (dt : Q) (m : ObjectSortManager Ref) (s : Store)
    : ObjectSortManager Ref * Store :=
  if negb (initialized m) then (m, s)
  else
    let (layers, s') := updateLayers dt (objectLayers m) s in
    (mkManager layers (initialized m), s').

(** [getTotalObjectCount()] *)
Definition getTotalObjectCount (m : ObjectSortManager Ref) : nat :=
  fold_left (fun count layer => (count + List.length layer)%nat)
            (objectLayers m) O.

(** [getLayerObjectCount(layerIndex)] *)
Definition getLayerObjectCount (layerIndex : Z) (m : ObjectSortManager Ref)
    : nat :=
  if (0 <=? layerIndex)%Z
     && (layerIndex <? Z.of_nat (List.length (objectLayers m)))%Z
  then List.length (nth (Z.to_nat layerIndex) (objectLayers m) [])
  else O.

(** [for (const obj of layer) obj.destroy()] *)
Definition destroyLayer (layer : list Ref) (s : Store) : Store :=
  fold_left (fun s obj => destroyObject obj s) layer s.

(** [clearAllObjects()] *)
Definition clearAllObjects (m : ObjectSortManager Ref) (s : Store)
    : ObjectSortManager Ref * Store :=
  (mkManager (map (fun _ => []) (objectLayers m)) (initialized m),
   fold_left (fun s layer => destroyLayer layer s) (objectLayers m) s).

(** [this.objectLayers[i].length = 0] for an index inside the array. *)
Fixpoint empty_at (i : nat) (layers : list (list Ref)) : list (list Ref) :=
  match layers, i with
  | [], _ => []
  | _ :: rest, O => [] :: rest
  | layer :: rest, S j => layer :: empty_at j rest
  end.

(** [clearLayer(layerIndex)] *)
Definition clearLayer (layerIndex : Z) (m : ObjectSortManager Ref)
    (s : Store) : ObjectSortManager Ref * Store :=
  if (0 <=? layerIndex)%Z
     && (layerIndex <? Z.of_nat (List.length (objectLayers m)))%Z
  then
    (mkManager (empty_at (Z.to_nat layerIndex) (objectLayers m))
               (initialized m),
     destroyLayer (nth (Z.to_nat layerIndex) (objectLayers m) []) s)
  else (m, s).

(** One visit of the sweep of [updateObjects]: a destroyed object is
    dropped, any other is kept and, when active, updated. *)
Definition visit (dt : Q) (acc : list Ref * Store) (obj : Ref)
    : list Ref * Store :=
  if destroyedIn (snd acc) obj then acc
  else (obj :: fst acc,
        if activeIn (snd acc) obj then updateObject dt obj (snd acc)
        else snd acc).

(** The update of an active object, as the sweep runs it. *)
Definition updateIfActive (dt : Q) (s : Store) (obj : Ref) : Store :=
  if activeIn s obj then updateObject dt obj s else s.

(** An object that is not destroyed in store [s]. *)
Definition alive (s : Store) (obj : Ref) : bool := negb (destroyedIn s obj).

End StoredObjects.

(** Objects numbered by naturals, for the examples: the store lists the
    destroyed objects and logs the updates in call order. *)
#[global] Instance LoggedObjects : ObjectStore nat (list nat * list nat) :=
  {| sameObject := Nat.eq_dec;
     sortIDIn := fun _ o => Z.of_nat (Nat.modulo o 20);
     visibleIn := fun _ _ => true;
     destroyedIn := fun s o => existsb (Nat.eqb o) (fst s);
     activeIn := fun _ _ => true;
     updateObject := fun _ o s => (fst s, snd s ++ [o]);
     destroyObject := fun o s => (o :: fst s, snd s) |}.

(** ** GameObject: the base animation and the collision test *)

Module GameObject.

Record Box : Type := mkBox { box_x : Q; box_y : Q; width : Q; height : Q }.

(** The fields the two methods read or write. *)
Record t : Type := mk {
  frameIndex : Z;
  frameSpeed : Q;
  frameTime : Q;
  maxFrames : Z;
  collisionBox : Box;
  collisionEnabled : bool
}.

(** The constructor's values. *)
Definition new : t := mk 0 0 0 1 (mkBox 0 0 0 0) false.

(** [updateAnimation(deltaTime)] of the base class. *)
Definition updateAnimation (dt : Q) (o : t) : t :=
  if Qle_bool (frameSpeed o) 0 || (maxFrames o <=? 1)%Z then o
  else
    let frameTime' := frameTime o + frameSpeed o * dt in
    if Qle_bool 1 frameTime'
    then mk (Z.rem (frameIndex o + 1) (maxFrames o)) (frameSpeed o) 0
            (maxFrames o) (collisionBox o) (collisionEnabled o)
    else mk (frameIndex o) (frameSpeed o) frameTime'
            (maxFrames o) (collisionBox o) (collisionEnabled o).

(** [getCollisionBox()] *)
Definition getCollisionBox (o : t) : Box := collisionBox o.

(** [checkCollision(other)] *)
Definition checkCollision (this other : t) : bool :=
  if negb (collisionEnabled this) || negb (collisionEnabled other) then false
  else
    let box1 := getCollisionBox this in
    let box2 := getCollisionBox other in
    Qlt_bool (box_x box1) (box_x box2 + width box2)
    && Qlt_bool (box_x box2) (box_x box1 + width box1)
    && Qlt_bool (box_y box1) (box_y box2 + height box2)
    && Qlt_bool (box_y box2) (box_y box1 + height box1).

End GameObject.

(** ** TimeManager, with the clock as an input *)

Module TimeMgr.

Record t : Type := mk {
  lastTime : Q;
  currentTime : Q;
  deltaTime : Q;
  frameTime : Q;
  initialized : bool
}.

(** The constructor's values. *)
Definition new : t := mk 0 0 0 0 false.

(** [initTimeMgr()], [now] being the reading of [performance.now()]. *)
Definition initTimeMgr (now : Q) (tm : t) : t :=
  mk now now (deltaTime tm) now true.

(** [setTime()], [now] being the reading of [performance.now()]. *)
Definition setTime (now : Q) (tm : t) : t :=
  if negb (initialized tm) then tm
  else
    let currentTime' := now in
    let deltaTime' := (currentTime' - lastTime tm) / 1000 in
    let lastTime' := currentTime' in
    mk lastTime' currentTime'
       (if Qlt_bool 0.05 deltaTime' then 0.05 else deltaTime')
       (frameTime tm) (initialized tm).

(** [getTime()] *)
Definition getTime (tm : t) : Q := deltaTime tm.

(** [getCurrentTime()] *)
Definition getCurrentTime (tm : t) : Q := currentTime tm.

(** [getFPS()] *)
Definition getFPS (tm : t) : Q :=
  if Qlt_bool 0 (deltaTime tm) then 1 / deltaTime tm else 0.

(** The manager after [initTimeMgr] at [start] and one [setTime] per
    reading of the clock. *)
Definition clockAfter (start : Q) (readings : list Q) : t :=
  fold_left (fun tm now => setTime now tm) readings (initTimeMgr start new).

(** The readings of a clock that never runs backwards. *)
Fixpoint monotonic (previous : Q) (readings : list Q) : Prop :=
  match readings with
  | [] => True
  | now :: rest => previous <= now /\ monotonic now rest
  end.

End TimeMgr.

(** A point strictly inside a box. *)
Definition insideBox (px py : Q) (b : GameObject.Box) : Prop :=
  GameObject.box_x b < px /\ px < GameObject.box_x b + GameObject.width b /\
  GameObject.box_y b < py /\ py < GameObject.box_y b + GameObject.height b.

(** Boxes and an animation for the examples. *)
Definition box_10_10 : GameObject.t :=
  GameObject.mk 0 0 0 1 (GameObject.mkBox 0 0 10 10) true.
Definition box_5_5 : GameObject.t :=
  GameObject.mk 0 0 0 1 (GameObject.mkBox 5 5 10 10) true.

Definition fourFrames : GameObject.t :=
  GameObject.mk 3 10 0.9 4 (GameObject.mkBox 0 0 0 0) false.

(** ** KeyManager, with the browser's events as inputs

    [keys] and [prevKeys] are Maps to booleans, kept here in insertion
    order.  The listeners that [init] registers are the functions
    [keydown], [keyup], [blur], [focus], [gamepadconnected] and
    [gamepaddisconnected]. *)
Module KeyMgr.

(** What the Maps are keyed by: the value the listeners read from
    [keyMappings].  It is a key name, or, [keyMappings] being a plain
    object, the member of [Object.prototype] that the code names. *)
Inductive Key : Type :=
  | Name (name : string)
  | Inherited (property : string).

(** Map keys are compared as values are: names by their characters, the
    members of the prototype by identity. *)
Definition Key_eqb (a b : Key) : bool :=
  match a, b with
  | Name s, Name t => String.eqb s t
  | Inherited s, Inherited t => String.eqb s t
  | _, _ => false
  end.

Definition KeyMap : Type := list (Key * bool).

(** [map.get(key)]; [None] is [undefined]. *)
Fixpoint Map_get (key : Key) (m : KeyMap) : option bool :=
  match m with
  | [] => None
  | (k, v) :: rest => if Key_eqb k key then Some v else Map_get key rest
  end.

(** [map.set(key, value)]: an existing key keeps its place. *)
Fixpoint Map_set (key : Key) (value : bool) (m : KeyMap) : KeyMap :=
  match m with
  | [] => [(key, value)]
  | (k, v) :: rest =>
      if Key_eqb k key then (k, value) :: rest
      else (k, v) :: Map_set key value rest
  end.

Record t : Type := mk {
  keys : KeyMap;
  prevKeys : KeyMap;
  initialized : bool;
  gamepadIndex : Z
}.

(** The constructor's values. *)
Definition new : t := mk [] [] false (-1).

(** The object literal of the constructor: the own properties of
    [keyMappings]. *)
Definition ownMappings : list (string * string) :=
  [ ("ArrowLeft", "LEFT"); ("ArrowRight", "RIGHT"); ("ArrowUp", "UP");
    ("ArrowDown", "DOWN");
    ("KeyZ", "Z"); ("KeyX", "X"); ("KeyC", "C"); ("KeyV", "V");
    ("KeyO", "O"); ("KeyP", "P");
    ("Space", "SPACE"); ("Enter", "ENTER"); ("Escape", "ESCAPE") ]%string.

(** The properties a plain object inherits from [Object.prototype]: ten
    methods, the [constructor] and the [__proto__] accessor.  Each reads
    as a function or an object, so as a truthy value. *)
Definition inheritedProperties : list string :=
  [ "constructor"; "hasOwnProperty"; "isPrototypeOf"; "propertyIsEnumerable";
    "toLocaleString"; "toString"; "valueOf"; "__proto__";
    "__defineGetter__"; "__defineSetter__"; "__lookupGetter__";
    "__lookupSetter__" ]%string.

Fixpoint ownProperty (code : string) (literal : list (string * string))
    : option string :=
  match literal with
  | [] => None
  | (c, name) :: rest =>
      if String.eqb c code then Some name else ownProperty code rest
  end.

(** [this.keyMappings[event.code]]: the own property when there is one,
    else what the prototype has under that name; [None] is [undefined]. *)
Definition keyMappings (code : string) : option Key :=
  match ownProperty code ownMappings with
  | Some name => Some (Name name)
  | None =>
      if existsb (String.eqb code) inheritedProperties
      then Some (Inherited code)
      else None
  end.

(** [init()] *)
Definition init (km : t) : t :=
  mk (keys km) (prevKeys km) true (gamepadIndex km).

(** The [keydown] listener: [if (key)] passes for every answer of the
    lookup, key names and inherited members alike. *)
Definition keydown (code : string) (km : t) : t :=
  match keyMappings code with
  | Some key =>
      mk (Map_set key true (keys km)) (prevKeys km) (initialized km)
         (gamepadIndex km)
  | None => km
  end.

(** The [keyup] listener. *)
Definition keyup (code : string) (km : t) : t :=
  match keyMappings code with
  | Some key =>
      mk (Map_set key false (keys km)) (prevKeys km) (initialized km)
         (gamepadIndex km)
  | None => km
  end.

(** The [blur] and [focus] listeners. *)
Definition blur (km : t) : t :=
  mk [] (prevKeys km) (initialized km) (gamepadIndex km).

Definition focus (km : t) : t :=
  mk [] (prevKeys km) (initialized km) (gamepadIndex km).

(** The [gamepadconnected] and [gamepaddisconnected] listeners. *)
Definition gamepadconnected (index : Z) (km : t) : t :=
  mk (keys km) (prevKeys km) (initialized km) index.

Definition gamepaddisconnected (km : t) : t :=
  mk (keys km) (prevKeys km) (initialized km) (-1).

(** A gamepad: the [pressed] flags of its buttons and its axes. *)
Record Gamepad : Type := mkGamepad {
  buttons : list bool;
  axes : list Q
}.

(** [gamepad.buttons[i]?.pressed || false] *)
Definition pressed (gamepad : Gamepad) (i : nat) : bool :=
  match nth_error (buttons gamepad) i with
  | Some b => b
  | None => false
  end.

(** [gamepad.axes[i] < bound] and [gamepad.axes[i] > bound], false on a
    missing axis. *)
Definition axisBelow (gamepad : Gamepad) (i : nat) (bound : Q) : bool :=
  match nth_error (axes gamepad) i with
  | Some a => Qlt_bool a bound
  | None => false
  end.

Definition axisAbove (gamepad : Gamepad) (i : nat) (bound : Q) : bool :=
  match nth_error (axes gamepad) i with
  | Some a => Qlt_bool bound a
  | None => false
  end.

(** [updateGamepad()]; [pad] is [navigator.getGamepads()[gamepadIndex]]. *)
Definition updateGamepad (pad : option Gamepad) (km : t) : t :=
  if (gamepadIndex km =? -1)%Z then km
  else
    match pad with
    | None => km
    | Some gamepad =>
        let threshold := 0.3 in
        let leftPressed :=
          pressed gamepad 14 || axisBelow gamepad 0 (- threshold) in
        let rightPressed :=
          pressed gamepad 15 || axisAbove gamepad 0 threshold in
        let upPressed :=
          pressed gamepad 12 || axisBelow gamepad 1 (- threshold) in
        let downPressed :=
          pressed gamepad 13 || axisAbove gamepad 1 threshold in
        let keys := Map_set (Name "LEFT") leftPressed (keys km) in
        let keys := Map_set (Name "RIGHT") rightPressed keys in
        let keys := Map_set (Name "UP") upPressed keys in
        let keys := Map_set (Name "DOWN") downPressed keys in
        let keys := Map_set (Name "X") (pressed gamepad 0) keys in
        let keys := Map_set (Name "Z") (pressed gamepad 1) keys in
        let keys := Map_set (Name "C") (pressed gamepad 2) keys in
        let keys := Map_set (Name "V") (pressed gamepad 3) keys in
        mk keys (prevKeys km) (initialized km) (gamepadIndex km)
    end.

(** [update()] *)
Definition update (pad : option Gamepad) (km : t) : t :=
  if negb (initialized km) then km
  else
    let prevKeys :=
      fold_left (fun prev entry => Map_set (fst entry) (snd entry) prev)
                (keys km) [] in
    updateGamepad pad
      (mk (keys km) prevKeys (initialized km) (gamepadIndex km)).

(** [isKeyDown(key)] *)
Definition isKeyDown (key : Key) (km : t) : bool :=
  match Map_get key (keys km) with
  | Some true => true
  | _ => false
  end.

(** [this.prevKeys.get(key) === true] *)
Definition wasKeyDown (key : Key) (km : t) : bool :=
  match Map_get key (prevKeys km) with
  | Some true => true
  | _ => false
  end.

(** [isKeyPressed(key)] *)
Definition isKeyPressed (key : Key) (km : t) : bool :=
  isKeyDown key km && negb (wasKeyDown key km).

(** [isKeyReleased(key)] *)
Definition isKeyReleased (key : Key) (km : t) : bool :=
  negb (isKeyDown key km) && wasKeyDown key km.

(** [isKeyUp(key)] *)
Definition isKeyUp (key : Key) (km : t) : bool := negb (isKeyDown key km).

(** [getPressedKeys()] *)
Definition getPressedKeys (km : t) : list Key :=
  map fst (filter (fun entry => snd entry) (keys km)).

(** [destroy()] *)
Definition destroy (km : t) : t := mk [] [] false (gamepadIndex km).

(** What happens to an initialised manager, one event after the other. *)
Inductive Event : Type :=
| KeyDown (code : string)
| KeyUp (code : string)
| Blur
| Focus
| GamepadConnected (index : Z)
| GamepadDisconnected
| Update (pad : option Gamepad).

Definition handle (km : t) (e : Event) : t :=
  match e with
  | KeyDown code => keydown code km
  | KeyUp code => keyup code km
  | Blur => blur km
  | Focus => focus km
  | GamepadConnected index => gamepadconnected index km
  | GamepadDisconnected => gamepaddisconnected km
  | Update pad => update pad km
  end.

Definition after (events : list Event) : t :=
  fold_left handle events (init new).

End KeyMgr.

(** A pad with its first button pressed. *)
Definition padWithA : KeyMgr.Gamepad := KeyMgr.mkGamepad [true] [].

(** * Properties *)

(** ** Comparison tests and their propositions *)

Lemma Qlt_bool_iff (a b : Q) : Qlt_bool a b = true <-> a < b.
Proof.
  unfold Qlt_bool. rewrite negb_true_iff. split.
  - intros E. apply Qnot_le_lt. intros L.
    apply Qle_bool_iff in L. congruence.
  - intros L. destruct (Qle_bool b a) eqn:E; [|reflexivity].
    apply Qle_bool_iff in E. exfalso. exact (Qlt_not_le _ _ L E).
Qed.

Lemma Qlt_bool_false_iff (a b : Q) : Qlt_bool a b = false <-> b <= a.
Proof.
  unfold Qlt_bool. rewrite negb_false_iff. apply Qle_bool_iff.
Qed.

Lemma Qle_bool_false_iff (a b : Q) : Qle_bool a b = false <-> b < a.
Proof.
  rewrite <- Qlt_bool_iff. unfold Qlt_bool.
  destruct (Qle_bool a b); simpl; intuition congruence.
Qed.

Lemma Qle_bool_true (a b : Q) : a <= b -> Qle_bool a b = true.
Proof. apply Qle_bool_iff. Qed.


(** ** Symbolic execution of the methods *)

(** Evaluate the code, leaving arithmetic on rationals untouched. *)
Ltac run_code :=
  cbv beta iota zeta delta
    -[Qle_bool Qlt_bool Qplus Qmult Qminus Qopp Qdiv Qinv Qeq Qle Qlt
      Qfloor inject_Z Z.rem Z.leb Math_min
      maxYPosition speed highSpeed jumpPower gravity maxFallSpeed
      dashDistance dashSpeed dashEasing_startAcceleration
      dashEasing_endDeceleration maxAttackDuration superJumpVelocityX
      superJumpMultiplier dashEasingFactor app].

(** Name the fields of a player. *)
Ltac destruct_player p :=
  destruct p as [sid vis act des tpx tpy st dir ps px py ang vx vy og cj jk
                 dk dsh dprog dph cda ddir atk sj anim af ft ce gr jfs jfd].

(** A test whose operands are known is the next branch point. *)
Ltac split_test :=
  match goal with
  | |- context [if ?v then _ else _] => is_var v; destruct v
  | |- context [Qle_bool ?a ?b] => destruct (Qle_bool a b) eqn:?
  | |- context [Qlt_bool ?a ?b] => destruct (Qlt_bool a b) eqn:?
  end.

(** A [match] on an enumerated field that is still a variable. *)
Ltac split_enum :=
  match goal with
  | |- context [match ?v with ATTACKED => _ | _ => _ end] =>
      is_var v; destruct v
  | |- context [match ?v with LEFT => _ | _ => _ end] => is_var v; destruct v
  | |- context [match ?v with GROUND => _ | _ => _ end] =>
      is_var v; destruct v
  | |- context [match ?v with phase_none => _ | _ => _ end] =>
      is_var v; destruct v
  | |- context [match ?v with anim_IDLE => _ | _ => _ end] =>
      is_var v; destruct v
  end.

Ltac exec := run_code; repeat (first [split_test | split_enum]; run_code).

(** Turn the recorded outcomes of the tests into inequalities. *)
Ltac tests_to_props :=
  repeat match goal with
  | H : Qle_bool _ _ = true |- _ => apply Qle_bool_iff in H
  | H : Qle_bool _ _ = false |- _ => apply Qle_bool_false_iff in H
  | H : Qlt_bool _ _ = true |- _ => apply Qlt_bool_iff in H
  | H : Qlt_bool _ _ = false |- _ => apply Qlt_bool_false_iff in H
  end.

(** ** Statement-level evaluation

    [steps] runs the statements of a method on a symbolic state.  The
    tests of the conditionals are kept as written; a test that evaluates
    to a constant is decided, any other is branched on as a whole, and its
    outcome stays in the context. *)

Ltac run_stmts :=
  cbv beta iota zeta delta
    -[Qle_bool Qlt_bool Qplus Qmult Qminus Qopp Qdiv Qinv Qeq Qle Qlt
      Qfloor inject_Z Z.rem Z.leb Math_min
      maxYPosition speed highSpeed jumpPower gravity maxFallSpeed
      dashDistance dashSpeed dashEasing_startAcceleration
      dashEasing_endDeceleration maxAttackDuration superJumpVelocityX
      superJumpMultiplier dashEasingFactor app
      andb orb negb STATUS_beq DIRECTION_beq POS_STATION_beq DashPhase_beq
      AnimName_beq isAttacking isAttackStatus targetAnimation animations
      handleWalking handleAirMovement].

Ltac branch_test :=
  match goal with
  | |- context [if ?c then _ else _] =>
      let c' := eval cbv beta iota zeta delta
                  -[Qle_bool Qlt_bool Qplus Qmult Qminus Qopp Qdiv Qinv
                    Qfloor inject_Z Z.rem Z.leb Math_min
                    maxYPosition speed highSpeed jumpPower gravity
                    maxFallSpeed dashDistance dashSpeed
                    dashEasing_startAcceleration dashEasing_endDeceleration
                    maxAttackDuration superJumpVelocityX superJumpMultiplier
                    dashEasingFactor targetAnimation animations
                    handleWalking handleAirMovement] in c in
      first [ lazymatch c' with true => idtac | false => idtac end;
              change c with c'
            | destruct c eqn:? ]
  end.

Ltac steps := run_stmts; repeat (first [split_enum | branch_test]; run_stmts).

(** Run the one call [t] of the goal, sharing its result. *)
Ltac steps_on t :=
  let r := fresh "r" in
  let E := fresh "E" in
  remember t as r eqn:E; revert E; steps; intros E; subst r; run_stmts.

Ltac run_code_in H :=
  cbv beta iota zeta delta
    -[Qle_bool Qlt_bool Qplus Qmult Qminus Qopp Qdiv Qinv Qeq Qle Qlt
      Qfloor inject_Z Z.rem Z.leb Math_min
      maxYPosition speed highSpeed jumpPower gravity maxFallSpeed
      dashDistance dashSpeed dashEasing_startAcceleration
      dashEasing_endDeceleration maxAttackDuration superJumpVelocityX
      superJumpMultiplier dashEasingFactor app] in H.

(** The recorded outcome of a test, evaluated. *)
Ltac decide_tests :=
  repeat match goal with
  | H : _ = true |- _ => progress (run_code_in H)
  | H : _ = false |- _ => progress (run_code_in H)
  end;
  try discriminate.

(** Case analysis on what an evaluated test still depends on. *)
Ltac refute_tests :=
  repeat match goal with
  | H : context [if ?v then _ else _] |- _ =>
      is_var v; destruct v; try discriminate
  | H : context [Qle_bool ?a ?b] |- _ =>
      destruct (Qle_bool a b); try discriminate
  | H : context [Qlt_bool ?a ?b] |- _ =>
      destruct (Qlt_bool a b); try discriminate
  end.

Ltac leaf :=
  intros; repeat split; intros;
  repeat match goal with H : _ \/ _ |- _ => destruct H end;
  subst; try reflexivity; try discriminate; try congruence;
  try (repeat match goal with s : STATUS |- _ => destruct s end;
       decide_tests; try reflexivity; try discriminate; try congruence;
       refute_tests).

Ltac stage_player p := destruct_player p; unfold untouched; steps; leaf.

Ltac stage_game g :=
  let p := fresh "p" in
  destruct g as [p sc pl]; stage_player p.

(** ** Stage lemmas: what each part of a frame leaves alone *)

Lemma strict_Player_eq (A : Type) (p : Player) (k : Player -> A) :
  strict p k = k p.
Proof. destruct p; reflexivity. Qed.

Lemma strict_Game_eq (A : Type) (g : Game) (k : Game -> A) :
  strict g k = k g.
Proof. destruct g as [p sc pl]; destruct p; reflexivity. Qed.

Lemma untouched_refl (p : Player) : untouched p p.
Proof. unfold untouched; repeat split. Qed.

Lemma untouched_trans (p q r : Player) :
  untouched p q -> untouched q r -> untouched p r.
Proof. unfold untouched; intuition congruence. Qed.

Lemma updateScroll_player (d : Q) (g : Game) :
  player (updateScroll d g) = player g.
Proof. stage_game g. Qed.

Lemma handleWalking_frame (l r : bool) (dt : Q) (g : Game) :
  isControlEnabled (player (handleWalking l r dt g))
    = isControlEnabled (player g) /\
  destroyed (player (handleWalking l r dt g)) = destroyed (player g) /\
  active (player (handleWalking l r dt g)) = active (player g) /\
  jumpKeyWasPressed (player (handleWalking l r dt g))
    = jumpKeyWasPressed (player g) /\
  velocityY (player (handleWalking l r dt g)) = velocityY (player g) /\
  (status (player (handleWalking l r dt g)) = JUMPSTART ->
     status (player g) = JUMPSTART).
Proof. unfold handleWalking. stage_game g. Qed.

Lemma handleAirMovement_frame (l r : bool) (dt : Q) (g : Game) :
  untouched (player g) (player (handleAirMovement l r dt g)).
Proof. unfold handleAirMovement. stage_game g. Qed.

Lemma groundDetection_frame (g : Game) :
  untouched (player g) (player (groundDetection g)) /\
  isOnGround (player (groundDetection g))
    = Qle_bool maxYPosition (y (player g)).
Proof. stage_game g; assumption. Qed.

Lemma resetKeyTracking_frame (kx kz : bool) (p : Player) :
  isControlEnabled (resetKeyTracking kx kz p) = isControlEnabled p /\
  destroyed (resetKeyTracking kx kz p) = destroyed p /\
  active (resetKeyTracking kx kz p) = active p /\
  attackTimer (resetKeyTracking kx kz p) = attackTimer p /\
  velocityY (resetKeyTracking kx kz p) = velocityY p /\
  status (resetKeyTracking kx kz p) = status p /\
  y (resetKeyTracking kx kz p) = y p /\
  isOnGround (resetKeyTracking kx kz p) = isOnGround p /\
  (kx = true ->
     jumpKeyWasPressed (resetKeyTracking kx kz p) = jumpKeyWasPressed p).
Proof. stage_player p. Qed.

Lemma safetyResets_frame (kx kz kl kr : bool) (p : Player) :
  isControlEnabled (safetyResets kx kz kl kr p) = isControlEnabled p /\
  destroyed (safetyResets kx kz kl kr p) = destroyed p /\
  active (safetyResets kx kz kl kr p) = active p /\
  attackTimer (safetyResets kx kz kl kr p) = attackTimer p /\
  velocityY (safetyResets kx kz kl kr p) = velocityY p /\
  (kx = true ->
     jumpKeyWasPressed (safetyResets kx kz kl kr p) = jumpKeyWasPressed p) /\
  (status (safetyResets kx kz kl kr p) = JUMPSTART -> status p = JUMPSTART) /\
  (isAttackStatus (status p) = true \/ status p = IDLE
   \/ isOnGround p = false ->
     status (safetyResets kx kz kl kr p) = status p).
Proof. stage_player p. Qed.

Lemma applyGravity_frame (dt : Q) (p : Player) :
  isControlEnabled (applyGravity dt p) = isControlEnabled p /\
  destroyed (applyGravity dt p) = destroyed p /\
  active (applyGravity dt p) = active p /\
  attackTimer (applyGravity dt p) = attackTimer p /\
  jumpKeyWasPressed (applyGravity dt p) = jumpKeyWasPressed p /\
  status (applyGravity dt p) = status p /\
  y (applyGravity dt p) = y p /\
  velocityY (applyGravity dt p)
    = (if isOnGround p then velocityY p
       else Math_min (velocityY p + gravity * dt) maxFallSpeed).
Proof.
  destruct_player p; destruct og; steps; repeat split;
    unfold Math_min; unfold Qlt_bool in *;
    destruct (Qle_bool (vy + gravity * dt) maxFallSpeed);
    try reflexivity; discriminate.
Qed.

Lemma superJumpPhysics_frame (dt : Q) (g : Game) :
  untouched (player g) (player (superJumpPhysics dt g)).
Proof. stage_game g. Qed.

Lemma statePhysics_frame (km : KeyManager) (dt : Q) (g : Game) :
  isControlEnabled (player (statePhysics km dt g))
    = isControlEnabled (player g) /\
  destroyed (player (statePhysics km dt g)) = destroyed (player g) /\
  active (player (statePhysics km dt g)) = active (player g) /\
  attackTimer (player (statePhysics km dt g)) = attackTimer (player g) /\
  jumpKeyWasPressed (player (statePhysics km dt g))
    = jumpKeyWasPressed (player g) /\
  velocityY (player (statePhysics km dt g)) = velocityY (player g) /\
  y (player (statePhysics km dt g)) = y (player g) /\
  (status (player g) <> DASH ->
     status (player (statePhysics km dt g)) = status (player g)) /\
  (status (player (statePhysics km dt g)) = JUMPSTART ->
     status (player g) = JUMPSTART).
Proof. destruct km. stage_game g. Qed.

Lemma groundCollision_frame (p : Player) :
  isControlEnabled (groundCollision p) = isControlEnabled p /\
  destroyed (groundCollision p) = destroyed p /\
  active (groundCollision p) = active p /\
  attackTimer (groundCollision p) = attackTimer p /\
  jumpKeyWasPressed (groundCollision p) = jumpKeyWasPressed p /\
  velocityY (groundCollision p)
    = (if Qle_bool maxYPosition (y p) then 0 else velocityY p) /\
  (isAttackStatus (status p) = true \/ status p = IDLE ->
     status (groundCollision p) = status p) /\
  (status (groundCollision p) = JUMPSTART -> status p = JUMPSTART).
Proof.
  destruct_player p; steps;
    try (match goal with H : Qle_bool _ _ = _ |- _ => rewrite H end);
    leaf.
Qed.

Lemma screenBoundaries_frame (p : Player) : untouched p (screenBoundaries p).
Proof. stage_player p. Qed.

Lemma updateAnimation_frame (km : KeyManager) (dt : Q) (p : Player) :
  isControlEnabled (updateAnimation km dt p) = isControlEnabled p /\
  destroyed (updateAnimation km dt p) = destroyed p /\
  active (updateAnimation km dt p) = active p /\
  jumpKeyWasPressed (updateAnimation km dt p) = jumpKeyWasPressed p /\
  velocityY (updateAnimation km dt p) = velocityY p /\
  (status (updateAnimation km dt p) = JUMPSTART -> status p = JUMPSTART).
Proof. destruct km. stage_player p. Qed.

(** ** Stage lemmas: the state machine *)

Ltac run_stmts_in H :=
  cbv beta iota zeta delta
    -[Qle_bool Qlt_bool Qplus Qmult Qminus Qopp Qdiv Qinv Qeq Qle Qlt
      Qfloor inject_Z Z.rem Z.leb Math_min
      maxYPosition speed highSpeed jumpPower gravity maxFallSpeed
      dashDistance dashSpeed dashEasing_startAcceleration
      dashEasing_endDeceleration maxAttackDuration superJumpVelocityX
      superJumpMultiplier dashEasingFactor app
      andb orb negb STATUS_beq DIRECTION_beq POS_STATION_beq DashPhase_beq
      AnimName_beq isAttacking isAttackStatus targetAnimation animations
      handleWalking handleAirMovement] in H.

(** Replace the calls of the two movement helpers by what their lemmas
    say of the result. *)
Ltac movement_helpers :=
  repeat match goal with
  | |- context [handleWalking ?l ?r ?d ?g] =>
      let H := fresh "HW" in
      pose proof (handleWalking_frame l r d g) as H; run_stmts_in H;
      generalize dependent (handleWalking l r d g); intros
  | |- context [handleAirMovement ?l ?r ?d ?g] =>
      let H := fresh "HA" in
      pose proof (handleAirMovement_frame l r d g) as H;
      unfold untouched in H; run_stmts_in H;
      generalize dependent (handleAirMovement l r d g); intros
  end;
  repeat match goal with H : _ /\ _ |- _ => destruct H end.

Lemma stateMachine_frame (cosT : Q -> Q) (km : KeyManager) (dt : Q)
    (g : Game) :
  isControlEnabled (player (flowGame (stateMachine cosT km dt g)))
    = isControlEnabled (player g) /\
  destroyed (player (flowGame (stateMachine cosT km dt g)))
    = destroyed (player g) /\
  active (player (flowGame (stateMachine cosT km dt g)))
    = active (player g) /\
  (velocityY (player (flowGame (stateMachine cosT km dt g)))
     = velocityY (player g) \/
   velocityY (player (flowGame (stateMachine cosT km dt g)))
     = - jumpPower * 10 * superJumpMultiplier \/
   velocityY (player (flowGame (stateMachine cosT km dt g)))
     = - jumpPower * 10).
Proof.
  destruct km as [kx kz kl kr kc kv], g as [p sc pl]; destruct_player p.
  match goal with |- context [stateMachine ?c ?k ?d ?g] =>
    steps_on (stateMachine c k d g) end;
    movement_helpers; repeat split; try congruence; auto.
Qed.

Lemma stateMachine_held (cosT : Q -> Q) (km : KeyManager) (dt : Q)
    (g : Game) :
  isKeyDown km KEY_X = true ->
  jumpKeyWasPressed (player g) = true ->
  jumpKeyWasPressed (player (flowGame (stateMachine cosT km dt g))) = true /\
  (status (player (flowGame (stateMachine cosT km dt g))) = JUMPSTART ->
     status (player g) = JUMPSTART).
Proof.
  destruct km as [kx kz kl kr kc kv], g as [p sc pl]; destruct_player p.
  simpl. intros HX HJ; subst.
  match goal with |- context [stateMachine ?c ?k ?d ?g] =>
    steps_on (stateMachine c k d g) end;
    movement_helpers; repeat split; try congruence; auto;
    try discriminate; decide_tests; refute_tests.
Qed.


(** ** The input pass and the physics step as compositions of stages *)

Lemma player_with_player (f : Player -> Player) (g : Game) :
  player (g <~ f) = f (player g).
Proof. reflexivity. Qed.

Lemma checkInput_disabled (cosT : Q -> Q) km tm g :
  isControlEnabled (player g) = false -> checkInput cosT km tm g = g.
Proof. intros HC. unfold checkInput. rewrite HC. reflexivity. Qed.

Lemma checkInput_stages (cosT : Q -> Q) km tm g :
  isControlEnabled (player g) = true ->
  checkInput cosT km tm g =
  match stateMachine cosT km (getTime tm)
          (groundDetection g
           <~ resetKeyTracking (isKeyDown km KEY_X) (isKeyDown km KEY_Z)) with
  | Return g' => g'
  | Break g' =>
      g' <~ safetyResets (isKeyDown km KEY_X) (isKeyDown km KEY_Z)
              (isKeyDown km KEY_LEFT) (isKeyDown km KEY_RIGHT)
  end.
Proof.
  intros HC. unfold checkInput. rewrite HC. cbn [negb].
  rewrite !strict_Game_eq. reflexivity.
Qed.

Lemma updatePhysics_stages km dt g :
  updatePhysics km dt g =
  statePhysics km dt (superJumpPhysics dt (g <~ applyGravity dt))
    <~ (fun p => set_x (x p + velocityX p * dt) p)
    <~ (fun p => set_y (y p + velocityY p * dt) p)
    <~ groundCollision <~ screenBoundaries
    <~ (fun p => set_transform_position_x (x p) p)
    <~ (fun p => set_transform_position_y (y p) p).
Proof.
  unfold updatePhysics. rewrite !strict_Game_eq. reflexivity.
Qed.

Lemma integrate_frame (dt : Q) (p : Player) :
  isControlEnabled (set_y (y (set_x (x p + velocityX p * dt) p)
                           + velocityY (set_x (x p + velocityX p * dt) p) * dt)
                      (set_x (x p + velocityX p * dt) p))
    = isControlEnabled p /\
  destroyed (set_y (y (set_x (x p + velocityX p * dt) p)
                    + velocityY (set_x (x p + velocityX p * dt) p) * dt)
               (set_x (x p + velocityX p * dt) p))
    = destroyed p /\
  active (set_y (y (set_x (x p + velocityX p * dt) p)
                 + velocityY (set_x (x p + velocityX p * dt) p) * dt)
            (set_x (x p + velocityX p * dt) p))
    = active p /\
  attackTimer (set_y (y (set_x (x p + velocityX p * dt) p)
                      + velocityY (set_x (x p + velocityX p * dt) p) * dt)
                 (set_x (x p + velocityX p * dt) p))
    = attackTimer p /\
  jumpKeyWasPressed (set_y (y (set_x (x p + velocityX p * dt) p)
                            + velocityY (set_x (x p + velocityX p * dt) p) * dt)
                       (set_x (x p + velocityX p * dt) p))
    = jumpKeyWasPressed p /\
  velocityY (set_y (y (set_x (x p + velocityX p * dt) p)
                    + velocityY (set_x (x p + velocityX p * dt) p) * dt)
               (set_x (x p + velocityX p * dt) p))
    = velocityY p /\
  status (set_y (y (set_x (x p + velocityX p * dt) p)
                 + velocityY (set_x (x p + velocityX p * dt) p) * dt)
            (set_x (x p + velocityX p * dt) p))
    = status p /\
  y (set_y (y (set_x (x p + velocityX p * dt) p)
            + velocityY (set_x (x p + velocityX p * dt) p) * dt)
       (set_x (x p + velocityX p * dt) p))
    = y p + velocityY p * dt.
Proof. destruct p; repeat split. Qed.

Lemma transform_frame (p : Player) :
  untouched p
    (set_transform_position_y (y (set_transform_position_x (x p) p))
       (set_transform_position_x (x p) p)).
Proof. destruct p; unfold untouched; repeat split. Qed.

(** ** What a whole input pass and a whole physics step leave alone *)

(** Chain the equations of the stages. *)
Ltac chain :=
  repeat match goal with H : _ /\ _ |- _ => destruct H end;
  repeat match goal with H : _ \/ _ |- _ => destruct H end;
  repeat split;
  first [ congruence | left; congruence | right; left; congruence
        | right; right; congruence ].

Lemma checkInput_frame (cosT : Q -> Q) km tm g :
  isControlEnabled (player (checkInput cosT km tm g))
    = isControlEnabled (player g) /\
  destroyed (player (checkInput cosT km tm g)) = destroyed (player g) /\
  active (player (checkInput cosT km tm g)) = active (player g) /\
  (velocityY (player (checkInput cosT km tm g)) = velocityY (player g) \/
   velocityY (player (checkInput cosT km tm g))
     = - jumpPower * 10 * superJumpMultiplier \/
   velocityY (player (checkInput cosT km tm g)) = - jumpPower * 10).
Proof.
  destruct (isControlEnabled (player g)) eqn:HC;
    [| rewrite checkInput_disabled by assumption; auto ].
  rewrite (checkInput_stages cosT km tm g HC).
  destruct (groundDetection_frame g) as [U _]; unfold untouched in U.
  pose proof (resetKeyTracking_frame (isKeyDown km KEY_X) (isKeyDown km KEY_Z)
                (player (groundDetection g))) as R.
  pose proof (stateMachine_frame cosT km (getTime tm)
                (groundDetection g
                 <~ resetKeyTracking (isKeyDown km KEY_X) (isKeyDown km KEY_Z)))
    as S.
  rewrite player_with_player in S.
  destruct (stateMachine cosT km (getTime tm) _) as [g'|g'];
    cbn [flowGame] in S.
  - chain.
  - rewrite player_with_player.
    pose proof (safetyResets_frame (isKeyDown km KEY_X) (isKeyDown km KEY_Z)
                  (isKeyDown km KEY_LEFT) (isKeyDown km KEY_RIGHT) (player g'))
      as F.
    chain.
Qed.

Lemma checkInput_held (cosT : Q -> Q) km tm g :
  isKeyDown km KEY_X = true ->
  jumpKeyWasPressed (player g) = true ->
  jumpKeyWasPressed (player (checkInput cosT km tm g)) = true /\
  (status (player (checkInput cosT km tm g)) = JUMPSTART ->
     status (player g) = JUMPSTART).
Proof.
  intros HX HJ.
  destruct (isControlEnabled (player g)) eqn:HC;
    [| rewrite checkInput_disabled by assumption; auto ].
  rewrite (checkInput_stages cosT km tm g HC).
  destruct (groundDetection_frame g) as [U _]; unfold untouched in U.
  pose proof (resetKeyTracking_frame (isKeyDown km KEY_X) (isKeyDown km KEY_Z)
                (player (groundDetection g))) as R.
  assert (J1 : jumpKeyWasPressed
                 (resetKeyTracking (isKeyDown km KEY_X) (isKeyDown km KEY_Z)
                    (player (groundDetection g))) = true).
  { destruct R as (_ & _ & _ & _ & _ & _ & _ & _ & R). rewrite (R HX).
    destruct U as (_ & _ & _ & _ & U & _). congruence. }
  assert (S1 : status
                 (resetKeyTracking (isKeyDown km KEY_X) (isKeyDown km KEY_Z)
                    (player (groundDetection g))) = status (player g)).
  { destruct R as (_ & _ & _ & _ & _ & R & _).
    destruct U as (_ & _ & _ & _ & _ & _ & U & _). congruence. }
  destruct (stateMachine_held cosT km (getTime tm)
              (groundDetection g
               <~ resetKeyTracking (isKeyDown km KEY_X) (isKeyDown km KEY_Z))
              HX J1) as [SJ SS].
  rewrite player_with_player, S1 in SS.
  destruct (stateMachine cosT km (getTime tm) _) as [g'|g'];
    cbn [flowGame] in SJ, SS.
  - split; assumption.
  - rewrite player_with_player.
    destruct (safetyResets_frame (isKeyDown km KEY_X) (isKeyDown km KEY_Z)
                (isKeyDown km KEY_LEFT) (isKeyDown km KEY_RIGHT) (player g'))
      as (_ & _ & _ & _ & _ & FJ & FS & _).
    split; [ rewrite (FJ HX); exact SJ | intros E; exact (SS (FS E)) ].
Qed.


Lemma updatePhysics_frame (km : KeyManager) (dt : Q) (g : Game) :
  isControlEnabled (player (updatePhysics km dt g))
    = isControlEnabled (player g) /\
  destroyed (player (updatePhysics km dt g)) = destroyed (player g) /\
  active (player (updatePhysics km dt g)) = active (player g) /\
  attackTimer (player (updatePhysics km dt g)) = attackTimer (player g) /\
  jumpKeyWasPressed (player (updatePhysics km dt g))
    = jumpKeyWasPressed (player g) /\
  (status (player (updatePhysics km dt g)) = JUMPSTART ->
     status (player g) = JUMPSTART) /\
  (isAttackStatus (status (player g)) = true \/ status (player g) = IDLE ->
     status (player (updatePhysics km dt g)) = status (player g)) /\
  velocityY (player (updatePhysics km dt g))
    = (if Qle_bool maxYPosition
            (y (player g)
             + (if isOnGround (player g) then velocityY (player g)
                else Math_min (velocityY (player g) + gravity * dt)
                       maxFallSpeed) * dt)
       then 0
       else if isOnGround (player g) then velocityY (player g)
            else Math_min (velocityY (player g) + gravity * dt) maxFallSpeed).
Proof.
  rewrite updatePhysics_stages. rewrite !player_with_player. cbv beta.
  pose proof (applyGravity_frame dt (player g)) as G1.
  pose proof (superJumpPhysics_frame dt (g <~ applyGravity dt)) as G2.
  unfold untouched in G2. rewrite player_with_player in G2.
  pose proof (statePhysics_frame km dt
                (superJumpPhysics dt (g <~ applyGravity dt))) as G3.
  set (p3 := player (statePhysics km dt
                       (superJumpPhysics dt (g <~ applyGravity dt)))) in *.
  pose proof (integrate_frame dt p3) as G4.
  set (p4 := set_y _ _) in *.
  pose proof (groundCollision_frame p4) as G5.
  pose proof (screenBoundaries_frame (groundCollision p4)) as G6.
  unfold untouched in G6.
  pose proof (transform_frame (screenBoundaries (groundCollision p4))) as G7.
  unfold untouched in G7.
  set (p7 := set_transform_position_y _ _) in *.
  destruct G1 as (GA1 & GA2 & GA3 & GA4 & GA5 & GA6 & GA7 & GA8).
  destruct G2 as (B1 & B2 & B3 & B4 & B5 & B6 & B7 & B8).
  destruct G3 as (C1 & C2 & C3 & C4 & C5 & C6 & C7 & C8 & C9).
  destruct G4 as (D1 & D2 & D3 & D4 & D5 & D6 & D7 & D8).
  destruct G5 as (E1 & E2 & E3 & E4 & E5 & E6 & E7 & E8).
  destruct G6 as (F1 & F2 & F3 & F4 & F5 & F6 & F7 & F8).
  destruct G7 as (H1 & H2 & H3 & H4 & H5 & H6 & H7 & H8).
  assert (S3 : status p3 = JUMPSTART -> status (player g) = JUMPSTART)
    by (intros E; specialize (C9 E); congruence).
  repeat split; try congruence.
  - intros E. apply S3. rewrite <- D7. apply E8. congruence.
  - intros HA.
    assert (E3' : status p3 = status (player g)).
    { rewrite C8; [congruence|].
      rewrite B7, GA6. destruct HA as [HA|HA];
        [ destruct (status (player g)); discriminate | congruence ]. }
    rewrite H7, F7, E7; [ congruence | ].
    rewrite D7, E3'. exact HA.
  - rewrite H6, F6, E6, D8, D6, C7, C6, B8, B6, GA7, GA8. reflexivity.
Qed.

(** ** The whole frame *)

Lemma STATUS_beq_eq (a b : STATUS) : STATUS_beq a b = true <-> a = b.
Proof. destruct a, b; cbv; split; congruence. Qed.

Lemma Math_min_le_r (a b : Q) : Math_min a b <= b.
Proof.
  unfold Math_min. destruct (Qle_bool a b) eqn:E.
  - apply Qle_bool_iff. exact E.
  - apply Qle_refl.
Qed.

Lemma maxFallSpeed_nonneg : 0 <= maxFallSpeed.
Proof. apply Qle_bool_iff. reflexivity. Qed.

Lemma frameKept_trans (p q r : Player) :
  frameKept p q -> frameKept q r -> frameKept p r.
Proof.
  unfold frameKept.
  intros (P1 & P2 & P3 & P4 & P5 & P6) (Q1 & Q2 & Q3 & Q4 & Q5 & Q6).
  repeat split; try congruence; auto.
Qed.

Lemma untouched_frameKept (p q : Player) : untouched p q -> frameKept p q.
Proof.
  unfold untouched, frameKept.
  intros (P1 & P2 & P3 & P4 & P5 & P6 & P7 & P8).
  repeat split; congruence.
Qed.

(** The physics step never leaves [velocityY] above [maxFallSpeed] when it
    was not above it on entry, or when gravity applied. *)
Lemma updatePhysics_velocityY_le (km : KeyManager) (dt : Q) (g : Game) :
  velocityY (player g) <= maxFallSpeed \/ isOnGround (player g) = false ->
  velocityY (player (updatePhysics km dt g)) <= maxFallSpeed.
Proof.
  intros H.
  destruct (updatePhysics_frame km dt g) as (_ & _ & _ & _ & _ & _ & _ & V).
  rewrite V.
  destruct (Qle_bool maxYPosition _); [ apply maxFallSpeed_nonneg | ].
  destruct (isOnGround (player g)).
  - destruct H as [H|H]; [ exact H | discriminate H ].
  - apply Math_min_le_r.
Qed.

Lemma updatePhysics_kept (km : KeyManager) (dt : Q) (g : Game) :
  frameKept (player g) (player (updatePhysics km dt g)).
Proof.
  destruct (updatePhysics_frame km dt g)
    as (P1 & P2 & P3 & _ & P5 & P6 & _ & _).
  unfold frameKept. repeat split; try assumption.
  intros L. apply updatePhysics_velocityY_le. left. exact L.
Qed.

Lemma updateAnimation_kept (km : KeyManager) (dt : Q) (p : Player) :
  frameKept p (updateAnimation km dt p).
Proof.
  destruct (updateAnimation_frame km dt p) as (P1 & P2 & P3 & P4 & P5 & P6).
  unfold frameKept. repeat split; try assumption.
  intros L. rewrite P5. exact L.
Qed.

Lemma GameObject_update_kept (km : KeyManager) (dt : Q) (g : Game) :
  frameKept (player g) (player (GameObject_update km dt g)).
Proof.
  unfold GameObject_update.
  destruct (negb (active (player g)) || destroyed (player g)).
  - apply untouched_frameKept, untouched_refl.
  - rewrite strict_Game_eq.
    eapply frameKept_trans; [ | apply updatePhysics_kept ].
    rewrite player_with_player. apply updateAnimation_kept.
Qed.

(** [update] on a destroyed player returns at once. *)
Lemma update_destroyed (cosT : Q -> Q) km tm dt g :
  destroyed (player g) = true -> update cosT km tm dt g = g.
Proof. intros HD. unfold update. rewrite HD. reflexivity. Qed.

Lemma update_stages (cosT : Q -> Q) km tm dt g :
  destroyed (player g) = false ->
  update cosT km tm dt g =
  GameObject_update km dt
    (updatePhysics km dt
       (if isControlEnabled (player g) then checkInput cosT km tm g else g)
     <~ updateAnimation km dt
     <~ (fun p => set_transform_position_x (x p) p)
     <~ (fun p => set_transform_position_y (y p) p)).
Proof.
  intros HD. unfold update. rewrite HD. rewrite !strict_Game_eq. reflexivity.
Qed.

(** After the input pass, the rest of [update] keeps the player in the
    sense of [frameKept]. *)
Lemma update_kept (cosT : Q -> Q) km tm dt g :
  destroyed (player g) = false ->
  frameKept
    (player (if isControlEnabled (player g) then checkInput cosT km tm g
             else g))
    (player (update cosT km tm dt g)).
Proof.
  intros HD. rewrite (update_stages cosT km tm dt g HD).
  set (g0 := if isControlEnabled (player g) then checkInput cosT km tm g
             else g).
  eapply frameKept_trans; [ | apply GameObject_update_kept ].
  rewrite !player_with_player. cbv beta.
  eapply frameKept_trans; [ apply updatePhysics_kept | ].
  eapply frameKept_trans; [ apply updateAnimation_kept | ].
  apply untouched_frameKept, transform_frame.
Qed.

Lemma update_alive (cosT : Q -> Q) km tm dt g :
  isControlEnabled (player (update cosT km tm dt g))
    = isControlEnabled (player g) /\
  destroyed (player (update cosT km tm dt g)) = destroyed (player g).
Proof.
  destruct (destroyed (player g)) eqn:HD.
  - rewrite update_destroyed by assumption. auto.
  - destruct (update_kept cosT km tm dt g HD) as (K1 & K2 & _).
    rewrite K1, K2.
    destruct (isControlEnabled (player g)) eqn:HC.
    + destruct (checkInput_frame cosT km tm g) as (C1 & C2 & _).
      split; congruence.
    + split; congruence.
Qed.

Lemma update_held (cosT : Q -> Q) km tm dt g :
  isKeyDown km KEY_X = true ->
  jumpKeyWasPressed (player g) = true ->
  jumpKeyWasPressed (player (update cosT km tm dt g)) = true.
Proof.
  intros HX HJ.
  destruct (destroyed (player g)) eqn:HD.
  - rewrite update_destroyed by assumption. exact HJ.
  - destruct (update_kept cosT km tm dt g HD) as (_ & _ & _ & K & _).
    rewrite K.
    destruct (isControlEnabled (player g)).
    + apply (checkInput_held cosT km tm g HX HJ).
    + exact HJ.
Qed.

Lemma update_velocityY_le (cosT : Q -> Q) km tm dt g :
  velocityY (player g) <= maxFallSpeed ->
  velocityY (player (update cosT km tm dt g)) <= maxFallSpeed.
Proof.
  intros L.
  destruct (destroyed (player g)) eqn:HD.
  - rewrite update_destroyed by assumption. exact L.
  - destruct (update_kept cosT km tm dt g HD) as (_ & _ & _ & _ & _ & K).
    apply K.
    destruct (isControlEnabled (player g)); [ | exact L ].
    destruct (checkInput_frame cosT km tm g) as (_ & _ & _ & [V|[V|V]]);
      rewrite V; [ exact L | | ]; apply Qle_bool_iff; reflexivity.
Qed.

(** ** Attacks started on the ground stay on the ground *)

Lemma safetyResets_position (kx kz kl kr : bool) (p : Player) :
  y (safetyResets kx kz kl kr p) = y p /\
  isOnGround (safetyResets kx kz kl kr p) = isOnGround p /\
  (isGroundAttack (status (safetyResets kx kz kl kr p)) = true ->
     status (safetyResets kx kz kl kr p) = status p).
Proof. stage_player p. Qed.

Lemma groundCollision_position (p : Player) :
  y (groundCollision p)
    = (if Qle_bool maxYPosition (y p) then maxYPosition else y p) /\
  (isGroundAttack (status (groundCollision p)) = true ->
     status (groundCollision p) = status p).
Proof.
  destruct_player p; steps;
    try (match goal with H : Qle_bool _ _ = _ |- _ => rewrite H end);
    leaf.
Qed.

Lemma statePhysics_position (km : KeyManager) (dt : Q) (g : Game) :
  isGroundAttack (status (player (statePhysics km dt g))) = true ->
  status (player (statePhysics km dt g)) = status (player g).
Proof. destruct km. stage_game g. Qed.

Lemma updateAnimation_position (km : KeyManager) (dt : Q) (p : Player) :
  y (updateAnimation km dt p) = y p /\
  (isGroundAttack (status (updateAnimation km dt p)) = true ->
     status (updateAnimation km dt p) = status p).
Proof. destruct km. stage_player p. Qed.

Lemma handleWalking_position (l r : bool) (dt : Q) (g : Game) :
  y (player (handleWalking l r dt g)) = y (player g) /\
  isOnGround (player (handleWalking l r dt g)) = isOnGround (player g) /\
  (isGroundAttack (status (player (handleWalking l r dt g))) = true ->
     status (player (handleWalking l r dt g)) = status (player g)).
Proof. unfold handleWalking. stage_game g. Qed.

Lemma handleAirMovement_position (l r : bool) (dt : Q) (g : Game) :
  isOnGround (player (handleAirMovement l r dt g)) = isOnGround (player g).
Proof. unfold handleAirMovement. stage_game g. Qed.

(** The state machine enters A1 or FIREATTACK only from the ground and
    moves nothing when it does; it leaves them in place otherwise. *)
Lemma stateMachine_position (cosT : Q -> Q) (km : KeyManager) (dt : Q)
    (g : Game) :
  isGroundAttack (status (player (flowGame (stateMachine cosT km dt g))))
    = true ->
  y (player (flowGame (stateMachine cosT km dt g))) = y (player g) /\
  velocityY (player (flowGame (stateMachine cosT km dt g)))
    = velocityY (player g) /\
  isOnGround (player (flowGame (stateMachine cosT km dt g)))
    = isOnGround (player g) /\
  (status (player (flowGame (stateMachine cosT km dt g))) = status (player g)
   \/ isOnGround (player g) = true).
Proof.
  destruct km as [kx kz kl kr kc kv], g as [p sc pl]; destruct_player p.
  match goal with |- context [stateMachine ?c ?k ?d ?g] =>
    steps_on (stateMachine c k d g) end.
  all: repeat match goal with
       | |- context [handleWalking ?l ?r ?d ?g] =>
           let H := fresh "HW" in
           let H' := fresh "HP" in
           pose proof (handleWalking_frame l r d g) as H; run_stmts_in H;
           pose proof (handleWalking_position l r d g) as H';
           run_stmts_in H';
           generalize dependent (handleWalking l r d g); intros
       | |- context [handleAirMovement ?l ?r ?d ?g] =>
           let H := fresh "HA" in
           let H' := fresh "HP" in
           pose proof (handleAirMovement_frame l r d g) as H;
           unfold untouched in H; run_stmts_in H;
           pose proof (handleAirMovement_position l r d g) as H';
           run_stmts_in H';
           generalize dependent (handleAirMovement l r d g); intros
       end.
  all: intros.
  all: repeat match goal with H : _ /\ _ |- _ => destruct H end.
  all: try match goal with
       | H : isGroundAttack _ = true |- _ => try discriminate H
       end.
  all: repeat split; try congruence; auto.
  all: try (left; congruence).
  all: try match goal with
       | H : _ && _ = true |- _ =>
           apply andb_prop in H; destruct H; right; assumption
       end.
  all: exfalso;
    match goal with
    | HS : _ = JUMPSTART, HG : _ = true |- _ =>
        rewrite HS in HG; discriminate HG
    | HS : _ = JUMPDOWN, HG : _ = true |- _ =>
        rewrite HS in HG; discriminate HG
    end.
Qed.

Lemma checkInput_position (cosT : Q -> Q) km tm g :
  isGroundAttack (status (player (checkInput cosT km tm g))) = true ->
  y (player (checkInput cosT km tm g)) = y (player g) /\
  velocityY (player (checkInput cosT km tm g)) = velocityY (player g) /\
  (status (player (checkInput cosT km tm g)) = status (player g)
   \/ maxYPosition <= y (player g)).
Proof.
  destruct (isControlEnabled (player g)) eqn:HC;
    [| rewrite checkInput_disabled by assumption; auto ].
  rewrite (checkInput_stages cosT km tm g HC).
  destruct (groundDetection_frame g) as [U OG]; unfold untouched in U.
  pose proof (resetKeyTracking_frame (isKeyDown km KEY_X) (isKeyDown km KEY_Z)
                (player (groundDetection g))) as R.
  pose proof (stateMachine_position cosT km (getTime tm)
                (groundDetection g
                 <~ resetKeyTracking (isKeyDown km KEY_X) (isKeyDown km KEY_Z)))
    as S.
  rewrite player_with_player in S.
  destruct U as (_ & _ & _ & _ & _ & U6 & U7 & U8).
  destruct R as (_ & _ & _ & _ & R5 & R6 & R7 & R8 & _).
  assert (G : isOnGround (resetKeyTracking (isKeyDown km KEY_X)
                            (isKeyDown km KEY_Z) (player (groundDetection g)))
              = true -> maxYPosition <= y (player g)).
  { rewrite R8, OG. intros E. apply Qle_bool_iff. exact E. }
  rewrite R5, R6, R7, U6, U7, U8 in S.
  destruct (stateMachine cosT km (getTime tm) _) as [g'|g'];
    cbn [flowGame] in S.
  - intros HG. destruct (S HG) as (S1 & S2 & _ & [S4|S4]); auto.
  - rewrite player_with_player.
    destruct (safetyResets_position (isKeyDown km KEY_X) (isKeyDown km KEY_Z)
                (isKeyDown km KEY_LEFT) (isKeyDown km KEY_RIGHT) (player g'))
      as (F1 & _ & F3).
    destruct (safetyResets_frame (isKeyDown km KEY_X) (isKeyDown km KEY_Z)
                (isKeyDown km KEY_LEFT) (isKeyDown km KEY_RIGHT) (player g'))
      as (_ & _ & _ & _ & F5 & _).
    intros HG. specialize (F3 HG). rewrite F3 in HG |- *.
    rewrite F1, F5.
    destruct (S HG) as (S1 & S2 & _ & [S4|S4]); auto.
Qed.

(** Where the physics step leaves the player: on the ground line when
    integration reaches it, at the integrated height otherwise. *)
Lemma updatePhysics_position (km : KeyManager) (dt : Q) (g : Game) :
  y (player (updatePhysics km dt g))
    = (if Qle_bool maxYPosition
            (y (player g)
             + (if isOnGround (player g) then velocityY (player g)
                else Math_min (velocityY (player g) + gravity * dt)
                       maxFallSpeed) * dt)
       then maxYPosition
       else y (player g)
            + (if isOnGround (player g) then velocityY (player g)
               else Math_min (velocityY (player g) + gravity * dt)
                      maxFallSpeed) * dt) /\
  (isGroundAttack (status (player (updatePhysics km dt g))) = true ->
     status (player (updatePhysics km dt g)) = status (player g)).
Proof.
  rewrite updatePhysics_stages. rewrite !player_with_player. cbv beta.
  pose proof (applyGravity_frame dt (player g)) as G1.
  pose proof (superJumpPhysics_frame dt (g <~ applyGravity dt)) as G2.
  unfold untouched in G2. rewrite player_with_player in G2.
  pose proof (statePhysics_frame km dt
                (superJumpPhysics dt (g <~ applyGravity dt))) as G3.
  pose proof (statePhysics_position km dt
                (superJumpPhysics dt (g <~ applyGravity dt))) as G3'.
  set (p3 := player (statePhysics km dt
                       (superJumpPhysics dt (g <~ applyGravity dt)))) in *.
  pose proof (integrate_frame dt p3) as G4.
  set (p4 := set_y _ _) in *.
  pose proof (groundCollision_position p4) as G5.
  pose proof (screenBoundaries_frame (groundCollision p4)) as G6.
  unfold untouched in G6.
  pose proof (transform_frame (screenBoundaries (groundCollision p4))) as G7.
  unfold untouched in G7.
  set (p7 := set_transform_position_y _ _) in *.
  destruct G1 as (GA1 & GA2 & GA3 & GA4 & GA5 & GA6 & GA7 & GA8).
  destruct G2 as (B1 & B2 & B3 & B4 & B5 & B6 & B7 & B8).
  destruct G3 as (C1 & C2 & C3 & C4 & C5 & C6 & C7 & C8 & C9).
  destruct G4 as (D1 & D2 & D3 & D4 & D5 & D6 & D7 & D8).
  destruct G5 as (E1 & E2).
  destruct G6 as (F1 & F2 & F3 & F4 & F5 & F6 & F7 & F8).
  destruct G7 as (H1 & H2 & H3 & H4 & H5 & H6 & H7 & H8).
  split.
  - rewrite H8, F8, E1, D8, C7, C6, B8, B6, GA7, GA8. reflexivity.
  - rewrite H7, F7. intros HG. specialize (E2 HG). rewrite E2 in HG |- *.
    rewrite D7 in HG |- *. specialize (G3' HG). rewrite G3' in HG |- *.
    congruence.
Qed.

Lemma standsOnGround_held (p : Player) : standsOnGround p -> heldOnGround p.
Proof. intros [B1 B2] HG. split; auto. Qed.

Lemma checkInput_heldOnGround (cosT : Q -> Q) km tm g :
  standsOnGround (player g) ->
  heldOnGround (player (checkInput cosT km tm g)).
Proof.
  intros [B1 B2] HG.
  destruct (checkInput_position cosT km tm g HG) as (P1 & P2 & P3).
  rewrite P1, P2.
  destruct P3 as [P3|P3]; [ rewrite P3 in HG | ]; auto.
Qed.

(** From rest on the ground line the physics step cannot lift the player:
    gravity, if it applies at all, pushes down. *)
Lemma updatePhysics_standsOnGround km dt g :
  heldOnGround (player g) -> standsOnGround (player (updatePhysics km dt g)).
Proof.
  intros M.
  destruct (updatePhysics_position km dt g) as (PY & PS).
  destruct (updatePhysics_frame km dt g) as (_ & _ & _ & _ & _ & _ & _ & PV).
  split.
  - rewrite PY, PV.
    destruct (Qle_bool maxYPosition _) eqn:E; [ reflexivity | ].
    intros L. apply Qle_bool_iff in L. congruence.
  - intros HG. specialize (PS HG). rewrite PS in HG.
    destruct (M HG) as [MY MV].
    rewrite PY.
    destruct (Qle_bool maxYPosition _) eqn:E; [ apply Qle_refl | ].
    exfalso. apply Qle_bool_false_iff in E. rewrite MV in E.
    destruct (isOnGround (player g)).
    + lra.
    + unfold Math_min, gravity, maxFallSpeed in E.
      destruct (Qle_bool (0 + 300 * dt) 400) eqn:E2.
      * assert (0 <= dt * dt) by nra. nra.
      * apply Qle_bool_false_iff in E2. nra.
Qed.

Lemma updateAnimation_standsOnGround km dt p :
  standsOnGround p -> standsOnGround (updateAnimation km dt p).
Proof.
  intros [B1 B2].
  destruct (updateAnimation_position km dt p) as (P1 & P2).
  destruct (updateAnimation_frame km dt p) as (_ & _ & _ & _ & P5 & _).
  split.
  - rewrite P1, P5. exact B1.
  - intros HG. specialize (P2 HG). rewrite P2 in HG. rewrite P1. auto.
Qed.

Lemma transform_standsOnGround (p : Player) :
  standsOnGround p ->
  standsOnGround
    (set_transform_position_y (y (set_transform_position_x (x p) p))
       (set_transform_position_x (x p) p)).
Proof. destruct p. exact (fun H => H). Qed.

Lemma GameObject_update_standsOnGround km dt g :
  standsOnGround (player g) ->
  standsOnGround (player (GameObject_update km dt g)).
Proof.
  intros B. unfold GameObject_update.
  destruct (negb (active (player g)) || destroyed (player g)); [ exact B | ].
  rewrite strict_Game_eq.
  apply updatePhysics_standsOnGround, standsOnGround_held.
  rewrite player_with_player. apply updateAnimation_standsOnGround. exact B.
Qed.

Lemma update_standsOnGround (cosT : Q -> Q) km tm dt g :
  standsOnGround (player g) ->
  standsOnGround (player (update cosT km tm dt g)).
Proof.
  intros B.
  destruct (destroyed (player g)) eqn:HD.
  - rewrite update_destroyed by assumption. exact B.
  - rewrite (update_stages cosT km tm dt g HD).
    apply GameObject_update_standsOnGround.
    rewrite !player_with_player. cbv beta.
    apply transform_standsOnGround, updateAnimation_standsOnGround,
      updatePhysics_standsOnGround.
    destruct (isControlEnabled (player g)).
    + apply checkInput_heldOnGround. exact B.
    + apply standsOnGround_held. exact B.
Qed.


(** ** Every state of a run *)

Lemma runFrames_app (cosT : Q -> Q) (a b : list FrameInput) (g : Game) :
  runFrames cosT (a ++ b) g = runFrames cosT b (runFrames cosT a g).
Proof.
  revert g. induction a as [|f a IH]; intros g; cbn; [ reflexivity | ].
  apply IH.
Qed.

(** The input pass runs in every frame of a run and the player is never
    destroyed. *)
Lemma gameAfter_alive (cosT : Q -> Q) (history : list FrameInput) :
  isControlEnabled (player (gameAfter cosT history)) = true /\
  destroyed (player (gameAfter cosT history)) = false.
Proof.
  unfold gameAfter.
  assert (G : forall fs g,
            isControlEnabled (player (runFrames cosT fs g))
              = isControlEnabled (player g) /\
            destroyed (player (runFrames cosT fs g))
              = destroyed (player g)).
  { intros fs. induction fs as [|f rest IH]; intros g; cbn; [ auto | ].
    destruct (IH (update cosT (frameKeys f) (frameClock f) (frameDelta f) g))
      as [I1 I2].
    destruct (update_alive cosT (frameKeys f) (frameClock f) (frameDelta f) g)
      as [U1 U2].
    split; congruence. }
  destruct (G history newGame) as [G1 G2]. rewrite G1, G2. auto.
Qed.

(** At the ground line the player is at rest, and a basic or fire attack
    is only ever found at the ground line. *)
Lemma gameAfter_standsOnGround (cosT : Q -> Q) (history : list FrameInput) :
  standsOnGround (player (gameAfter cosT history)).
Proof.
  unfold gameAfter.
  assert (G : forall fs g, standsOnGround (player g) ->
            standsOnGround (player (runFrames cosT fs g))).
  { intros fs. induction fs as [|f rest IH]; intros g B; cbn; [ exact B | ].
    apply IH, update_standsOnGround. exact B. }
  apply G. split; [ reflexivity | discriminate ].
Qed.

(** ** Release of the jump button *)

Lemma resetKeyTracking_released (kz : bool) (p : Player) :
  jumpKeyWasPressed (resetKeyTracking false kz p) = false.
Proof. stage_player p. Qed.

Lemma safetyResets_released (kx kz kl kr : bool) (p : Player) :
  jumpKeyWasPressed p = false ->
  jumpKeyWasPressed (safetyResets kx kz kl kr p) = false.
Proof. stage_player p. Qed.

Lemma stateMachine_released (cosT : Q -> Q) (km : KeyManager) (dt : Q)
    (g : Game) :
  isKeyDown km KEY_X = false ->
  jumpKeyWasPressed (player (flowGame (stateMachine cosT km dt g)))
    = jumpKeyWasPressed (player g).
Proof.
  destruct km as [kx kz kl kr kc kv], g as [p sc pl]; destruct_player p.
  simpl. intros HX; subst.
  match goal with |- context [stateMachine ?c ?k ?d ?g] =>
    steps_on (stateMachine c k d g) end;
    movement_helpers; try congruence; auto.
Qed.

Lemma checkInput_released (cosT : Q -> Q) km tm g :
  isControlEnabled (player g) = true ->
  isKeyDown km KEY_X = false ->
  jumpKeyWasPressed (player (checkInput cosT km tm g)) = false.
Proof.
  intros HC HX.
  rewrite (checkInput_stages cosT km tm g HC).
  pose proof (stateMachine_released cosT km (getTime tm)
                (groundDetection g
                 <~ resetKeyTracking (isKeyDown km KEY_X) (isKeyDown km KEY_Z))
                HX) as S.
  rewrite HX in S |- *.
  rewrite player_with_player, resetKeyTracking_released in S.
  destruct (stateMachine cosT km (getTime tm) _) as [g'|g'];
    cbn [flowGame] in S.
  - exact S.
  - rewrite player_with_player. apply safetyResets_released. exact S.
Qed.

Lemma groundCollision_canJump (p : Player) :
  Qle_bool maxYPosition (y p) = true ->
  jumpKeyWasPressed p = false ->
  canJump (groundCollision p) = true.
Proof.
  destruct_player p; simpl; intros HY HJ; subst; steps;
    try reflexivity; congruence.
Qed.

Lemma screenBoundaries_canJump (p : Player) :
  canJump (screenBoundaries p) = canJump p.
Proof. stage_player p. Qed.

Lemma updateAnimation_canJump (km : KeyManager) (dt : Q) (p : Player) :
  canJump (updateAnimation km dt p) = canJump p.
Proof. destruct km. stage_player p. Qed.

(** Landing with the button up re-arms the jump. *)
Lemma updatePhysics_canJump (km : KeyManager) (dt : Q) (g : Game) :
  jumpKeyWasPressed (player g) = false ->
  maxYPosition <= y (player (updatePhysics km dt g)) ->
  canJump (player (updatePhysics km dt g)) = true.
Proof.
  intros HJ.
  destruct (updatePhysics_position km dt g) as [PY _]. rewrite PY. clear PY.
  rewrite updatePhysics_stages. rewrite !player_with_player. cbv beta.
  pose proof (applyGravity_frame dt (player g)) as G1.
  pose proof (superJumpPhysics_frame dt (g <~ applyGravity dt)) as G2.
  unfold untouched in G2. rewrite player_with_player in G2.
  pose proof (statePhysics_frame km dt
                (superJumpPhysics dt (g <~ applyGravity dt))) as G3.
  set (p3 := player (statePhysics km dt
                       (superJumpPhysics dt (g <~ applyGravity dt)))) in *.
  pose proof (integrate_frame dt p3) as G4.
  set (p4 := set_y _ _) in *.
  destruct G1 as (GA1 & GA2 & GA3 & GA4 & GA5 & GA6 & GA7 & GA8).
  destruct G2 as (B1 & B2 & B3 & B4 & B5 & B6 & B7 & B8).
  destruct G3 as (C1 & C2 & C3 & C4 & C5 & C6 & C7 & C8 & C9).
  destruct G4 as (D1 & D2 & D3 & D4 & D5 & D6 & D7 & D8).
  assert (J4 : jumpKeyWasPressed p4 = false) by congruence.
  assert (Y4 : y p4
               = y (player g)
                 + (if isOnGround (player g) then velocityY (player g)
                    else Math_min (velocityY (player g) + gravity * dt)
                           maxFallSpeed) * dt).
  { rewrite D8, C7, C6, B8, B6, GA7, GA8. reflexivity. }
  rewrite <- Y4.
  destruct (Qle_bool maxYPosition (y p4)) eqn:E.
  - intros _.
    assert (T : forall q,
              canJump
                (set_transform_position_y
                   (y (set_transform_position_x (x q) q))
                   (set_transform_position_x (x q) q)) = canJump q)
      by (intros q; destruct q; reflexivity).
    rewrite T, screenBoundaries_canJump.
    apply groundCollision_canJump; assumption.
  - intros L. apply Qle_bool_iff in L. congruence.
Qed.

(** After a frame with the jump button up the edge memory is clear, and
    the jump is unlocked if the frame leaves the player on the ground. *)
Lemma update_released (cosT : Q -> Q) km tm dt g :
  isControlEnabled (player g) = true ->
  destroyed (player g) = false ->
  isKeyDown km KEY_X = false ->
  jumpKeyWasPressed (player (update cosT km tm dt g)) = false /\
  (maxYPosition <= y (player (update cosT km tm dt g)) ->
     canJump (player (update cosT km tm dt g)) = true).
Proof.
  intros HC HD HX.
  rewrite (update_stages cosT km tm dt g HD). rewrite HC.
  pose proof (checkInput_released cosT km tm g HC HX) as J1.
  set (g1 := checkInput cosT km tm g) in *.
  destruct (updatePhysics_frame km dt g1) as (_ & _ & _ & _ & J2 & _).
  pose proof (updatePhysics_canJump km dt g1 J1) as K2.
  set (g2 := updatePhysics km dt g1) in *.
  destruct (updateAnimation_frame km dt (player g2))
    as (_ & _ & K3 & J3 & _).
  destruct (updateAnimation_position km dt (player g2)) as (Y3 & _).
  pose proof (updateAnimation_canJump km dt (player g2)) as C3.
  set (g4 := g2 <~ updateAnimation km dt
             <~ (fun p => set_transform_position_x (x p) p)
             <~ (fun p => set_transform_position_y (y p) p)).
  assert (E4 : jumpKeyWasPressed (player g4) = false /\
               y (player g4) = y (player g2) /\
               canJump (player g4) = canJump (player g2)).
  { unfold g4. rewrite !player_with_player.
    destruct (updateAnimation km dt (player g2)) eqn:EU.
    cbn in *. repeat split; congruence. }
  destruct E4 as (J4 & Y4 & C4).
  unfold GameObject_update.
  destruct (negb (active (player g4)) || destroyed (player g4)).
  - split; [ exact J4 | ]. rewrite Y4, C4. exact K2.
  - rewrite strict_Game_eq.
    assert (J5 : jumpKeyWasPressed (player (g4 <~ updateAnimation km dt))
                 = false).
    { rewrite player_with_player.
      destruct (updateAnimation_frame km dt (player g4))
        as (_ & _ & _ & J & _). congruence. }
    split.
    + destruct (updatePhysics_frame km dt (g4 <~ updateAnimation km dt))
        as (_ & _ & _ & _ & J & _). congruence.
    + apply updatePhysics_canJump. exact J5.
Qed.

(** A press that follows a frame with the button up, or that opens the
    run, finds the jump armed. *)
Lemma gameAfter_armed (cosT : Q -> Q) (history : list FrameInput) :
  jumpButtonWasUp history = true ->
  jumpKeyWasPressed (player (gameAfter cosT history)) = false /\
  (maxYPosition <= y (player (gameAfter cosT history)) ->
     canJump (player (gameAfter cosT history)) = true).
Proof.
  unfold jumpButtonWasUp. intros HU.
  destruct (rev history) as [|f l] eqn:E;
    apply (f_equal (@rev FrameInput)) in E; rewrite rev_involutive in E;
    subst history.
  - split; reflexivity.
  - cbn [rev]. unfold gameAfter. rewrite runFrames_app. cbn [runFrames].
    destruct (gameAfter_alive cosT (rev l)) as [HC HD].
    apply update_released; try assumption.
    apply negb_true_iff. exact HU.
Qed.

(** ** The super jump (C1) *)

(** The super-jump rule of the input pass, on any state whose input pass
    runs. *)
Lemma checkInput_superJump (cosT : Q -> Q) (km : KeyManager)
    (tm : TimeManager) (g : Game) :
  isControlEnabled (player g) = true ->
  status (player g) = IDLE \/ status (player g) = WALK ->
  isKeyDown km KEY_X = true ->
  isKeyDown km KEY_Z = true ->
  isKeyDown km KEY_C = false ->
  isKeyDown km KEY_V = false ->
  jumpKeyWasPressed (player g) = false ->
  dashKeyWasPressed (player g) = false ->
  maxYPosition <= y (player g) ->
  canJump (player g) = true ->
  canDashAgain (player g) = true ->
  status (player (checkInput cosT km tm g)) = JUMPSTART /\
  isSuperJumping (player (checkInput cosT km tm g)) = true /\
  velocityY (player (checkInput cosT km tm g)) = - jumpPower * 10 * 1.5 /\
  (direction (player g) = RIGHT ->
     velocityX (player (checkInput cosT km tm g)) = superJumpVelocityX) /\
  (direction (player g) = LEFT ->
     velocityX (player (checkInput cosT km tm g)) = - superJumpVelocityX) /\
  ~ velocityY (player (checkInput cosT km tm g)) == - jumpPower * 10 /\
  status (player (checkInput cosT km tm g)) <> DASH /\
  isDashing (player (checkInput cosT km tm g)) = isDashing (player g) /\
  dashPhase (player (checkInput cosT km tm g)) = dashPhase (player g) /\
  canDashAgain (player (checkInput cosT km tm g)) = true.
Proof.
  intros HC HS HX HZ HKC HKV HJ HD HG HCJ HCD.
  destruct g as [p sc pl], km as [kx kz kl kr kc kv].
  destruct_player p; simpl in HC, HS, HX, HZ, HKC, HKV, HJ, HD, HG, HCJ, HCD.
  apply Qle_bool_iff in HG.
  destruct HS; subst; destruct dir; run_code; rewrite HG; exec;
    repeat split; try discriminate; try reflexivity;
    intros E; vm_compute in E; discriminate E.
Qed.

(** C1, as amended.  In every frame of a run that finds the status IDLE or
    WALK, the jump and dash inputs down, both attack inputs up, neither
    edge-memory flag set, the entity grounded and both locks open, the
    input pass takes the status to JUMPSTART with [isSuperJumping], the
    vertical velocity is [-jumpPower*10*1.5] and the horizontal velocity
    is [superJumpVelocityX] facing RIGHT and [-superJumpVelocityX] facing
    LEFT.  The result is not the plain jump (whose impulse is
    [-jumpPower*10]) and not a dash (no dash state is entered and the dash
    lock stays open). *)
Theorem superJump_transition (cosT : Q -> Q) (history : list FrameInput)
    (km : KeyManager) (tm : TimeManager) :
  status (player (gameAfter cosT history)) = IDLE
  \/ status (player (gameAfter cosT history)) = WALK ->
  isKeyDown km KEY_X = true ->
  isKeyDown km KEY_Z = true ->
  isKeyDown km KEY_C = false ->
  isKeyDown km KEY_V = false ->
  jumpKeyWasPressed (player (gameAfter cosT history)) = false ->
  dashKeyWasPressed (player (gameAfter cosT history)) = false ->
  maxYPosition <= y (player (gameAfter cosT history)) ->
  canJump (player (gameAfter cosT history)) = true ->
  canDashAgain (player (gameAfter cosT history)) = true ->
  status (player (checkInput cosT km tm (gameAfter cosT history)))
    = JUMPSTART /\
  isSuperJumping (player (checkInput cosT km tm (gameAfter cosT history)))
    = true /\
  velocityY (player (checkInput cosT km tm (gameAfter cosT history)))
    = - jumpPower * 10 * 1.5 /\
  (direction (player (gameAfter cosT history)) = RIGHT ->
     velocityX (player (checkInput cosT km tm (gameAfter cosT history)))
       = superJumpVelocityX) /\
  (direction (player (gameAfter cosT history)) = LEFT ->
     velocityX (player (checkInput cosT km tm (gameAfter cosT history)))
       = - superJumpVelocityX) /\
  ~ velocityY (player (checkInput cosT km tm (gameAfter cosT history)))
      == - jumpPower * 10 /\
  status (player (checkInput cosT km tm (gameAfter cosT history))) <> DASH /\
  isDashing (player (checkInput cosT km tm (gameAfter cosT history)))
    = isDashing (player (gameAfter cosT history)) /\
  dashPhase (player (checkInput cosT km tm (gameAfter cosT history)))
    = dashPhase (player (gameAfter cosT history)) /\
  canDashAgain (player (checkInput cosT km tm (gameAfter cosT history)))
    = true.
Proof.
  intros HS HX HZ HKC HKV HJ HD HG HCJ HCD.
  apply checkInput_superJump; try assumption.
  apply gameAfter_alive.
Qed.

Lemma superJump_transition_witness :
  status (player (checkInput cosOne keys_XZ frame16ms
                    (gameAfter cosOne [idleFrame]))) = JUMPSTART /\
  isSuperJumping (player (checkInput cosOne keys_XZ frame16ms
                            (gameAfter cosOne [idleFrame]))) = true /\
  velocityY (player (checkInput cosOne keys_XZ frame16ms
                       (gameAfter cosOne [idleFrame])))
    = - jumpPower * 10 * 1.5 /\
  (direction (player (gameAfter cosOne [idleFrame])) = RIGHT ->
     velocityX (player (checkInput cosOne keys_XZ frame16ms
                          (gameAfter cosOne [idleFrame])))
       = superJumpVelocityX) /\
  (direction (player (gameAfter cosOne [idleFrame])) = LEFT ->
     velocityX (player (checkInput cosOne keys_XZ frame16ms
                          (gameAfter cosOne [idleFrame])))
       = - superJumpVelocityX) /\
  ~ velocityY (player (checkInput cosOne keys_XZ frame16ms
                         (gameAfter cosOne [idleFrame])))
      == - jumpPower * 10 /\
  status (player (checkInput cosOne keys_XZ frame16ms
                    (gameAfter cosOne [idleFrame]))) <> DASH /\
  isDashing (player (checkInput cosOne keys_XZ frame16ms
                       (gameAfter cosOne [idleFrame])))
    = isDashing (player (gameAfter cosOne [idleFrame])) /\
  dashPhase (player (checkInput cosOne keys_XZ frame16ms
                       (gameAfter cosOne [idleFrame])))
    = dashPhase (player (gameAfter cosOne [idleFrame])) /\
  canDashAgain (player (checkInput cosOne keys_XZ frame16ms
                          (gameAfter cosOne [idleFrame]))) = true.
Proof.
  apply (superJump_transition cosOne [idleFrame] keys_XZ frame16ms);
    try reflexivity; [ left; reflexivity | apply Qle_bool_iff; reflexivity ].
Defined.

(** C1 as stated fails: in the first frame of the game, with the
    basic-attack input down as well, every listed condition holds and yet
    the basic attack is taken; there is no super jump. *)
Lemma superJump_loses_to_basic_attack :
  (status (player (gameAfter cosOne [])) = IDLE /\
   isKeyDown keys_XZC KEY_X = true /\
   isKeyDown keys_XZC KEY_Z = true /\
   jumpKeyWasPressed (player (gameAfter cosOne [])) = false /\
   dashKeyWasPressed (player (gameAfter cosOne [])) = false /\
   maxYPosition <= y (player (gameAfter cosOne [])) /\
   canJump (player (gameAfter cosOne [])) = true /\
   canDashAgain (player (gameAfter cosOne [])) = true) /\
  status (player (checkInput cosOne keys_XZC frame16ms (gameAfter cosOne [])))
    = A1 /\
  isSuperJumping
    (player (checkInput cosOne keys_XZC frame16ms (gameAfter cosOne [])))
    = false /\
  velocityY
    (player (checkInput cosOne keys_XZC frame16ms (gameAfter cosOne [])))
    = 0.
Proof.
  repeat split; try reflexivity. apply Qle_bool_iff; reflexivity.
Qed.

(** ** The grounded safety-reset pass (C2, C7) *)

(** Case analysis on everything the pass tests. *)
Ltac safety_cases p xk zk lk rk :=
  destruct p as [? ? ? ? ? ? st ? ? ? ? ? ? ? og ? ? ? dsh ? ? ? ? ? ? ? ? ? ? ? ? ?];
  destruct og, xk, zk, lk, rk, dsh, st.

(** C2.  On a grounded entity the pass establishes
    [isDashing = true -> status in {DASH, DASHEND}]; when the implication is
    violated on entry, the pass clears [isDashing], sets [dashPhase] to
    'none' and re-opens the dash lock. *)
Theorem safetyResets_dash_consistent
    (xKeyDown zKeyDown leftKeyDown rightKeyDown : bool) (p : Player) :
  isOnGround p = true ->
  (isDashing (safetyResets xKeyDown zKeyDown leftKeyDown rightKeyDown p) = true ->
     status (safetyResets xKeyDown zKeyDown leftKeyDown rightKeyDown p) = DASH \/
     status (safetyResets xKeyDown zKeyDown leftKeyDown rightKeyDown p) = DASHEND)
  /\
  (isDashing p = true -> status p <> DASH -> status p <> DASHEND ->
     isDashing (safetyResets xKeyDown zKeyDown leftKeyDown rightKeyDown p) = false /\
     dashPhase (safetyResets xKeyDown zKeyDown leftKeyDown rightKeyDown p) = phase_none /\
     canDashAgain (safetyResets xKeyDown zKeyDown leftKeyDown rightKeyDown p) = true).
Proof.
  safety_cases p xKeyDown zKeyDown leftKeyDown rightKeyDown;
    cbv; intros G; try discriminate G; split;
    solve [ intros; congruence
          | intros; auto
          | intros; repeat split; congruence ].
Qed.

Lemma safetyResets_dash_consistent_witness :
  (isDashing (safetyResets false false false false stuckDash) = true ->
     status (safetyResets false false false false stuckDash) = DASH \/
     status (safetyResets false false false false stuckDash) = DASHEND)
  /\
  (isDashing stuckDash = true -> status stuckDash <> DASH ->
   status stuckDash <> DASHEND ->
     isDashing (safetyResets false false false false stuckDash) = false /\
     dashPhase (safetyResets false false false false stuckDash) = phase_none /\
     canDashAgain (safetyResets false false false false stuckDash) = true).
Proof.
  apply (safetyResets_dash_consistent false false false false stuckDash).
  reflexivity.
Defined.

(** C7.  Running the pass a second time on the same input snapshot changes
    no field. *)
Theorem safetyResets_idempotent
    (xKeyDown zKeyDown leftKeyDown rightKeyDown : bool) (p : Player) :
  safetyResets xKeyDown zKeyDown leftKeyDown rightKeyDown
    (safetyResets xKeyDown zKeyDown leftKeyDown rightKeyDown p)
  = safetyResets xKeyDown zKeyDown leftKeyDown rightKeyDown p.
Proof.
  safety_cases p xKeyDown zKeyDown leftKeyDown rightKeyDown; reflexivity.
Qed.

(** ** Dash motion (C3) *)






(** A dash at progress 150 of 300, stepping 16 ms to the right: the easing
    factor is 14/15 and the step covers 5.6 * 14/15 pixels. *)
Example dash_step_midway :
  x (player (statePhysics noKeys 0.016 movingDash)) == 400 + 5.6 * (14 # 15) /\
  dashProgress (player (statePhysics noKeys 0.016 movingDash)) == 155.6 /\
  status (player (statePhysics noKeys 0.016 movingDash)) = DASH.
Proof. repeat split. Qed.

(** The step that takes the progress from 250 to 255.6 ends the dash. *)
Example dash_step_last :
  status (player (statePhysics noKeys 0.016 endingDash)) = DASHEND /\
  dashPhase (player (statePhysics noKeys 0.016 endingDash)) = phase_end /\
  statePhysics noKeys 0.016 (statePhysics noKeys 0.016 endingDash)
    = statePhysics noKeys 0.016 endingDash.
Proof. repeat split. Qed.

(** ** The attack timeout (C4) *)








(** A basic attack started in the first frame, then stalled for nineteen
    frames of 50 ms: the twentieth takes the timer to 1.0 s and the status
    back to IDLE. *)
Example basic_attack_times_out_on_the_ground :
  status (player (gameAfter cosOne [attackFrame])) = A1 /\
  status (player (stalledFrames cosOne (repeat idleFrame 19)
                    (gameAfter cosOne [attackFrame]))) = A1 /\
  attackTimer (player (stalledFrames cosOne (repeat idleFrame 19)
                         (gameAfter cosOne [attackFrame]))) == 0.95 /\
  status (player (checkInput cosOne noKeys frame50ms
                    (stalledFrames cosOne (repeat idleFrame 19)
                       (gameAfter cosOne [attackFrame])))) = IDLE /\
  attackTimer (player (checkInput cosOne noKeys frame50ms
                         (stalledFrames cosOne (repeat idleFrame 19)
                            (gameAfter cosOne [attackFrame])))) = 0.
Proof. repeat split; vm_compute; reflexivity. Qed.

(** A jump attack started right after a super jump is still in the air
    when the timer runs out: the status goes to JUMPDOWN. *)
Example jump_attack_times_out_in_the_air :
  status (player (gameAfter cosOne [superJumpFrame; jumpAttackFrame]))
    = JUMPATTACK /\
  y (player (stalledFrames cosOne (repeat idleFrame 19)
               (gameAfter cosOne [superJumpFrame; jumpAttackFrame])))
    < maxYPosition /\
  status (player (checkInput cosOne noKeys frame50ms
                    (stalledFrames cosOne (repeat idleFrame 19)
                       (gameAfter cosOne [superJumpFrame; jumpAttackFrame]))))
    = JUMPDOWN /\
  attackTimer (player (checkInput cosOne noKeys frame50ms
                         (stalledFrames cosOne (repeat idleFrame 19)
                            (gameAfter cosOne
                               [superJumpFrame; jumpAttackFrame])))) = 0.
Proof.
  split; [ vm_compute; reflexivity | ].
  split; [ apply Qlt_bool_iff; vm_compute; reflexivity | ].
  split; vm_compute; reflexivity.
Qed.

(** A jump attack that has landed by the time the timer runs out goes back
    to IDLE. *)
Example jump_attack_times_out_after_landing :
  status (player (gameAfter cosOne [jumpFrame; jumpAttackFrame]))
    = JUMPATTACK /\
  y (player (gameAfter cosOne [jumpFrame; jumpAttackFrame])) < maxYPosition /\
  y (player (stalledFrames cosOne (repeat idleFrame 19)
               (gameAfter cosOne [jumpFrame; jumpAttackFrame])))
    = maxYPosition /\
  status (player (checkInput cosOne noKeys frame50ms
                    (stalledFrames cosOne (repeat idleFrame 19)
                       (gameAfter cosOne [jumpFrame; jumpAttackFrame]))))
    = IDLE.
Proof.
  split; [ vm_compute; reflexivity | ].
  split; [ apply Qlt_bool_iff; vm_compute; reflexivity | ].
  split; vm_compute; reflexivity.
Qed.


(** ** Edge-triggered jump (C5) *)

(** The input pass of the first frame of a press. *)
Lemma checkInput_jump_edge (cosT : Q -> Q) km tm g :
  isControlEnabled (player g) = true ->
  status (player g) = IDLE \/ status (player g) = WALK ->
  isKeyDown km KEY_X = true ->
  isKeyDown km KEY_C = false ->
  isKeyDown km KEY_V = false ->
  jumpKeyWasPressed (player g) = false ->
  canJump (player g) = true ->
  maxYPosition <= y (player g) ->
  status (player (checkInput cosT km tm g)) = JUMPSTART /\
  jumpKeyWasPressed (player (checkInput cosT km tm g)) = true.
Proof.
  intros HC HS HX HKC HKV HJ HCJ HG.
  destruct g as [p sc pl], km as [kx kz kl kr kc kv].
  destruct_player p; simpl in HC, HS, HX, HKC, HKV, HJ, HCJ, HG.
  apply Qle_bool_iff in HG.
  destruct HS; subst; run_code; rewrite HG; exec; repeat split.
Qed.

(** Once [jumpKeyWasPressed] is set, frames with the button held fire no
    JUMPSTART and leave the flag set. *)
Lemma held_frames_fire_nothing (cosT : Q -> Q) (frames : list FrameInput)
    (g : Game) :
  (forall f, In f frames -> isKeyDown (frameKeys f) KEY_X = true) ->
  jumpKeyWasPressed (player g) = true ->
  jumpStartsFired cosT frames g = 0%nat /\
  jumpKeyWasPressed (player (runFrames cosT frames g)) = true.
Proof.
  revert g. induction frames as [|f rest IH]; intros g HX HJ.
  - cbn. auto.
  - assert (HXf : isKeyDown (frameKeys f) KEY_X = true)
      by (apply HX; left; reflexivity).
    assert (HXr : forall f', In f' rest ->
                    isKeyDown (frameKeys f') KEY_X = true)
      by (intros f' I; apply HX; right; exact I).
    destruct (IH (update cosT (frameKeys f) (frameClock f) (frameDelta f) g)
                HXr (update_held cosT _ _ _ g HXf HJ)) as [I1 I2].
    cbn [jumpStartsFired runFrames]. rewrite I1. split; [ | exact I2 ].
    assert (F : firesJumpStart cosT f g = false).
    { unfold firesJumpStart.
      destruct (checkInput_held cosT (frameKeys f) (frameClock f) g HXf HJ)
        as [_ N].
      destruct (STATUS_beq (status (player (checkInput cosT (frameKeys f)
                                              (frameClock f) g))) JUMPSTART)
        eqn:E.
      - apply STATUS_beq_eq in E. rewrite (N E).
        rewrite !andb_false_r. reflexivity.
      - apply andb_false_r. }
    rewrite F. reflexivity.
Qed.

(** A run of held frames that finds the jump armed fires one JUMPSTART, in
    its first frame. *)
Lemma armed_run_fires_once (cosT : Q -> Q) (first : FrameInput)
    (rest : list FrameInput) (g : Game) :
  (forall f, In f (first :: rest) -> isKeyDown (frameKeys f) KEY_X = true) ->
  isKeyDown (frameKeys first) KEY_C = false ->
  isKeyDown (frameKeys first) KEY_V = false ->
  status (player g) = IDLE \/ status (player g) = WALK ->
  maxYPosition <= y (player g) ->
  jumpKeyWasPressed (player g) = false ->
  canJump (player g) = true ->
  isControlEnabled (player g) = true ->
  destroyed (player g) = false ->
  firesJumpStart cosT first g = true /\
  jumpStartsFired cosT rest
    (update cosT (frameKeys first) (frameClock first) (frameDelta first) g)
    = 0%nat /\
  jumpStartsFired cosT (first :: rest) g = 1%nat /\
  jumpKeyWasPressed (player (runFrames cosT (first :: rest) g)) = true.
Proof.
  intros HX HKC HKV HS HG HJ HCJ HC HD.
  assert (HXf : isKeyDown (frameKeys first) KEY_X = true)
    by (apply HX; left; reflexivity).
  assert (HXr : forall f', In f' rest ->
                  isKeyDown (frameKeys f') KEY_X = true)
    by (intros f' I; apply HX; right; exact I).
  destruct (checkInput_jump_edge cosT (frameKeys first) (frameClock first) g
              HC HS HXf HKC HKV HJ HCJ HG) as [E1 E2].
  assert (F : firesJumpStart cosT first g = true).
  { unfold firesJumpStart. rewrite HD, HC, E1.
    destruct HS as [HS|HS]; rewrite HS; reflexivity. }
  assert (J : jumpKeyWasPressed
                (player (update cosT (frameKeys first) (frameClock first)
                           (frameDelta first) g)) = true).
  { destruct (update_kept cosT (frameKeys first) (frameClock first)
                (frameDelta first) g HD) as (_ & _ & _ & K & _).
    rewrite K, HC. exact E2. }
  destruct (held_frames_fire_nothing cosT rest _ HXr J) as [N1 N2].
  split; [ exact F | ]. split; [ exact N1 | ].
  cbn [jumpStartsFired runFrames]. rewrite F, N1. split; [ reflexivity | ].
  exact N2.
Qed.

(** C5, as amended.  Take a run of frames with the jump button held that
    opens the game or follows a frame with the button up, whose first
    frame has both attack inputs up and finds the entity grounded in IDLE
    or WALK.  The input pass of the first frame fires JUMPSTART and sets
    [jumpKeyWasPressed]; no later frame of the run does, so exactly one
    JUMPSTART fires; the flag is still set at the end of the run, because a
    frame with the button held never clears it. *)
Theorem jump_is_edge_triggered (cosT : Q -> Q) (history : list FrameInput)
    (first : FrameInput) (rest : list FrameInput) :
  jumpButtonWasUp history = true ->
  (forall f, In f (first :: rest) -> isKeyDown (frameKeys f) KEY_X = true) ->
  isKeyDown (frameKeys first) KEY_C = false ->
  isKeyDown (frameKeys first) KEY_V = false ->
  status (player (gameAfter cosT history)) = IDLE
  \/ status (player (gameAfter cosT history)) = WALK ->
  maxYPosition <= y (player (gameAfter cosT history)) ->
  firesJumpStart cosT first (gameAfter cosT history) = true /\
  jumpKeyWasPressed
    (player (checkInput cosT (frameKeys first) (frameClock first)
               (gameAfter cosT history))) = true /\
  jumpStartsFired cosT rest
    (update cosT (frameKeys first) (frameClock first) (frameDelta first)
       (gameAfter cosT history))
    = 0%nat /\
  jumpStartsFired cosT (first :: rest) (gameAfter cosT history) = 1%nat /\
  jumpKeyWasPressed
    (player (runFrames cosT (first :: rest) (gameAfter cosT history)))
    = true /\
  (forall (f : FrameInput) (g : Game),
     isKeyDown (frameKeys f) KEY_X = true ->
     jumpKeyWasPressed (player g) = true ->
     jumpKeyWasPressed
       (player (update cosT (frameKeys f) (frameClock f) (frameDelta f) g))
       = true).
Proof.
  intros HU HX HKC HKV HS HG.
  destruct (gameAfter_alive cosT history) as [HC HD].
  destruct (gameAfter_armed cosT history HU) as [HJ HCJ].
  specialize (HCJ HG).
  destruct (armed_run_fires_once cosT first rest (gameAfter cosT history)
              HX HKC HKV HS HG HJ HCJ HC HD) as (R1 & R2 & R3 & R4).
  assert (HXf : isKeyDown (frameKeys first) KEY_X = true)
    by (apply HX; left; reflexivity).
  destruct (checkInput_jump_edge cosT (frameKeys first) (frameClock first)
              (gameAfter cosT history) HC HS HXf HKC HKV HJ HCJ HG)
    as [_ E2].
  repeat (split; [ assumption | ]).
  intros f g HXg HJg. apply update_held; assumption.
Qed.

Lemma jump_is_edge_triggered_witness :
  firesJumpStart cosOne heldJump (gameAfter cosOne [idleFrame]) = true /\
  jumpKeyWasPressed
    (player (checkInput cosOne (frameKeys heldJump) (frameClock heldJump)
               (gameAfter cosOne [idleFrame]))) = true /\
  jumpStartsFired cosOne [heldJump; heldJump]
    (update cosOne (frameKeys heldJump) (frameClock heldJump)
       (frameDelta heldJump) (gameAfter cosOne [idleFrame]))
    = 0%nat /\
  jumpStartsFired cosOne (heldJump :: [heldJump; heldJump])
    (gameAfter cosOne [idleFrame]) = 1%nat /\
  jumpKeyWasPressed
    (player (runFrames cosOne (heldJump :: [heldJump; heldJump])
               (gameAfter cosOne [idleFrame])))
    = true /\
  (forall (f : FrameInput) (g : Game),
     isKeyDown (frameKeys f) KEY_X = true ->
     jumpKeyWasPressed (player g) = true ->
     jumpKeyWasPressed
       (player (update cosOne (frameKeys f) (frameClock f) (frameDelta f) g))
       = true).
Proof.
  apply (jump_is_edge_triggered cosOne [idleFrame] heldJump
           [heldJump; heldJump]);
    try reflexivity.
  - intros f [E|[E|[E|[]]]]; subst f; reflexivity.
  - left; reflexivity.
  - apply Qle_bool_iff; reflexivity.
Defined.

(** C5 as stated fails: when the basic-attack input is held together with
    the jump button from the first frame of the game, the run starts with
    an attack and no JUMPSTART fires in it. *)
Lemma held_jump_with_attack_fires_nothing :
  (jumpButtonWasUp [] = true /\
   (forall f, In f [heldJumpAttack; heldJumpAttack; heldJumpAttack] ->
      isKeyDown (frameKeys f) KEY_X = true) /\
   status (player (gameAfter cosOne [])) = IDLE /\
   maxYPosition <= y (player (gameAfter cosOne []))) /\
  firesJumpStart cosOne heldJumpAttack (gameAfter cosOne []) = false /\
  status (player (checkInput cosOne (frameKeys heldJumpAttack)
                    (frameClock heldJumpAttack) (gameAfter cosOne [])))
    = A1 /\
  jumpStartsFired cosOne [heldJumpAttack; heldJumpAttack; heldJumpAttack]
    (gameAfter cosOne []) = 0%nat.
Proof.
  split; [ | repeat split; vm_compute; reflexivity ].
  split; [ reflexivity | ].
  split; [ intros f [E|[E|[E|[]]]]; subst f; reflexivity | ].
  split; [ reflexivity | ].
  apply Qle_bool_iff; reflexivity.
Qed.

(** ** Terminal velocity (C6) *)

Lemma runFrames_velocityY_le (cosT : Q -> Q) (frames : list FrameInput)
    (g : Game) :
  velocityY (player g) <= maxFallSpeed ->
  velocityY (player (runFrames cosT frames g)) <= maxFallSpeed.
Proof.
  revert g. induction frames as [|f rest IH]; intros g L; cbn.
  - exact L.
  - apply IH. apply update_velocityY_le. exact L.
Qed.

(** C6.  The physics step computes [velocityY] as follows: gravity is
    added, and the sum clamped to [maxFallSpeed], only when the entity is
    not on the ground; the result is replaced by 0 when integration takes
    [y] to the ground line or below.  Hence [velocityY <= maxFallSpeed]
    after the step whenever gravity applied or the bound held on entry;
    the bound is kept by the input pass and by the animation step as well,
    and it holds initially, so it holds after every frame of every run. *)
Theorem velocityY_never_exceeds_maxFallSpeed :
  (forall km dt g,
     velocityY (player (updatePhysics km dt g))
       = (if Qle_bool maxYPosition
               (y (player g)
                + (if isOnGround (player g) then velocityY (player g)
                   else Math_min (velocityY (player g) + gravity * dt)
                          maxFallSpeed) * dt)
          then 0
          else if isOnGround (player g) then velocityY (player g)
               else Math_min (velocityY (player g) + gravity * dt)
                      maxFallSpeed)) /\
  (forall km dt g,
     velocityY (player g) <= maxFallSpeed \/ isOnGround (player g) = false ->
     velocityY (player (updatePhysics km dt g)) <= maxFallSpeed) /\
  (forall cosT km tm g,
     velocityY (player g) <= maxFallSpeed ->
     velocityY (player (checkInput cosT km tm g)) <= maxFallSpeed) /\
  (forall km dt g,
     velocityY (player g) <= maxFallSpeed ->
     velocityY (player (g <~ updateAnimation km dt)) <= maxFallSpeed) /\
  velocityY (player newGame) <= maxFallSpeed /\
  (forall cosT frames,
     velocityY (player (runFrames cosT frames newGame)) <= maxFallSpeed).
Proof.
  split; [ intros km dt g; apply updatePhysics_frame | ].
  split; [ intros km dt g; apply updatePhysics_velocityY_le | ].
  split.
  { intros cosT km tm g L.
    destruct (checkInput_frame cosT km tm g) as (_ & _ & _ & [V|[V|V]]);
      rewrite V; [ exact L | | ]; apply Qle_bool_iff; reflexivity. }
  split.
  { intros km dt g L. rewrite player_with_player.
    apply (updateAnimation_kept km dt (player g)). exact L. }
  split; [ apply Qle_bool_iff; reflexivity | ].
  intros cosT frames. apply runFrames_velocityY_le.
  apply Qle_bool_iff; reflexivity.
Qed.

(** ** The render order of the scheduler (C8) *)

Section SchedulerFacts.

Context {Obj : Type} `{SortedObject Obj}.

Lemma renderLayer_filter (layer : list Obj) :
  renderLayer layer = filter rendered layer.
Proof.
  induction layer as [|o rest IH]; cbn; [ reflexivity | ].
  unfold rendered at 1. rewrite IH. reflexivity.
Qed.

Lemma renderLayers_flat_map (layers : list (list Obj)) :
  renderLayers layers = flat_map (filter rendered) layers.
Proof.
  induction layers as [|l rest IH]; cbn; [ reflexivity | ].
  rewrite IH, renderLayer_filter. reflexivity.
Qed.

Lemma filter_filter (p q : Obj -> bool) (l : list Obj) :
  filter p (filter q l) = filter (fun o => q o && p o) l.
Proof.
  induction l as [|o rest IH]; cbn; [ reflexivity | ].
  destruct (q o); cbn; [ destruct (p o) | ]; rewrite IH; reflexivity.
Qed.

(** Pushing onto the layer at offset [i] of a run of layers that starts at
    index [s]. *)
Lemma push_at_declared (acc : list Obj) (o : Obj) (n s i : nat) :
  push_at i o (map (declaredFor acc) (seq s n))
  = map (fun j => if (j =? s + i)%nat then declaredFor acc j ++ [o]
                  else declaredFor acc j)
        (seq s n).
Proof.
  revert s i. induction n as [|n IH]; intros s i;
    [ destruct i; reflexivity | ].
  destruct i as [|i]; cbn [seq map push_at].
  - rewrite Nat.add_0_r, Nat.eqb_refl. f_equal.
    apply map_ext_in. intros j I. apply in_seq in I.
    destruct (Nat.eqb_spec j s); [ lia | reflexivity ].
  - destruct (Nat.eqb_spec s (s + S i)); [ lia | ]. f_equal.
    rewrite IH. apply map_ext. intros j.
    replace (S s + i)%nat with (s + S i)%nat by lia. reflexivity.
Qed.

Lemma declaredFor_snoc (acc : list Obj) (o : Obj) (j : nat) :
  declaredFor (acc ++ [o]) j
  = if (getSortID o =? Z.of_nat j)%Z then declaredFor acc j ++ [o]
    else declaredFor acc j.
Proof.
  unfold declaredFor. rewrite filter_app. cbn.
  destruct (getSortID o =? Z.of_nat j)%Z; [ reflexivity | apply app_nil_r ].
Qed.

(** One insertion keeps every layer equal to the objects declared for it. *)
Lemma insertObject_declared (acc : list Obj) (o : Obj) (n : nat) :
  snd (insertObject (Some o) (mkManager (map (declaredFor acc) (seq 0 n)) true))
  = mkManager (map (declaredFor (acc ++ [o])) (seq 0 n)) true.
Proof.
  unfold insertObject, addSortedObject.
  cbn [negb initialized objectLayers].
  rewrite length_map, length_seq.
  destruct (0 <=? getSortID o)%Z eqn:E0;
    [ destruct (getSortID o <? Z.of_nat n)%Z eqn:E1 | ]; cbn [andb snd].
  - f_equal. rewrite push_at_declared. apply map_ext_in. intros j I.
    rewrite declaredFor_snoc. cbn [Nat.add].
    apply Z.leb_le in E0.
    destruct (Nat.eqb_spec j (Z.to_nat (getSortID o)));
      destruct (Z.eqb_spec (getSortID o) (Z.of_nat j)); try reflexivity; lia.
  - f_equal. apply map_ext_in. intros j I. apply in_seq in I.
    rewrite declaredFor_snoc. apply Z.ltb_ge in E1.
    destruct (Z.eqb_spec (getSortID o) (Z.of_nat j)); [ lia | reflexivity ].
  - f_equal. apply map_ext_in. intros j I.
    rewrite declaredFor_snoc. apply Z.leb_gt in E0.
    destruct (Z.eqb_spec (getSortID o) (Z.of_nat j)); [ lia | reflexivity ].
Qed.

Lemma insertAll_declared (objs acc : list Obj) (n : nat) :
  insertAll objs (mkManager (map (declaredFor acc) (seq 0 n)) true)
  = mkManager (map (declaredFor (acc ++ objs)) (seq 0 n)) true.
Proof.
  revert acc. induction objs as [|o rest IH]; intros acc.
  - rewrite app_nil_r. reflexivity.
  - unfold insertAll in *. cbn [fold_left].
    rewrite insertObject_declared, IH, <- app_assoc. reflexivity.
Qed.

Lemma initializeLayers_declared :
  initializeLayers = mkManager (map (declaredFor []) (seq 0 20)) true.
Proof. reflexivity. Qed.

(** C8.  After inserting [objs], one after the other, into a fresh
    scheduler, the render pass visits, for the layers 0, 1, ..., 19 in
    this order, the objects of [objs] declared for the layer that are
    visible and not destroyed, in the order of their insertion.  With
    three visible, live objects declared for the layers 2, 0 and 2, the
    pass visits the second, then the first, then the third. *)
Theorem renderObjects_order :
  (forall objs : list Obj,
     renderObjects (insertAll objs initializeLayers)
     = flat_map
         (fun i =>
            filter (fun o => (getSortID o =? Z.of_nat i)%Z
                             && (obj_visible o && negb (isDestroyed o)))
                   objs)
         (seq 0 20)) /\
  (forall a b c : Obj,
     getSortID a = 2%Z -> getSortID b = 0%Z -> getSortID c = 2%Z ->
     obj_visible a = true -> obj_visible b = true -> obj_visible c = true ->
     isDestroyed a = false -> isDestroyed b = false ->
     isDestroyed c = false ->
     renderObjects (insertAll [a; b; c] initializeLayers) = [b; a; c]).
Proof.
  assert (G : forall objs : list Obj,
     renderObjects (insertAll objs initializeLayers)
     = flat_map
         (fun i =>
            filter (fun o => (getSortID o =? Z.of_nat i)%Z
                             && (obj_visible o && negb (isDestroyed o)))
                   objs)
         (seq 0 20)).
  { intros objs.
    rewrite initializeLayers_declared, insertAll_declared.
    unfold renderObjects. cbn [initialized negb objectLayers app].
    rewrite renderLayers_flat_map, flat_map_concat_map, map_map,
      <- flat_map_concat_map.
    apply flat_map_ext. intros i. unfold declaredFor.
    apply filter_filter. }
  split; [ exact G | ].
  intros a b c Ha Hb Hc Va Vb Vc Da Db Dc.
  rewrite G. cbn. rewrite Ha, Hb, Hc, Va, Vb, Vc, Da, Db, Dc. reflexivity.
Qed.

End SchedulerFacts.

(** Layers 2, 0, 2: the layer-0 sprite is drawn first, then the two
    layer-2 sprites in the order they were inserted. *)
Example render_order_2_0_2 :
  map spriteName
    (renderObjects
       (insertAll [mkSprite "first" 2 true false;
                   mkSprite "second" 0 true false;
                   mkSprite "third" 2 true false]
          initializeLayers))
  = ["second"; "first"; "third"]%string.
Proof. reflexivity. Qed.

(** A hidden sprite, a destroyed one and one declared for a layer that
    does not exist are not drawn. *)
Example render_skips_hidden_and_destroyed :
  map spriteName
    (renderObjects
       (insertAll [mkSprite "front" 7 true false;
                   mkSprite "hidden" 0 false false;
                   mkSprite "gone" 3 true true;
                   mkSprite "nowhere" 20 true false;
                   mkSprite "back" 1 true false]
          initializeLayers))
  = ["back"; "front"]%string.
Proof. reflexivity. Qed.

(** ** The fire attack (C9) *)

(** The fire-attack rule of the input pass, on any state whose input pass
    runs. *)
Lemma checkInput_fireAttack (cosT : Q -> Q) (km : KeyManager)
    (tm : TimeManager) (g : Game) :
  isControlEnabled (player g) = true ->
  status (player g) = IDLE \/ status (player g) = WALK ->
  isKeyDown km KEY_V = true ->
  isKeyDown km KEY_C = false ->
  maxYPosition <= y (player g) ->
  status (player (checkInput cosT km tm g)) = FIREATTACK /\
  attackTimer (player (checkInput cosT km tm g)) = 0 /\
  positionStation (player (checkInput cosT km tm g)) = AIR /\
  isOnGround (player (checkInput cosT km tm g)) = true /\
  y (player (checkInput cosT km tm g)) = y (player g) /\
  velocityY (player (checkInput cosT km tm g)) = velocityY (player g).
Proof.
  intros HC HS HV HK HG.
  destruct g as [p sc pl], km as [kx kz kl kr kc kv].
  destruct_player p; simpl in HC, HS, HV, HK, HG.
  apply Qle_bool_iff in HG.
  destruct HS; subst; run_code; rewrite HG; exec; repeat split.
Qed.

(** C9, as amended.  In every frame of a run that finds the status IDLE or
    WALK, the fire-attack input down, the basic-attack input up and the
    entity grounded, the input pass takes the status to FIREATTACK, sets
    the attack timer to 0 and [positionStation] to AIR, while the entity
    stays on the ground: [isOnGround] is true and [y] and [velocityY] are
    unchanged.  It stays there for as long as the attack lasts: a frame
    that finds the status FIREATTACK finds [y] at the ground line, with no
    vertical velocity. *)
Theorem fireAttack_transition (cosT : Q -> Q) (history : list FrameInput)
    (km : KeyManager) (tm : TimeManager) :
  status (player (gameAfter cosT history)) = IDLE
  \/ status (player (gameAfter cosT history)) = WALK ->
  isKeyDown km KEY_V = true ->
  isKeyDown km KEY_C = false ->
  maxYPosition <= y (player (gameAfter cosT history)) ->
  status (player (checkInput cosT km tm (gameAfter cosT history)))
    = FIREATTACK /\
  attackTimer (player (checkInput cosT km tm (gameAfter cosT history))) = 0 /\
  positionStation (player (checkInput cosT km tm (gameAfter cosT history)))
    = AIR /\
  isOnGround (player (checkInput cosT km tm (gameAfter cosT history)))
    = true /\
  y (player (checkInput cosT km tm (gameAfter cosT history)))
    = y (player (gameAfter cosT history)) /\
  velocityY (player (checkInput cosT km tm (gameAfter cosT history)))
    = velocityY (player (gameAfter cosT history)) /\
  (forall later : list FrameInput,
     status (player (gameAfter cosT later)) = FIREATTACK ->
     maxYPosition <= y (player (gameAfter cosT later)) /\
     velocityY (player (gameAfter cosT later)) = 0).
Proof.
  intros HS HV HK HG.
  destruct (checkInput_fireAttack cosT km tm (gameAfter cosT history))
    as (F1 & F2 & F3 & F4 & F5 & F6); try assumption.
  { apply gameAfter_alive. }
  repeat (split; [ assumption | ]).
  intros later HF.
  destruct (gameAfter_standsOnGround cosT later) as [B1 B2].
  assert (L : maxYPosition <= y (player (gameAfter cosT later)))
    by (apply B2; rewrite HF; reflexivity).
  split; [ exact L | exact (B1 L) ].
Qed.

Lemma fireAttack_transition_witness :
  status (player (checkInput cosOne keys_V frame16ms
                    (gameAfter cosOne [idleFrame]))) = FIREATTACK /\
  attackTimer (player (checkInput cosOne keys_V frame16ms
                         (gameAfter cosOne [idleFrame]))) = 0 /\
  positionStation (player (checkInput cosOne keys_V frame16ms
                             (gameAfter cosOne [idleFrame]))) = AIR /\
  isOnGround (player (checkInput cosOne keys_V frame16ms
                        (gameAfter cosOne [idleFrame]))) = true /\
  y (player (checkInput cosOne keys_V frame16ms
               (gameAfter cosOne [idleFrame])))
    = y (player (gameAfter cosOne [idleFrame])) /\
  velocityY (player (checkInput cosOne keys_V frame16ms
                       (gameAfter cosOne [idleFrame])))
    = velocityY (player (gameAfter cosOne [idleFrame])) /\
  (forall later : list FrameInput,
     status (player (gameAfter cosOne later)) = FIREATTACK ->
     maxYPosition <= y (player (gameAfter cosOne later)) /\
     velocityY (player (gameAfter cosOne later)) = 0).
Proof.
  apply (fireAttack_transition cosOne [idleFrame] keys_V frame16ms);
    [ left; reflexivity | reflexivity | reflexivity
    | apply Qle_bool_iff; reflexivity ].
Defined.

(** C9 as stated fails: in the first frame of the game, with the
    basic-attack input down as well, the basic attack is taken and
    [positionStation] stays GROUND. *)
Lemma fireAttack_loses_to_basic_attack :
  (status (player (gameAfter cosOne [])) = IDLE /\
   isKeyDown keys_CV KEY_V = true /\
   maxYPosition <= y (player (gameAfter cosOne []))) /\
  status (player (checkInput cosOne keys_CV frame16ms (gameAfter cosOne [])))
    = A1 /\
  positionStation
    (player (checkInput cosOne keys_CV frame16ms (gameAfter cosOne [])))
    = GROUND.
Proof.
  repeat split; try reflexivity. apply Qle_bool_iff; reflexivity.
Qed.

(** The pose lasts until the physics step of the same frame, which puts
    [positionStation] back to GROUND. *)
Example fireAttack_pose_is_reset_by_physics :
  status (player (gameAfter cosOne [fireFrame])) = FIREATTACK /\
  positionStation (player (gameAfter cosOne [fireFrame])) = GROUND /\
  y (player (gameAfter cosOne [fireFrame])) = maxYPosition.
Proof. repeat split. Qed.

(** ** updateScroll only moves the camera inside the window (C10) *)

Ltac in_window :=
  repeat match goal with
  | H : _ && _ = true |- _ => apply andb_prop in H; destruct H
  end;
  tests_to_props; auto.

Lemma motion_scrollsInWindow (km : KeyManager) (l r : bool) (dt : Q)
    (g : Game) :
  scrollsInWindow g (handleWalking l r dt g) /\
  scrollsInWindow g (handleAirMovement l r dt g) /\
  scrollsInWindow g (superJumpPhysics dt g) /\
  scrollsInWindow g (statePhysics km dt g).
Proof.
  destruct km as [kx kz kl kr kc kv], g as [p [sx sy sz] pl].
  destruct_player p. unfold scrollsInWindow, handleWalking, handleAirMovement.
  repeat split; steps; try reflexivity; try (left; reflexivity);
    right; in_window.
Qed.

(** C10.  [updateScroll(scrollDelta)] adds [scrollDelta] to the x component
    of the shared scroll offset exactly when [400 < x < 1200] for the
    player's [x]; for every other [x] the three components are unchanged.
    In both cases y and z keep their values and the player itself is not
    touched.  Walking, air control, the super jump and the dash move the
    camera through this function only, so they leave the scroll offset
    unchanged unless the player ends the step inside the window. *)
Theorem updateScroll_window (scrollDelta : Q) (g : Game) :
  player (updateScroll scrollDelta g) = player g /\
  ScrollOffset.y (scrollOffset (updateScroll scrollDelta g))
    = ScrollOffset.y (scrollOffset g) /\
  ScrollOffset.z (scrollOffset (updateScroll scrollDelta g))
    = ScrollOffset.z (scrollOffset g) /\
  (400 < x (player g) /\ x (player g) < 1200 ->
     ScrollOffset.x (scrollOffset (updateScroll scrollDelta g))
       = ScrollOffset.x (scrollOffset g) + scrollDelta) /\
  (~ (400 < x (player g) /\ x (player g) < 1200) ->
     scrollOffset (updateScroll scrollDelta g) = scrollOffset g) /\
  (forall (km : KeyManager) (l r : bool) (dt : Q),
     scrollsInWindow g (handleWalking l r dt g) /\
     scrollsInWindow g (handleAirMovement l r dt g) /\
     scrollsInWindow g (superJumpPhysics dt g) /\
     scrollsInWindow g (statePhysics km dt g)).
Proof.
  assert (M : forall (km : KeyManager) (l r : bool) (dt : Q),
     scrollsInWindow g (handleWalking l r dt g) /\
     scrollsInWindow g (handleAirMovement l r dt g) /\
     scrollsInWindow g (superJumpPhysics dt g) /\
     scrollsInWindow g (statePhysics km dt g))
    by (intros; apply motion_scrollsInWindow).
  revert M.
  unfold updateScroll.
  destruct (Qlt_bool 400 (x (player g))) eqn:E1;
    destruct (Qlt_bool (x (player g)) 1200) eqn:E2; simpl; intros M;
    (split; [ reflexivity | ]); (split; [ reflexivity | ]);
    (split; [ reflexivity | ]); (split; [ | split; [ | exact M ] ]);
    try reflexivity; intros C;
    try (exfalso; apply C; split; apply Qlt_bool_iff; assumption);
    try (destruct C as [C1 C2];
         apply Qlt_bool_iff in C1; apply Qlt_bool_iff in C2; congruence).
Qed.

(** ** What every frame of a run keeps, and the rules of the dash *)

Lemma updateAnimation_outcome (km : KeyManager) (dt : Q) (p : Player) :
  exists (e : AnimationEvent) (a : AnimName) (f : Z) (t : Q),
    eventAllowed e p /\
    updateAnimation km dt p = withClock a f t (applyEvent e p).
Proof.
  destruct km. destruct_player p; steps.
  all: first
    [ exists NoEvent; do 3 eexists; split; [ exact I | reflexivity ]
    | solve [ exfalso; decide_tests; destruct anim; decide_tests;
              destruct dph; decide_tests; destruct st; decide_tests ]
    | exists DashStartsMoving; do 3 eexists;
      split; [ | reflexivity ];
      decide_tests; destruct st; decide_tests; destruct anim; decide_tests;
      destruct dph; decide_tests; split; reflexivity
    | exists DashEnds; do 3 eexists;
      split; [ | reflexivity ];
      decide_tests; destruct st; decide_tests; destruct anim; decide_tests;
      destruct dph; decide_tests; split; reflexivity
    | exists AttackEnds; do 3 eexists;
      split;
      [ decide_tests; destruct st; decide_tests; destruct anim; decide_tests;
        reflexivity
      | run_stmts;
        repeat match goal with
        | H : ?c = _ |- context [?c] => rewrite H
        end;
        reflexivity ]
    | idtac ].
Qed.

Lemma stateMachine_grounding (cosT : Q -> Q) (km : KeyManager) (dt : Q)
    (g : Game) :
  groundedFlag (player g) ->
  (isOnGround (player (flowGame (stateMachine cosT km dt g))) = true ->
     maxYPosition <= y (player (flowGame (stateMachine cosT km dt g))) /\
     velocityY (player (flowGame (stateMachine cosT km dt g))) = 0) /\
  (isGroundStatus (status (player (flowGame (stateMachine cosT km dt g))))
     = true ->
   isOnGround (player (flowGame (stateMachine cosT km dt g))) = true).
Proof.
  destruct km as [kx kz kl kr kc kv], g as [p sc pl]; destruct_player p.
  unfold groundedFlag. simpl. intros [F1 F2].
  match goal with |- context [stateMachine ?c ?k ?d ?g] =>
    steps_on (stateMachine c k d g) end.
  all: repeat match goal with
       | |- context [handleWalking ?l ?r ?d ?g] =>
           let H := fresh "HW" in
           let H' := fresh "HP" in
           pose proof (handleWalking_frame l r d g) as H; run_stmts_in H;
           pose proof (handleWalking_position l r d g) as H';
           run_stmts_in H';
           generalize dependent (handleWalking l r d g); intros
       | |- context [handleAirMovement ?l ?r ?d ?g] =>
           let H := fresh "HA" in
           let H' := fresh "HP" in
           pose proof (handleAirMovement_frame l r d g) as H;
           unfold untouched in H; run_stmts_in H;
           pose proof (handleAirMovement_position l r d g) as H';
           run_stmts_in H';
           generalize dependent (handleAirMovement l r d g); intros
       end.
  all: repeat match goal with H : _ /\ _ |- _ => destruct H end.
  all: repeat match goal with
       | H : ?l = _ |- context [?l] => rewrite H
       end.
  all: try (assert (og = true) by (apply F2; reflexivity); subst og).
  all: try (destruct (F1 eq_refl); subst vy).
  all: split; intros; try discriminate; try (split; [ assumption | reflexivity ]);
    try reflexivity; try congruence.
  all: try (split; congruence).
  all: decide_tests.
  all: try (match goal with
            | F : ?o = true -> _ /\ _ |- _ /\ _ => apply F; assumption
            end).
  all: try (match goal with
            | H : ?o = true, F : ?o = true -> _ /\ ?v = 0 |- _ =>
                destruct (F H) as [? ?]; subst v
            end;
            match goal with H : Qlt_bool 0 0 = true |- _ =>
              discriminate H end).
  all: try (exfalso; tests_to_props; lra).
  all: try (exfalso;
            match goal with
            | H : ?o = true, F : ?o = true -> _ /\ _ = 0 |- _ =>
                let E := fresh "E" in
                destruct (F H) as [_ E]; rewrite E in *
            end; tests_to_props; lra).
  all: match goal with
       | |- ?o = true => destruct o; [ reflexivity | discriminate ]
       end.
Qed.

Lemma safetyResets_grounding (kx kz kl kr : bool) (p : Player) :
  y (safetyResets kx kz kl kr p) = y p /\
  velocityY (safetyResets kx kz kl kr p) = velocityY p /\
  isOnGround (safetyResets kx kz kl kr p) = isOnGround p /\
  (isGroundStatus (status (safetyResets kx kz kl kr p)) = true ->
     isGroundStatus (status p) = true \/ isOnGround p = true).
Proof.
  destruct_player p; steps; repeat split; try reflexivity; intros HG;
    first [ discriminate HG | left; exact HG | left; reflexivity
          | right; reflexivity ].
Qed.

Lemma groundDetection_grounding (g : Game) :
  y (player (groundDetection g)) = y (player g) /\
  velocityY (player (groundDetection g)) = velocityY (player g) /\
  status (player (groundDetection g)) = status (player g) /\
  isOnGround (player (groundDetection g))
    = Qle_bool maxYPosition (y (player g)).
Proof. stage_game g; assumption. Qed.

Lemma checkInput_grounding (cosT : Q -> Q) km tm g :
  grounded (player g) ->
  groundedMidFrame (player (checkInput cosT km tm g)).
Proof.
  intros (K1 & K2 & K3 & K4 & K5).
  destruct (isControlEnabled (player g)) eqn:HC.
  2:{ rewrite checkInput_disabled by assumption.
      intros HG. split; auto. }
  rewrite (checkInput_stages cosT km tm g HC).
  destruct (groundDetection_grounding g) as (D1 & D2 & D3 & D4).
  pose proof (resetKeyTracking_frame (isKeyDown km KEY_X) (isKeyDown km KEY_Z)
                (player (groundDetection g))) as R.
  destruct R as (_ & _ & _ & _ & R5 & R6 & R7 & R8 & _).
  pose proof (stateMachine_grounding cosT km (getTime tm)
                (groundDetection g
                 <~ resetKeyTracking (isKeyDown km KEY_X) (isKeyDown km KEY_Z)))
    as S.
  rewrite player_with_player in S.
  destruct S as [S1 S2].
  { unfold groundedFlag. rewrite R5, R6, R7, R8, D1, D2, D3, D4.
    split.
    - intros E. apply Qle_bool_iff in E. auto.
    - intros E. apply Qle_bool_iff. auto. }
  destruct (stateMachine cosT km (getTime tm) _) as [g'|g'];
    cbn [flowGame] in S1, S2.
  - intros HG. auto.
  - rewrite player_with_player.
    destruct (safetyResets_grounding (isKeyDown km KEY_X) (isKeyDown km KEY_Z)
                (isKeyDown km KEY_LEFT) (isKeyDown km KEY_RIGHT) (player g'))
      as (F1 & F2 & F3 & F4).
    intros HG. rewrite F1, F2.
    destruct (F4 HG) as [E|E]; auto.
Qed.

Lemma groundCollision_grounding (p : Player) :
  isOnGround (groundCollision p) = Qle_bool maxYPosition (y p) /\
  positionStation (groundCollision p)
    = (if Qle_bool maxYPosition (y p) then GROUND else AIR) /\
  (isGroundStatus (status (groundCollision p)) = true ->
     isGroundStatus (status p) = true \/ Qle_bool maxYPosition (y p) = true).
Proof.
  destruct_player p; steps;
    try (match goal with H : Qle_bool _ _ = _ |- _ => rewrite H end);
    repeat split; try reflexivity; intros HG;
    first [ discriminate HG | left; exact HG | left; reflexivity
          | right; reflexivity ].
Qed.

Lemma statePhysics_grounding (km : KeyManager) (dt : Q) (g : Game) :
  isGroundStatus (status (player (statePhysics km dt g))) = true ->
  isGroundStatus (status (player g)) = true.
Proof. destruct km. stage_game g. Qed.

Lemma screenBoundaries_flags (p : Player) :
  isOnGround (screenBoundaries p) = isOnGround p /\
  positionStation (screenBoundaries p) = positionStation p.
Proof. stage_player p. Qed.

Lemma updatePhysics_flags (km : KeyManager) (dt : Q) (g : Game) :
  isOnGround (player (updatePhysics km dt g))
    = Qle_bool maxYPosition
        (y (player g)
         + (if isOnGround (player g) then velocityY (player g)
            else Math_min (velocityY (player g) + gravity * dt)
                   maxFallSpeed) * dt) /\
  positionStation (player (updatePhysics km dt g))
    = (if Qle_bool maxYPosition
            (y (player g)
             + (if isOnGround (player g) then velocityY (player g)
                else Math_min (velocityY (player g) + gravity * dt)
                       maxFallSpeed) * dt)
       then GROUND else AIR) /\
  (isGroundStatus (status (player (updatePhysics km dt g))) = true ->
     isGroundStatus (status (player g)) = true
     \/ Qle_bool maxYPosition
          (y (player g)
           + (if isOnGround (player g) then velocityY (player g)
              else Math_min (velocityY (player g) + gravity * dt)
                     maxFallSpeed) * dt) = true).
Proof.
  rewrite updatePhysics_stages. rewrite !player_with_player. cbv beta.
  pose proof (applyGravity_frame dt (player g)) as G1.
  pose proof (superJumpPhysics_frame dt (g <~ applyGravity dt)) as G2.
  unfold untouched in G2. rewrite player_with_player in G2.
  pose proof (statePhysics_frame km dt
                (superJumpPhysics dt (g <~ applyGravity dt))) as G3.
  pose proof (statePhysics_grounding km dt
                (superJumpPhysics dt (g <~ applyGravity dt))) as G3'.
  set (p3 := player (statePhysics km dt
                       (superJumpPhysics dt (g <~ applyGravity dt)))) in *.
  pose proof (integrate_frame dt p3) as G4.
  set (p4 := set_y _ _) in *.
  pose proof (groundCollision_grounding p4) as G5.
  pose proof (screenBoundaries_frame (groundCollision p4)) as G6.
  pose proof (screenBoundaries_flags (groundCollision p4)) as G6'.
  unfold untouched in G6.
  set (p6 := screenBoundaries (groundCollision p4)) in *.
  assert (T : isOnGround
                (set_transform_position_y
                   (y (set_transform_position_x (x p6) p6))
                   (set_transform_position_x (x p6) p6)) = isOnGround p6 /\
              positionStation
                (set_transform_position_y
                   (y (set_transform_position_x (x p6) p6))
                   (set_transform_position_x (x p6) p6)) = positionStation p6 /\
              status
                (set_transform_position_y
                   (y (set_transform_position_x (x p6) p6))
                   (set_transform_position_x (x p6) p6)) = status p6)
    by (destruct p6; repeat split).
  destruct T as (T1 & T2 & T3).
  destruct G1 as (GA1 & GA2 & GA3 & GA4 & GA5 & GA6 & GA7 & GA8).
  destruct G2 as (B1 & B2 & B3 & B4 & B5 & B6 & B7 & B8).
  destruct G3 as (C1 & C2 & C3 & C4 & C5 & C6 & C7 & C8 & C9).
  destruct G4 as (D1 & D2 & D3 & D4 & D5 & D6 & D7 & D8).
  destruct G5 as (E1 & E2 & E3).
  destruct G6 as (F1 & F2 & F3 & F4 & F5 & F6 & F7 & F8).
  destruct G6' as (F9 & F10).
  assert (Y4 : y p4
               = y (player g)
                 + (if isOnGround (player g) then velocityY (player g)
                    else Math_min (velocityY (player g) + gravity * dt)
                           maxFallSpeed) * dt).
  { rewrite D8, C7, C6, B8, B6, GA7, GA8. reflexivity. }
  rewrite <- Y4, T1, T2, T3, F9, F10, F7.
  split; [ exact E1 | ]. split; [ exact E2 | ].
  intros HG. destruct (E3 HG) as [E|E]; [ left | right; exact E ].
  rewrite D7 in E. specialize (G3' E). rewrite B7, GA6 in G3'. exact G3'.
Qed.

Lemma updatePhysics_grounding (km : KeyManager) (dt : Q) (g : Game) :
  groundedMidFrame (player g) -> grounded (player (updatePhysics km dt g)).
Proof.
  intros M.
  destruct (updatePhysics_position km dt g) as (PY & _).
  destruct (updatePhysics_frame km dt g) as (_ & _ & _ & _ & _ & _ & _ & PV).
  destruct (updatePhysics_flags km dt g) as (PF & PP & PS).
  unfold grounded. rewrite PY, PV, PF, PP.
  destruct (Qle_bool maxYPosition
              (y (player g)
               + (if isOnGround (player g) then velocityY (player g)
                  else Math_min (velocityY (player g) + gravity * dt)
                         maxFallSpeed) * dt)) eqn:E.
  - split; [ apply Qle_refl | ].
    split; [ reflexivity | ].
    split; [ symmetry; apply Qle_bool_iff; apply Qle_refl | ].
    split; [ reflexivity | ].
    intros _. apply Qle_refl.
  - pose proof E as E'. apply Qle_bool_false_iff in E'.
    split; [ lra | ].
    split; [ intros L; exfalso; lra | ].
    split; [ symmetry; exact E | ].
    split; [ reflexivity | ].
    intros HG. exfalso.
    destruct (PS HG) as [G|G]; [ | discriminate G ].
    destruct (M G) as [MY MV]. rewrite MV in E'.
    destruct (isOnGround (player g)).
    + lra.
    + unfold Math_min, gravity, maxFallSpeed in E'.
      destruct (Qle_bool (0 + 300 * dt) 400) eqn:E2.
      * assert (0 <= dt * dt) by nra. nra.
      * apply Qle_bool_false_iff in E2. nra.
Qed.

Lemma withClock_applyEvent_position (e : AnimationEvent) (a : AnimName)
    (f : Z) (t : Q) (p : Player) :
  x (withClock a f t (applyEvent e p)) = x p /\
  y (withClock a f t (applyEvent e p)) = y p /\
  velocityX (withClock a f t (applyEvent e p)) = velocityX p /\
  velocityY (withClock a f t (applyEvent e p)) = velocityY p /\
  isOnGround (withClock a f t (applyEvent e p)) = isOnGround p /\
  positionStation (withClock a f t (applyEvent e p)) = positionStation p /\
  transform_position_x (withClock a f t (applyEvent e p))
    = transform_position_x p /\
  transform_position_y (withClock a f t (applyEvent e p))
    = transform_position_y p /\
  status (withClock a f t (applyEvent e p)) = status (applyEvent e p).
Proof. destruct e, p; repeat split. Qed.

Lemma updateAnimation_grounding (km : KeyManager) (dt : Q) (p : Player) :
  y (updateAnimation km dt p) = y p /\
  velocityY (updateAnimation km dt p) = velocityY p /\
  isOnGround (updateAnimation km dt p) = isOnGround p /\
  positionStation (updateAnimation km dt p) = positionStation p /\
  (isGroundStatus (status (updateAnimation km dt p)) = true ->
     isGroundStatus (status p) = true \/ isOnGround p = true).
Proof.
  destruct (updateAnimation_outcome km dt p) as (e & a & f & t & L & E).
  rewrite E.
  destruct (withClock_applyEvent_position e a f t p)
    as (_ & P2 & _ & P4 & P5 & P6 & _ & _ & P9).
  rewrite P2, P4, P5, P6, P9.
  repeat (split; [ reflexivity | ]).
  destruct e; cbn [eventAllowed] in L.
  - intros HG. left. exact HG.
  - destruct L as [L _]. rewrite L. intros _. left. reflexivity.
  - destruct L as [L _]. rewrite L. intros _. left. reflexivity.
  - destruct_player p; cbn in *. destruct st; try discriminate L;
      destruct og; cbn; intros HG; auto; discriminate HG.
Qed.

Lemma updateAnimation_grounded (km : KeyManager) (dt : Q) (p : Player) :
  grounded p -> grounded (updateAnimation km dt p).
Proof.
  intros (K1 & K2 & K3 & K4 & K5).
  destruct (updateAnimation_grounding km dt p) as (A1' & A2' & A3' & A4' & A5').
  unfold grounded. rewrite A1', A2', A3', A4'.
  repeat (split; [ assumption | ]).
  intros HG. destruct (A5' HG) as [E|E]; [ auto | ].
  rewrite K3 in E. apply Qle_bool_iff. exact E.
Qed.

Lemma grounded_midFrame (p : Player) : grounded p -> groundedMidFrame p.
Proof. intros (K1 & K2 & K3 & K4 & K5) HG. split; auto. Qed.

Lemma transform_grounded (p : Player) :
  grounded p ->
  grounded
    (set_transform_position_y (y (set_transform_position_x (x p) p))
       (set_transform_position_x (x p) p)).
Proof. destruct p. exact (fun H => H). Qed.

Lemma update_grounded (cosT : Q -> Q) km tm dt g :
  grounded (player g) -> grounded (player (update cosT km tm dt g)).
Proof.
  intros B.
  destruct (destroyed (player g)) eqn:HD.
  - rewrite update_destroyed by assumption. exact B.
  - rewrite (update_stages cosT km tm dt g HD).
    unfold GameObject_update.
    set (g4 := _ <~ _ <~ _ <~ _).
    assert (B4 : grounded (player g4)).
    { unfold g4. rewrite !player_with_player. cbv beta.
      apply transform_grounded, updateAnimation_grounded,
        updatePhysics_grounding.
      destruct (isControlEnabled (player g)).
      + apply checkInput_grounding. exact B.
      + apply grounded_midFrame. exact B. }
    destruct (negb (active (player g4)) || destroyed (player g4));
      [ exact B4 | ].
    rewrite strict_Game_eq.
    apply updatePhysics_grounding, grounded_midFrame.
    rewrite player_with_player. apply updateAnimation_grounded. exact B4.
Qed.

Lemma gameAfter_grounded (cosT : Q -> Q) (history : list FrameInput) :
  grounded (player (gameAfter cosT history)).
Proof.
  unfold gameAfter.
  assert (G : forall fs g, grounded (player g) ->
            grounded (player (runFrames cosT fs g))).
  { intros fs. induction fs as [|f rest IH]; intros g B; cbn; [ exact B | ].
    apply IH, update_grounded. exact B. }
  apply G. unfold grounded.
  split; [ apply Qle_bool_iff; reflexivity | ].
  split; [ reflexivity | ].
  split; [ reflexivity | ].
  split; [ reflexivity | ].
  intros _. apply Qle_bool_iff; reflexivity.
Qed.

Lemma handleWalking_status (l r : bool) (dt : Q) (g : Game) :
  (status (player (handleWalking l r dt g)) = WALK
   \/ status (player (handleWalking l r dt g)) = IDLE
   \/ status (player (handleWalking l r dt g)) = status (player g)) /\
  isDashing (player (handleWalking l r dt g)) = isDashing (player g) /\
  dashPhase (player (handleWalking l r dt g)) = dashPhase (player g) /\
  canDashAgain (player (handleWalking l r dt g)) = canDashAgain (player g) /\
  attackTimer (player (handleWalking l r dt g)) = attackTimer (player g).
Proof.
  unfold handleWalking. destruct g as [p sc pl]; destruct_player p; steps;
    repeat split; auto.
Qed.

Lemma handleAirMovement_status (l r : bool) (dt : Q) (g : Game) :
  isDashing (player (handleAirMovement l r dt g)) = isDashing (player g) /\
  dashPhase (player (handleAirMovement l r dt g)) = dashPhase (player g) /\
  canDashAgain (player (handleAirMovement l r dt g))
    = canDashAgain (player g).
Proof. unfold handleAirMovement. stage_game g. Qed.

(** Replace the calls of the movement helpers by the listed facts. *)
Ltac movement_facts :=
  repeat match goal with
  | |- context [handleWalking ?l ?r ?d ?g] =>
      let H := fresh "HW" in
      let H' := fresh "HS" in
      pose proof (handleWalking_frame l r d g) as H; run_stmts_in H;
      pose proof (handleWalking_status l r d g) as H'; run_stmts_in H';
      generalize dependent (handleWalking l r d g); intros
  | |- context [handleAirMovement ?l ?r ?d ?g] =>
      let H := fresh "HA" in
      let H' := fresh "HS" in
      pose proof (handleAirMovement_frame l r d g) as H;
      unfold untouched in H; run_stmts_in H;
      pose proof (handleAirMovement_status l r d g) as H'; run_stmts_in H';
      generalize dependent (handleAirMovement l r d g); intros
  end;
  repeat match goal with H : _ /\ _ |- _ => destruct H end;
  repeat match goal with
  | H : ?l = _ |- context [?l] => rewrite H
  end.

Lemma stateMachine_status (cosT : Q -> Q) (km : KeyManager) (dt : Q)
    (g : Game) :
  isPlayerStatus (status (player g)) = true ->
  isPlayerStatus (status (player (flowGame (stateMachine cosT km dt g))))
    = true.
Proof.
  destruct km as [kx kz kl kr kc kv], g as [p sc pl]; destruct_player p.
  simpl. intros HS.
  match goal with |- context [stateMachine ?c ?k ?d ?g] =>
    steps_on (stateMachine c k d g) end.
  all: try discriminate HS; try reflexivity.
  all: movement_facts.
  all: try reflexivity.
  all: repeat match goal with H : _ \/ _ |- _ => destruct H end.
  all: repeat match goal with
       | H : ?l = _ |- context [?l] => rewrite H
       end; try reflexivity.
Qed.

Lemma safetyResets_status (kx kz kl kr : bool) (p : Player) :
  isPlayerStatus (status p) = true ->
  isPlayerStatus (status (safetyResets kx kz kl kr p)) = true.
Proof.
  destruct_player p; simpl; intros HS; steps; try exact HS; reflexivity.
Qed.

Lemma checkInput_status (cosT : Q -> Q) km tm g :
  isPlayerStatus (status (player g)) = true ->
  isPlayerStatus (status (player (checkInput cosT km tm g))) = true.
Proof.
  intros HS.
  destruct (isControlEnabled (player g)) eqn:HC;
    [| rewrite checkInput_disabled by assumption; exact HS ].
  rewrite (checkInput_stages cosT km tm g HC).
  destruct (groundDetection_grounding g) as (_ & _ & D3 & _).
  pose proof (resetKeyTracking_frame (isKeyDown km KEY_X) (isKeyDown km KEY_Z)
                (player (groundDetection g))) as R.
  destruct R as (_ & _ & _ & _ & _ & R6 & _).
  pose proof (stateMachine_status cosT km (getTime tm)
                (groundDetection g
                 <~ resetKeyTracking (isKeyDown km KEY_X) (isKeyDown km KEY_Z)))
    as S.
  rewrite player_with_player, R6, D3 in S. specialize (S HS).
  destruct (stateMachine cosT km (getTime tm) _) as [g'|g'];
    cbn [flowGame] in S; [ exact S | ].
  rewrite player_with_player. apply safetyResets_status. exact S.
Qed.

Lemma statePhysics_status (km : KeyManager) (dt : Q) (g : Game) :
  isPlayerStatus (status (player g)) = true ->
  isPlayerStatus (status (player (statePhysics km dt g))) = true.
Proof.
  destruct km, g as [p sc pl]; destruct_player p; simpl; intros HS; steps;
    try exact HS; reflexivity.
Qed.

Lemma groundCollision_status (p : Player) :
  isPlayerStatus (status p) = true ->
  isPlayerStatus (status (groundCollision p)) = true.
Proof.
  destruct_player p; simpl; intros HS; steps; try exact HS; reflexivity.
Qed.

Lemma updatePhysics_through (km : KeyManager) (dt : Q) (g : Game) :
  exists p4 : Player,
    status p4
      = status (player (statePhysics km dt
                          (superJumpPhysics dt (g <~ applyGravity dt)))) /\
    player (updatePhysics km dt g)
      = set_transform_position_y
          (y (set_transform_position_x
                (x (screenBoundaries (groundCollision p4)))
                (screenBoundaries (groundCollision p4))))
          (set_transform_position_x
             (x (screenBoundaries (groundCollision p4)))
             (screenBoundaries (groundCollision p4))).
Proof.
  rewrite updatePhysics_stages. rewrite !player_with_player. cbv beta.
  eexists. split; [ | reflexivity ].
  destruct (player (statePhysics km dt _)); reflexivity.
Qed.

Lemma updatePhysics_status (km : KeyManager) (dt : Q) (g : Game) :
  isPlayerStatus (status (player g)) = true ->
  isPlayerStatus (status (player (updatePhysics km dt g))) = true.
Proof.
  intros HS.
  destruct (updatePhysics_through km dt g) as (p4 & E4 & E).
  rewrite E.
  assert (S4 : isPlayerStatus (status p4) = true).
  { rewrite E4. apply statePhysics_status.
    destruct (superJumpPhysics_frame dt (g <~ applyGravity dt))
      as (_ & _ & _ & _ & _ & _ & U & _).
    rewrite U, player_with_player.
    destruct (applyGravity_frame dt (player g))
      as (_ & _ & _ & _ & _ & G & _).
    rewrite G. exact HS. }
  pose proof (groundCollision_status p4 S4) as S5.
  destruct (screenBoundaries_frame (groundCollision p4))
    as (_ & _ & _ & _ & _ & _ & S6 & _).
  destruct (transform_frame (screenBoundaries (groundCollision p4)))
    as (_ & _ & _ & _ & _ & _ & S7 & _).
  rewrite S7, S6. exact S5.
Qed.

Lemma updateAnimation_status (km : KeyManager) (dt : Q) (p : Player) :
  isPlayerStatus (status p) = true ->
  isPlayerStatus (status (updateAnimation km dt p)) = true.
Proof.
  intros HS.
  destruct (updateAnimation_outcome km dt p) as (e & a & f & t & L & E).
  rewrite E.
  destruct (withClock_applyEvent_position e a f t p)
    as (_ & _ & _ & _ & _ & _ & _ & _ & P9).
  rewrite P9.
  destruct_player p; destruct e; cbn in *; try exact HS; try reflexivity.
  destruct (STATUS_beq st JUMPATTACK && negb og); reflexivity.
Qed.

(** A property of the player that every stage of [update] keeps holds in
    every state of a run. *)
Lemma update_keeps (P : Player -> Prop) (cosT : Q -> Q) :
  (forall km tm g, P (player g) -> P (player (checkInput cosT km tm g))) ->
  (forall km dt g, P (player g) -> P (player (updatePhysics km dt g))) ->
  (forall km dt p, P p -> P (updateAnimation km dt p)) ->
  (forall p, P p ->
     P (set_transform_position_y (y (set_transform_position_x (x p) p))
          (set_transform_position_x (x p) p))) ->
  forall km tm dt g, P (player g) -> P (player (update cosT km tm dt g)).
Proof.
  intros HC HP HA HT km tm dt g B.
  destruct (destroyed (player g)) eqn:HD.
  - rewrite update_destroyed by assumption. exact B.
  - rewrite (update_stages cosT km tm dt g HD).
    unfold GameObject_update.
    set (g4 := _ <~ _ <~ _ <~ _).
    assert (B4 : P (player g4)).
    { unfold g4. rewrite !player_with_player. cbv beta.
      apply HT, HA, HP.
      destruct (isControlEnabled (player g)); [ apply HC | ]; exact B. }
    destruct (negb (active (player g4)) || destroyed (player g4));
      [ exact B4 | ].
    rewrite strict_Game_eq. apply HP.
    rewrite player_with_player. apply HA. exact B4.
Qed.

Lemma gameAfter_keeps (P : Player -> Prop) (cosT : Q -> Q) :
  (forall km tm dt g, P (player g) -> P (player (update cosT km tm dt g))) ->
  P (player newGame) ->
  forall history, P (player (gameAfter cosT history)).
Proof.
  intros HU H0 history. unfold gameAfter.
  assert (G : forall fs g, P (player g) -> P (player (runFrames cosT fs g))).
  { intros fs. induction fs as [|f rest IH]; intros g B; cbn; [ exact B | ].
    apply IH, HU. exact B. }
  apply G. exact H0.
Qed.

Lemma gameAfter_status (cosT : Q -> Q) (history : list FrameInput) :
  isPlayerStatus (status (player (gameAfter cosT history))) = true.
Proof.
  apply (gameAfter_keeps (fun p => isPlayerStatus (status p) = true)).
  - apply (update_keeps (fun p => isPlayerStatus (status p) = true)).
    + intros; apply checkInput_status; assumption.
    + intros; apply updatePhysics_status; assumption.
    + intros; apply updateAnimation_status; assumption.
    + intros p; destruct p; exact (fun H => H).
  - reflexivity.
Qed.

(** Dash consistency, stage by stage. *)

Ltac dash_cases p :=
  destruct_player p; intros HD; unfold dashConsistent in HD;
  run_stmts_in HD; unfold dashConsistent;
  match goal with s : STATUS |- _ => destruct s end;
  repeat match goal with
  | H : _ /\ _ |- _ => destruct H
  | H : _ \/ _ |- _ => destruct H
  end; subst.

Ltac dash_leaf :=
  decide_tests;
  repeat match goal with H : _ /\ _ |- _ => destruct H end;
  repeat match goal with H : _ \/ _ |- _ => destruct H end;
  repeat match goal with
  | H : ?l = _ |- context [?l] => rewrite H
  end;
  repeat split; auto; try congruence; try discriminate;
  try solve [ exfalso; refute_tests ].

Lemma groundDetection_dash (g : Game) :
  dashConsistent (player g) -> dashConsistent (player (groundDetection g)).
Proof.
  destruct g as [p sc pl]. dash_cases p; steps; dash_leaf.
Qed.

Lemma resetKeyTracking_dash (kx kz : bool) (p : Player) :
  dashConsistent p -> dashConsistent (resetKeyTracking kx kz p).
Proof. dash_cases p; steps; dash_leaf. Qed.

Lemma safetyResets_dash (kx kz kl kr : bool) (p : Player) :
  dashConsistent p -> dashConsistent (safetyResets kx kz kl kr p).
Proof. dash_cases p; steps; dash_leaf. Qed.

Lemma stateMachine_dash (cosT : Q -> Q) (km : KeyManager) (dt : Q)
    (g : Game) :
  dashConsistent (player g) ->
  dashConsistent (player (flowGame (stateMachine cosT km dt g))).
Proof.
  destruct km as [kx kz kl kr kc kv], g as [p sc pl]. dash_cases p.
  all: match goal with |- context [stateMachine ?c ?k ?d ?g] =>
    steps_on (stateMachine c k d g) end.
  all: try (dash_leaf; fail).
  all: movement_facts.
  all: dash_leaf.
Qed.

Lemma dashConsistent_ext (p q : Player) :
  status q = status p -> isDashing q = isDashing p ->
  dashPhase q = dashPhase p -> canDashAgain q = canDashAgain p ->
  dashConsistent p -> dashConsistent q.
Proof.
  unfold dashConsistent. intros E1 E2 E3 E4. rewrite E1, E2, E3, E4.
  exact (fun H => H).
Qed.

Lemma checkInput_dash (cosT : Q -> Q) km tm g :
  dashConsistent (player g) ->
  dashConsistent (player (checkInput cosT km tm g)).
Proof.
  intros HD.
  destruct (isControlEnabled (player g)) eqn:HC;
    [| rewrite checkInput_disabled by assumption; exact HD ].
  rewrite (checkInput_stages cosT km tm g HC).
  pose proof (stateMachine_dash cosT km (getTime tm)
                (groundDetection g
                 <~ resetKeyTracking (isKeyDown km KEY_X) (isKeyDown km KEY_Z)))
    as S.
  rewrite player_with_player in S.
  specialize (S (resetKeyTracking_dash _ _ _ (groundDetection_dash g HD))).
  destruct (stateMachine cosT km (getTime tm) _) as [g'|g'];
    cbn [flowGame] in S; [ exact S | ].
  rewrite player_with_player. apply safetyResets_dash. exact S.
Qed.

Lemma applyGravity_dash (dt : Q) (p : Player) :
  status (applyGravity dt p) = status p /\
  isDashing (applyGravity dt p) = isDashing p /\
  dashPhase (applyGravity dt p) = dashPhase p /\
  canDashAgain (applyGravity dt p) = canDashAgain p.
Proof. stage_player p. Qed.

Lemma superJumpPhysics_dash (dt : Q) (g : Game) :
  status (player (superJumpPhysics dt g)) = status (player g) /\
  isDashing (player (superJumpPhysics dt g)) = isDashing (player g) /\
  dashPhase (player (superJumpPhysics dt g)) = dashPhase (player g) /\
  canDashAgain (player (superJumpPhysics dt g)) = canDashAgain (player g).
Proof. stage_game g. Qed.

Lemma screenBoundaries_dash (p : Player) :
  status (screenBoundaries p) = status p /\
  isDashing (screenBoundaries p) = isDashing p /\
  dashPhase (screenBoundaries p) = dashPhase p /\
  canDashAgain (screenBoundaries p) = canDashAgain p.
Proof. stage_player p. Qed.

Lemma statePhysics_dash (km : KeyManager) (dt : Q) (g : Game) :
  dashConsistent (player g) -> dashConsistent (player (statePhysics km dt g)).
Proof.
  destruct km, g as [p sc pl]. dash_cases p; steps; dash_leaf.
Qed.

Lemma groundCollision_dash (p : Player) :
  dashConsistent p -> dashConsistent (groundCollision p).
Proof. dash_cases p; steps; dash_leaf. Qed.

Lemma updatePhysics_dash (km : KeyManager) (dt : Q) (g : Game) :
  dashConsistent (player g) ->
  dashConsistent (player (updatePhysics km dt g)).
Proof.
  intros HD.
  rewrite updatePhysics_stages. rewrite !player_with_player. cbv beta.
  set (g3 := statePhysics km dt (superJumpPhysics dt (g <~ applyGravity dt))).
  assert (D3 : dashConsistent (player g3)).
  { apply statePhysics_dash.
    destruct (superJumpPhysics_dash dt (g <~ applyGravity dt))
      as (S1 & S2 & S3 & S4).
    apply (dashConsistent_ext _ _ S1 S2 S3 S4).
    rewrite player_with_player.
    destruct (applyGravity_dash dt (player g)) as (A1' & A2' & A3' & A4').
    apply (dashConsistent_ext _ _ A1' A2' A3' A4'). exact HD. }
  set (p4 := set_y _ _).
  assert (D4 : dashConsistent p4).
  { unfold p4. destruct (player g3); exact D3. }
  pose proof (groundCollision_dash p4 D4) as D5.
  destruct (screenBoundaries_dash (groundCollision p4)) as (B1 & B2 & B3 & B4).
  pose proof (dashConsistent_ext _ _ B1 B2 B3 B4 D5) as D6.
  destruct (screenBoundaries (groundCollision p4)); exact D6.
Qed.

Lemma updateAnimation_dash (km : KeyManager) (dt : Q) (p : Player) :
  dashConsistent p -> dashConsistent (updateAnimation km dt p).
Proof.
  intros HD.
  destruct (updateAnimation_outcome km dt p) as (e & a & f & t & L & E).
  rewrite E. clear E.
  destruct e; cbn [eventAllowed] in L.
  - destruct p; exact HD.
  - destruct L as [L1 L2]. destruct p; cbn in *. subst.
    unfold dashConsistent in *; cbn in *.
    destruct HD as (H1 & H2 & _). auto.
  - destruct p; unfold dashConsistent; cbn. auto.
  - destruct_player p; unfold dashConsistent in *; cbn in *.
    destruct st; try discriminate L; destruct og; cbn; exact HD.
Qed.

Lemma gameAfter_dashConsistent (cosT : Q -> Q) (history : list FrameInput) :
  dashConsistent (player (gameAfter cosT history)).
Proof.
  apply (gameAfter_keeps dashConsistent).
  - apply (update_keeps dashConsistent).
    + intros; apply checkInput_dash; assumption.
    + intros; apply updatePhysics_dash; assumption.
    + intros; apply updateAnimation_dash; assumption.
    + intros p; destruct p; exact (fun H => H).
  - split; reflexivity.
Qed.

Lemma screenBoundaries_onScreen (p : Player) :
  20 <= x (screenBoundaries p) /\ x (screenBoundaries p) <= 780 /\
  y (screenBoundaries p) = y p.
Proof.
  destruct_player p; steps; tests_to_props; repeat split;
    try reflexivity; lra.
Qed.

Lemma updatePhysics_onScreen (km : KeyManager) (dt : Q) (g : Game) :
  onScreen (player (updatePhysics km dt g)).
Proof.
  destruct (updatePhysics_through km dt g) as (p4 & _ & E). rewrite E.
  destruct (screenBoundaries_onScreen (groundCollision p4)) as (B1 & B2 & _).
  destruct (screenBoundaries (groundCollision p4)). cbn in *.
  repeat split; assumption.
Qed.

Lemma updateAnimation_onScreen (km : KeyManager) (dt : Q) (p : Player) :
  onScreen p -> onScreen (updateAnimation km dt p).
Proof.
  intros HS.
  destruct (updateAnimation_outcome km dt p) as (e & a & f & t & L & E).
  rewrite E.
  destruct (withClock_applyEvent_position e a f t p)
    as (P1 & P2 & _ & _ & _ & _ & P7 & P8 & _).
  unfold onScreen. rewrite P1, P2, P7, P8. exact HS.
Qed.

Lemma stateMachine_timer (cosT : Q -> Q) (km : KeyManager) (dt : Q)
    (g : Game) :
  timerInRange (player g) ->
  timerInRange (player (flowGame (stateMachine cosT km dt g))).
Proof.
  destruct km as [kx kz kl kr kc kv], g as [p sc pl]; destruct_player p.
  unfold timerInRange. intros HT. run_stmts_in HT. destruct HT as [T1 T2].
  match goal with |- context [stateMachine ?c ?k ?d ?g] =>
    steps_on (stateMachine c k d g) end.
  all: movement_facts.
  all: repeat match goal with H : _ \/ _ |- _ => destruct H end.
  all: repeat match goal with
       | H : ?l = _ |- context [?l] => rewrite H
       end.
  all: tests_to_props.
  all: split; [ | intros HN; try discriminate HN; try reflexivity;
                  try (apply T2; reflexivity) ].
  all: try assumption.
  all: try (apply Qlt_bool_iff; reflexivity).
  all: try (rewrite T2 by reflexivity; apply Qlt_bool_iff; reflexivity).
Qed.

Lemma safetyResets_timer (kx kz kl kr : bool) (p : Player) :
  timerInRange p -> timerInRange (safetyResets kx kz kl kr p).
Proof.
  destruct_player p. unfold timerInRange. intros HT. run_stmts_in HT.
  destruct HT as [T1 T2]. steps.
  all: split; [ assumption | ]; try exact T2.
  all: intros _; apply T2.
  all: try reflexivity.
  all: try solve [ exfalso; decide_tests; refute_tests ].
  all: try (match goal with s : STATUS |- _ => destruct s end;
            try reflexivity; exfalso; decide_tests; refute_tests).
Qed.

Lemma timerInRange_ext (p q : Player) :
  status q = status p -> attackTimer q = attackTimer p ->
  timerInRange p -> timerInRange q.
Proof.
  unfold timerInRange. intros E1 E2. rewrite E1, E2. exact (fun H => H).
Qed.

Lemma checkInput_timer (cosT : Q -> Q) km tm g :
  timerInRange (player g) ->
  timerInRange (player (checkInput cosT km tm g)).
Proof.
  intros HT.
  destruct (isControlEnabled (player g)) eqn:HC;
    [| rewrite checkInput_disabled by assumption; exact HT ].
  rewrite (checkInput_stages cosT km tm g HC).
  destruct (groundDetection_frame g) as [U _]; unfold untouched in U.
  destruct U as (_ & _ & _ & U4 & _ & _ & U7 & _).
  pose proof (resetKeyTracking_frame (isKeyDown km KEY_X) (isKeyDown km KEY_Z)
                (player (groundDetection g))) as R.
  destruct R as (_ & _ & _ & R4 & _ & R6 & _).
  pose proof (stateMachine_timer cosT km (getTime tm)
                (groundDetection g
                 <~ resetKeyTracking (isKeyDown km KEY_X) (isKeyDown km KEY_Z)))
    as S.
  rewrite player_with_player in S.
  assert (T0 : timerInRange
                 (resetKeyTracking (isKeyDown km KEY_X) (isKeyDown km KEY_Z)
                    (player (groundDetection g)))).
  { apply (timerInRange_ext (player g)); [ congruence | congruence | exact HT ]. }
  specialize (S T0).
  destruct (stateMachine cosT km (getTime tm) _) as [g'|g'];
    cbn [flowGame] in S; [ exact S | ].
  rewrite player_with_player. apply safetyResets_timer. exact S.
Qed.

Lemma updatePhysics_timer (km : KeyManager) (dt : Q) (g : Game) :
  timerInRange (player g) -> timerInRange (player (updatePhysics km dt g)).
Proof.
  intros [T1 T2].
  destruct (updatePhysics_frame km dt g) as (_ & _ & _ & P4 & _ & _ & P7 & _).
  unfold timerInRange. rewrite P4. split; [ exact T1 | ].
  intros HN. apply T2.
  destruct (isAttackStatus (status (player g))) eqn:E; [ | reflexivity ].
  rewrite P7 in HN by (left; reflexivity). congruence.
Qed.

Lemma updateAnimation_timer (km : KeyManager) (dt : Q) (p : Player) :
  timerInRange p -> timerInRange (updateAnimation km dt p).
Proof.
  intros [T1 T2].
  destruct (updateAnimation_outcome km dt p) as (e & a & f & t & L & E).
  rewrite E. clear E. unfold timerInRange.
  destruct e; cbn [eventAllowed] in L.
  - destruct p; cbn in *. auto.
  - destruct p; cbn in *. auto.
  - destruct L as [L1 L2]. destruct p; cbn in *. subst.
    split; [ exact T1 | ]. intros _. apply T2. reflexivity.
  - destruct p; cbn in *.
    split; [ apply Qlt_bool_iff; reflexivity | reflexivity ].
Qed.

Lemma gameAfter_onScreen (cosT : Q -> Q) (history : list FrameInput) :
  onScreen (player (gameAfter cosT history)).
Proof.
  apply (gameAfter_keeps onScreen).
  - intros km tm dt g B.
    destruct (destroyed (player g)) eqn:HD.
    + rewrite update_destroyed by assumption. exact B.
    + rewrite (update_stages cosT km tm dt g HD).
      unfold GameObject_update.
      set (g4 := _ <~ _ <~ _ <~ _).
      assert (B4 : onScreen (player g4)).
      { unfold g4. rewrite !player_with_player. cbv beta.
        pose proof (updateAnimation_onScreen km dt _
                      (updatePhysics_onScreen km dt
                         (if isControlEnabled (player g)
                          then checkInput cosT km tm g else g))) as A.
        destruct (updateAnimation km dt _).
        destruct A as (A1' & A2' & _ & _). unfold onScreen. cbn in *.
        repeat split; assumption. }
      destruct (negb (active (player g4)) || destroyed (player g4));
        [ exact B4 | ].
      rewrite strict_Game_eq. apply updatePhysics_onScreen.
  - unfold onScreen. repeat split; try reflexivity;
      apply Qle_bool_iff; reflexivity.
Qed.

Lemma scrollOffset_with_player (f : Player -> Player) (g : Game) :
  scrollOffset (g <~ f) = scrollOffset g.
Proof. reflexivity. Qed.

Lemma groundDetection_camera (g : Game) :
  scrollOffset (groundDetection g) = scrollOffset g.
Proof. destruct g as [p sc pl]; destruct_player p; steps; reflexivity. Qed.

Lemma scrollsInWindow_camera (g g' : Game) :
  scrollsInWindow g g' -> cameraInRange g -> cameraInRange g'.
Proof.
  unfold scrollsInWindow, cameraInRange. intros (E1 & E2 & _) [C1 C2].
  rewrite E1, E2. auto.
Qed.

Lemma Math_min_le_l (a b : Q) : Math_min a b <= a.
Proof.
  unfold Math_min. destruct (Qle_bool a b) eqn:E.
  - apply Qle_refl.
  - apply Qle_bool_false_iff in E. lra.
Qed.

Lemma stateMachine_camera (cosT : Q -> Q) (km : KeyManager) (dt : Q)
    (g : Game) :
  cameraInRange g ->
  cameraInRange (flowGame (stateMachine cosT km dt g)).
Proof.
  destruct km as [kx kz kl kr kc kv], g as [p [sx sy sz] pl];
    destruct_player p.
  unfold cameraInRange. intros HC. run_stmts_in HC. destruct HC as [C1 C2].
  match goal with |- context [stateMachine ?c ?k ?d ?g] =>
    steps_on (stateMachine c k d g) end.
  all: repeat match goal with
       | |- context [handleWalking ?l ?r ?d ?g] =>
           let H := fresh "HW" in
           destruct (motion_scrollsInWindow (mkKeys kx kz kl kr kc kv) l r d g)
             as (H & _);
           unfold scrollsInWindow in H; run_stmts_in H;
           generalize dependent (handleWalking l r d g); intros
       | |- context [handleAirMovement ?l ?r ?d ?g] =>
           let H := fresh "HA" in
           destruct (motion_scrollsInWindow (mkKeys kx kz kl kr kc kv) l r d g)
             as (_ & H & _);
           unfold scrollsInWindow in H; run_stmts_in H;
           generalize dependent (handleAirMovement l r d g); intros
       end.
  all: repeat match goal with H : _ /\ _ |- _ => destruct H end.
  all: repeat match goal with
       | H : ?l = _ |- context [?l] => rewrite H
       end.
  all: split; try assumption; try reflexivity.
  all: apply Math_min_le_r.
Qed.

Lemma checkInput_camera (cosT : Q -> Q) km tm g :
  cameraInRange g -> cameraInRange (checkInput cosT km tm g).
Proof.
  intros HC.
  destruct (isControlEnabled (player g)) eqn:E;
    [| rewrite checkInput_disabled by assumption; exact HC ].
  rewrite (checkInput_stages cosT km tm g E).
  pose proof (stateMachine_camera cosT km (getTime tm)
                (groundDetection g
                 <~ resetKeyTracking (isKeyDown km KEY_X) (isKeyDown km KEY_Z)))
    as S.
  assert (C0 : cameraInRange
                 (groundDetection g
                  <~ resetKeyTracking (isKeyDown km KEY_X)
                       (isKeyDown km KEY_Z))).
  { unfold cameraInRange.
    rewrite scrollOffset_with_player, groundDetection_camera. exact HC. }
  specialize (S C0).
  destruct (stateMachine cosT km (getTime tm) _) as [g'|g'];
    cbn [flowGame] in S; exact S.
Qed.

Lemma updatePhysics_camera (km : KeyManager) (dt : Q) (g : Game) :
  cameraInRange g -> cameraInRange (updatePhysics km dt g).
Proof.
  intros HC. rewrite updatePhysics_stages.
  unfold cameraInRange. rewrite !scrollOffset_with_player.
  destruct (motion_scrollsInWindow km false false dt
              (superJumpPhysics dt (g <~ applyGravity dt)))
    as (_ & _ & _ & S3).
  destruct (motion_scrollsInWindow km false false dt (g <~ applyGravity dt))
    as (_ & _ & S2 & _).
  apply (scrollsInWindow_camera _ _ S3), (scrollsInWindow_camera _ _ S2).
  exact HC.
Qed.

Lemma update_camera (cosT : Q -> Q) km tm dt g :
  cameraInRange g -> cameraInRange (update cosT km tm dt g).
Proof.
  intros HC.
  destruct (destroyed (player g)) eqn:HD.
  - rewrite update_destroyed by assumption. exact HC.
  - rewrite (update_stages cosT km tm dt g HD).
    unfold GameObject_update.
    set (g4 := _ <~ _ <~ _ <~ _).
    assert (C4 : cameraInRange g4).
    { unfold g4, cameraInRange. rewrite !scrollOffset_with_player.
      apply updatePhysics_camera.
      destruct (isControlEnabled (player g));
        [ apply checkInput_camera | ]; exact HC. }
    destruct (negb (active (player g4)) || destroyed (player g4));
      [ exact C4 | ].
    rewrite strict_Game_eq. apply updatePhysics_camera. exact C4.
Qed.

(** The input pass does not leave a dash. *)
Lemma checkInput_dash_locked (cosT : Q -> Q) (km : KeyManager)
    (tm : TimeManager) (g : Game) :
  status (player g) = DASH \/ status (player g) = DASHEND ->
  status (player (checkInput cosT km tm g)) = status (player g) /\
  dashPhase (player (checkInput cosT km tm g)) = dashPhase (player g).
Proof.
  intros HS.
  destruct g as [p sc pl], km as [kx kz kl kr kc kv].
  destruct_player p. run_stmts_in HS.
  destruct HS; subst.
  all: match goal with |- context [checkInput ?c ?k ?t ?g] =>
         steps_on (checkInput c k t g) end.
  all: repeat split.
  all: solve [ exfalso; decide_tests; refute_tests ].
Qed.

Lemma gameAfter_active (cosT : Q -> Q) (history : list FrameInput) :
  active (player (gameAfter cosT history)) = true.
Proof.
  apply (gameAfter_keeps (fun p => active p = true)).
  - apply (update_keeps (fun p => active p = true)).
    + intros km tm g H.
      destruct (checkInput_frame cosT km tm g) as (_ & _ & A & _). congruence.
    + intros km dt g H.
      destruct (updatePhysics_frame km dt g) as (_ & _ & A & _). congruence.
    + intros km dt p H.
      destruct (updateAnimation_frame km dt p) as (_ & _ & A & _). congruence.
    + intros p; destruct p; exact (fun H => H).
  - reflexivity.
Qed.

(** X1.  Every physics step leaves the player inside the playfield:
    [20 <= x <= 780], [y <= maxYPosition] (at or above the ground line),
    and the transform position equal to [(x, y)].  The same holds after
    every frame of a run. *)
Theorem player_stays_in_playfield :
  (forall km dt g,
     20 <= x (player (updatePhysics km dt g)) /\
     x (player (updatePhysics km dt g)) <= 780 /\
     y (player (updatePhysics km dt g)) <= maxYPosition /\
     transform_position_x (player (updatePhysics km dt g))
       = x (player (updatePhysics km dt g)) /\
     transform_position_y (player (updatePhysics km dt g))
       = y (player (updatePhysics km dt g))) /\
  (forall cosT history,
     20 <= x (player (gameAfter cosT history)) /\
     x (player (gameAfter cosT history)) <= 780 /\
     y (player (gameAfter cosT history)) <= maxYPosition /\
     transform_position_x (player (gameAfter cosT history))
       = x (player (gameAfter cosT history)) /\
     transform_position_y (player (gameAfter cosT history))
       = y (player (gameAfter cosT history))).
Proof.
  split.
  - intros km dt g.
    destruct (updatePhysics_onScreen km dt g) as (S1 & S2 & S3 & S4).
    repeat (split; [ assumption | ]). split; [ | split; assumption ].
    destruct (updatePhysics_position km dt g) as (PY & _). rewrite PY.
    destruct (Qle_bool maxYPosition _) eqn:E; [ apply Qle_refl | ].
    apply Qle_bool_false_iff in E. lra.
  - intros cosT history.
    destruct (gameAfter_onScreen cosT history) as (S1 & S2 & S3 & S4).
    destruct (gameAfter_grounded cosT history) as (K1 & _).
    repeat (split; [ assumption | ]). assumption.
Qed.

(** X2.  After every frame of a run the ground flags agree with the
    height: [isOnGround] holds exactly when [y] has reached [maxYPosition],
    [positionStation] is GROUND exactly then, a grounded player stands on
    the line with [velocityY = 0], and an airborne one is strictly above
    it. *)
Theorem ground_flags_agree_with_height (cosT : Q -> Q)
    (history : list FrameInput) :
  isOnGround (player (gameAfter cosT history))
    = Qle_bool maxYPosition (y (player (gameAfter cosT history))) /\
  positionStation (player (gameAfter cosT history))
    = (if isOnGround (player (gameAfter cosT history)) then GROUND else AIR) /\
  (isOnGround (player (gameAfter cosT history)) = true ->
     y (player (gameAfter cosT history)) == maxYPosition /\
     velocityY (player (gameAfter cosT history)) = 0) /\
  (isOnGround (player (gameAfter cosT history)) = false ->
     y (player (gameAfter cosT history)) < maxYPosition).
Proof.
  destruct (gameAfter_grounded cosT history) as (K1 & K2 & K3 & K4 & K5).
  split; [ exact K3 | ]. split; [ exact K4 | ]. rewrite K3. split.
  - intros E. apply Qle_bool_iff in E. split; [ lra | auto ].
  - intros E. apply Qle_bool_false_iff in E. exact E.
Qed.

(** X3.  A player that is above the ground line after a frame of a run is
    in JUMPSTART, JUMPDOWN or JUMPATTACK: the ground statuses (IDLE, WALK,
    DASH, DASHEND, A1, FIREATTACK) are held on the ground only. *)
Theorem airborne_only_while_jumping (cosT : Q -> Q)
    (history : list FrameInput) :
  y (player (gameAfter cosT history)) < maxYPosition ->
  status (player (gameAfter cosT history)) = JUMPSTART
  \/ status (player (gameAfter cosT history)) = JUMPDOWN
  \/ status (player (gameAfter cosT history)) = JUMPATTACK.
Proof.
  intros L.
  destruct (gameAfter_grounded cosT history) as (_ & _ & _ & _ & K5).
  pose proof (gameAfter_status cosT history) as S.
  destruct (status (player (gameAfter cosT history))); try discriminate S;
    auto;
    exfalso; assert (maxYPosition <= y (player (gameAfter cosT history)))
      by (apply K5; reflexivity); lra.
Qed.

Lemma isPlayerStatus_In (s : STATUS) :
  isPlayerStatus s = true ->
  In s [IDLE; WALK; DASH; DASHEND; JUMPSTART; JUMPDOWN; A1; JUMPATTACK;
        FIREATTACK].
Proof. destruct s; intros E; try discriminate E; cbn; auto 12. Qed.

Lemma In_isPlayerStatus (s : STATUS) :
  In s [IDLE; WALK; DASH; DASHEND; JUMPSTART; JUMPDOWN; A1; JUMPATTACK;
        FIREATTACK] ->
  isPlayerStatus s = true.
Proof.
  cbn. intros I.
  repeat (destruct I as [<- | I]; [ reflexivity | ]). destruct I.
Qed.

(** X4.  The status is one of the nine statuses the methods assign, after
    every frame of a run and at every point inside a frame: each of
    [checkInput], [updatePhysics] and [updateAnimation] takes a status
    among the nine to a status among the nine.  ATTACKED, JUMPOFF, WALL,
    DAMAGED, A2 and A3 never occur. *)
Theorem status_stays_among_nine (cosT : Q -> Q) :
  (forall history : list FrameInput,
     In (status (player (gameAfter cosT history)))
        [IDLE; WALK; DASH; DASHEND; JUMPSTART; JUMPDOWN; A1; JUMPATTACK;
         FIREATTACK]) /\
  (forall (km : KeyManager) (tm : TimeManager) (g : Game),
     In (status (player g))
        [IDLE; WALK; DASH; DASHEND; JUMPSTART; JUMPDOWN; A1; JUMPATTACK;
         FIREATTACK] ->
     In (status (player (checkInput cosT km tm g)))
        [IDLE; WALK; DASH; DASHEND; JUMPSTART; JUMPDOWN; A1; JUMPATTACK;
         FIREATTACK]) /\
  (forall (km : KeyManager) (dt : Q) (g : Game),
     In (status (player g))
        [IDLE; WALK; DASH; DASHEND; JUMPSTART; JUMPDOWN; A1; JUMPATTACK;
         FIREATTACK] ->
     In (status (player (updatePhysics km dt g)))
        [IDLE; WALK; DASH; DASHEND; JUMPSTART; JUMPDOWN; A1; JUMPATTACK;
         FIREATTACK]) /\
  (forall (km : KeyManager) (dt : Q) (p : Player),
     In (status p)
        [IDLE; WALK; DASH; DASHEND; JUMPSTART; JUMPDOWN; A1; JUMPATTACK;
         FIREATTACK] ->
     In (status (updateAnimation km dt p))
        [IDLE; WALK; DASH; DASHEND; JUMPSTART; JUMPDOWN; A1; JUMPATTACK;
         FIREATTACK]).
Proof.
  split; [ | split; [ | split ] ].
  - intros history. apply isPlayerStatus_In, gameAfter_status.
  - intros km tm g I. apply isPlayerStatus_In, checkInput_status.
    apply In_isPlayerStatus, I.
  - intros km dt g I. apply isPlayerStatus_In, updatePhysics_status.
    apply In_isPlayerStatus, I.
  - intros km dt p I. apply isPlayerStatus_In, updateAnimation_status.
    apply In_isPlayerStatus, I.
Qed.

(** X5.  After every frame of a run the dash bookkeeping follows the
    status: [isDashing] holds exactly in DASH and DASHEND, [dashPhase] is
    'start' or 'moving' in DASH, 'end' in DASHEND and 'none' otherwise, and
    the dash lock [canDashAgain] is closed throughout a dash. *)
Theorem dash_flags_follow_status (cosT : Q -> Q)
    (history : list FrameInput) :
  (isDashing (player (gameAfter cosT history)) = true <->
     status (player (gameAfter cosT history)) = DASH
     \/ status (player (gameAfter cosT history)) = DASHEND) /\
  (status (player (gameAfter cosT history)) = DASH ->
     dashPhase (player (gameAfter cosT history)) = phase_start
     \/ dashPhase (player (gameAfter cosT history)) = phase_moving) /\
  (status (player (gameAfter cosT history)) = DASHEND ->
     dashPhase (player (gameAfter cosT history)) = phase_end) /\
  (isDashing (player (gameAfter cosT history)) = false ->
     dashPhase (player (gameAfter cosT history)) = phase_none) /\
  (isDashing (player (gameAfter cosT history)) = true ->
     canDashAgain (player (gameAfter cosT history)) = false).
Proof.
  pose proof (gameAfter_dashConsistent cosT history) as D.
  unfold dashConsistent in D.
  destruct (status (player (gameAfter cosT history)));
    repeat match goal with H : _ /\ _ |- _ => destruct H end;
    repeat split; intros;
    repeat match goal with H : _ \/ _ |- _ => destruct H end;
    auto; try congruence; try discriminate.
Qed.

(** X6.  After every frame of a run the attack timer is below
    [maxAttackDuration], and it is 0 whenever the status is not an attack
    (A1, JUMPATTACK, FIREATTACK). *)
Theorem attackTimer_stays_below_limit (cosT : Q -> Q)
    (history : list FrameInput) :
  attackTimer (player (gameAfter cosT history)) < maxAttackDuration /\
  (isAttackStatus (status (player (gameAfter cosT history))) = false ->
   attackTimer (player (gameAfter cosT history)) = 0).
Proof.
  change (timerInRange (player (gameAfter cosT history))).
  apply (gameAfter_keeps timerInRange).
  - apply (update_keeps timerInRange).
    + intros; apply checkInput_timer; assumption.
    + intros; apply updatePhysics_timer; assumption.
    + intros; apply updateAnimation_timer; assumption.
    + intros p; destruct p; exact (fun H => H).
  - split; [ apply Qlt_bool_iff; reflexivity | reflexivity ].
Qed.

(** X7.  In a run the camera never rises above its ceiling and never
    leaves its plane: the y component of the scroll offset stays at most
    80 and the z component stays 0. *)
Theorem camera_stays_in_range (cosT : Q -> Q) (history : list FrameInput) :
  ScrollOffset.y (scrollOffset (gameAfter cosT history)) <= 80 /\
  ScrollOffset.z (scrollOffset (gameAfter cosT history)) = 0.
Proof.
  change (cameraInRange (gameAfter cosT history)).
  unfold gameAfter.
  assert (G : forall fs g, cameraInRange g ->
            cameraInRange (runFrames cosT fs g)).
  { intros fs. induction fs as [|f rest IH]; intros g B; cbn; [ exact B | ].
    apply IH, update_camera. exact B. }
  apply G. split; [ apply Qle_bool_iff; reflexivity | reflexivity ].
Qed.

Lemma checkInput_dashStart (cosT : Q -> Q) (km : KeyManager)
    (tm : TimeManager) (g : Game) :
  isControlEnabled (player g) = true ->
  status (player g) = IDLE \/ status (player g) = WALK ->
  maxYPosition <= y (player g) ->
  isDashing (player g) = false ->
  dashKeyWasPressed (player g) = false ->
  canDashAgain (player g) = true ->
  isKeyDown km KEY_Z = true ->
  isKeyDown km KEY_X = false ->
  isKeyDown km KEY_C = false ->
  isKeyDown km KEY_V = false ->
  let after := player (checkInput cosT km tm g) in
  status after = DASH /\ isDashing after = true /\
  dashPhase after = phase_start /\ dashProgress after = 0 /\
  dashKeyWasPressed after = true /\ canDashAgain after = false /\
  dashDirection after
    = (if isKeyDown km KEY_LEFT then LEFT
       else if isKeyDown km KEY_RIGHT then RIGHT else direction (player g)) /\
  direction after = dashDirection after /\
  x after = x (player g) /\ y after = y (player g) /\
  velocityX after = velocityX (player g).
Proof.
  intros HC HS HY HD HK HA HZ HX HCk HV.
  destruct g as [p sc pl], km as [kx kz kl kr kc kv].
  destruct_player p.
  run_stmts_in HC; run_stmts_in HS; run_stmts_in HY; run_stmts_in HD;
    run_stmts_in HK; run_stmts_in HA; run_stmts_in HZ; run_stmts_in HX;
    run_stmts_in HCk; run_stmts_in HV.
  subst. destruct HS; subst.
  all: match goal with |- context [checkInput ?c ?k ?t ?g] => steps_on (checkInput c k t g) end.
  all: try solve [ exfalso; decide_tests; refute_tests ].
  all: try solve [ exfalso; decide_tests; tests_to_props; lra ].
  all: repeat split.
Qed.

Lemma dashKept_refl (p : Player) : dashKept p p.
Proof. unfold dashKept; auto. Qed.

Lemma dashKept_trans (p q r : Player) :
  dashKept p q -> dashKept q r -> dashKept p r.
Proof.
  unfold dashKept, dashLocked.
  intros (A1' & A2' & A3') (B1 & B2 & B3).
  split; [ congruence | ]. split; [ congruence | ].
  intros L. destruct (A3' L) as (S1 & S2).
  assert (L' : status q = DASHEND \/ status q = IDLE
               \/ (status q = DASH /\ dashPhase q = phase_none)).
  { rewrite S1, S2. exact L. }
  destruct (B3 L') as (T1 & T2). split; congruence.
Qed.

Ltac kept_leaf :=
  leaf;
  repeat match goal with H : _ /\ _ |- _ => destruct H end;
  subst; try reflexivity; try discriminate; try congruence;
  try solve [ exfalso; decide_tests; refute_tests ].

Lemma applyGravity_dashKept (dt : Q) (p : Player) :
  dashKept p (applyGravity dt p).
Proof. unfold dashKept, dashLocked. destruct_player p; steps; kept_leaf. Qed.

Lemma superJumpPhysics_dashKept (dt : Q) (g : Game) :
  dashKept (player g) (player (superJumpPhysics dt g)).
Proof.
  unfold dashKept, dashLocked. destruct g as [p sc pl].
  destruct_player p; steps; kept_leaf.
Qed.

Lemma statePhysics_dashKept (km : KeyManager) (dt : Q) (g : Game) :
  dashKept (player g) (player (statePhysics km dt g)).
Proof.
  unfold dashKept, dashLocked. destruct km. destruct g as [p sc pl].
  destruct_player p; steps; kept_leaf.
Qed.

Lemma groundCollision_dashKept (p : Player) :
  dashKept p (groundCollision p).
Proof. unfold dashKept, dashLocked. destruct_player p; steps; kept_leaf. Qed.

Lemma screenBoundaries_dashKept (p : Player) :
  dashKept p (screenBoundaries p).
Proof. unfold dashKept, dashLocked. destruct_player p; steps; kept_leaf. Qed.

Lemma updatePhysics_dashKept (km : KeyManager) (dt : Q) (g : Game) :
  dashKept (player g) (player (updatePhysics km dt g)).
Proof.
  rewrite updatePhysics_stages. rewrite !player_with_player. cbv beta.
  eapply dashKept_trans; [ apply (applyGravity_dashKept dt) | ].
  eapply dashKept_trans;
    [ apply (superJumpPhysics_dashKept dt (g <~ applyGravity dt)) | ].
  eapply dashKept_trans; [ apply (statePhysics_dashKept km dt) | ].
  set (p3 := player (statePhysics _ _ _)).
  eapply dashKept_trans with
    (q := set_y (y (set_x (x p3 + velocityX p3 * dt) p3)
                 + velocityY (set_x (x p3 + velocityX p3 * dt) p3) * dt)
            (set_x (x p3 + velocityX p3 * dt) p3)).
  { destruct p3; unfold dashKept, dashLocked; cbn; auto. }
  set (p4 := set_y _ _).
  eapply dashKept_trans; [ apply groundCollision_dashKept | ].
  eapply dashKept_trans; [ apply screenBoundaries_dashKept | ].
  destruct (screenBoundaries (groundCollision p4));
    unfold dashKept, dashLocked; cbn; auto.
Qed.

(** ** One call of [update], stage by stage *)

Lemma update_steps (cosT : Q -> Q) (km : KeyManager) (tm : TimeManager)
    (dt : Q) (P0 P1 P2 P3 P4 P5 : Player -> Prop) (g : Game) :
  (forall g, P0 (player g) -> P1 (player (checkInput cosT km tm g))) ->
  (forall g, P1 (player g) -> P2 (player (updatePhysics km dt g))) ->
  (forall p, P2 p -> P3 (updateAnimation km dt p)) ->
  (forall p, P3 p ->
     P3 (set_transform_position_y (y (set_transform_position_x (x p) p))
           (set_transform_position_x (x p) p))) ->
  (forall p, P3 p -> P4 (updateAnimation km dt p)) ->
  (forall g, P4 (player g) -> P5 (player (updatePhysics km dt g))) ->
  active (player g) = true ->
  destroyed (player g) = false ->
  isControlEnabled (player g) = true ->
  P0 (player g) ->
  P5 (player (update cosT km tm dt g)).
Proof.
  intros S1 S2 S3 ST S4 S5 HA HD HC B.
  rewrite (update_stages cosT km tm dt g HD). rewrite HC.
  unfold GameObject_update.
  set (g4 := _ <~ _ <~ _ <~ _).
  assert (B4 : P3 (player g4)).
  { unfold g4. rewrite !player_with_player. cbv beta.
    apply ST, S3, S2, S1, B. }
  assert (A4 : active (player g4) = true /\ destroyed (player g4) = false).
  { unfold g4. rewrite !player_with_player. cbv beta.
    destruct (checkInput_frame cosT km tm g) as (_ & C2 & C3 & _).
    destruct (updatePhysics_frame km dt (checkInput cosT km tm g))
      as (_ & Q2 & Q3 & _).
    destruct (updateAnimation_frame km dt
                (player (updatePhysics km dt (checkInput cosT km tm g))))
      as (_ & R2 & R3 & _).
    destruct (transform_frame
                (updateAnimation km dt
                   (player (updatePhysics km dt (checkInput cosT km tm g)))))
      as (_ & T2 & T3 & _).
    split; congruence. }
  destruct A4 as (A4 & D4). rewrite A4, D4. cbn [negb orb].
  rewrite strict_Game_eq. apply S5.
  rewrite player_with_player. apply S4. exact B4.
Qed.

(** What the animation step does to the dash bookkeeping. *)
Lemma updateAnimation_dashEnd (km : KeyManager) (dt : Q) (p : Player) :
  status p = DASHEND
  \/ (status p = IDLE /\ dashKeyWasPressed p = false /\ canDashAgain p = true) ->
  status (updateAnimation km dt p) = DASHEND
  \/ (status (updateAnimation km dt p) = IDLE /\
      dashKeyWasPressed (updateAnimation km dt p) = false /\
      canDashAgain (updateAnimation km dt p) = true).
Proof.
  intros H.
  destruct (updateAnimation_outcome km dt p) as (e & a & f & t & L & E).
  rewrite E. clear E.
  destruct e, p; cbn in *;
    repeat match goal with H : _ /\ _ |- _ => destruct H end;
    repeat match goal with H : _ \/ _ |- _ => destruct H end;
    repeat match goal with H : _ /\ _ |- _ => destruct H end;
    subst; try discriminate; auto.
Qed.

Lemma updatePhysics_dashEnd (km : KeyManager) (dt : Q) (g : Game) :
  status (player g) = DASHEND
  \/ (status (player g) = IDLE /\ dashKeyWasPressed (player g) = false /\
      canDashAgain (player g) = true) ->
  status (player (updatePhysics km dt g)) = DASHEND
  \/ (status (player (updatePhysics km dt g)) = IDLE /\
      dashKeyWasPressed (player (updatePhysics km dt g)) = false /\
      canDashAgain (player (updatePhysics km dt g)) = true).
Proof.
  intros H.
  destruct (updatePhysics_dashKept km dt g) as (K1 & K2 & K3).
  unfold dashLocked in K3.
  destruct H as [H | (H & H1 & H2)].
  - left. destruct (K3 (or_introl H)) as (K4 & _). congruence.
  - right. destruct (K3 (or_intror (or_introl H))) as (K4 & _).
    repeat split; congruence.
Qed.

Lemma update_dashEnd (cosT : Q -> Q) (km : KeyManager) (tm : TimeManager)
    (dt : Q) (g : Game) :
  active (player g) = true ->
  destroyed (player g) = false ->
  isControlEnabled (player g) = true ->
  status (player g) = DASHEND ->
  status (player (update cosT km tm dt g)) = DASHEND
  \/ (status (player (update cosT km tm dt g)) = IDLE /\
      dashKeyWasPressed (player (update cosT km tm dt g)) = false /\
      canDashAgain (player (update cosT km tm dt g)) = true).
Proof.
  intros HA HD HC HS.
  pose (Q := fun p : Player =>
          status p = DASHEND
          \/ (status p = IDLE /\ dashKeyWasPressed p = false /\
              canDashAgain p = true)).
  apply (update_steps cosT km tm dt
           (fun p => status p = DASHEND) (fun p => status p = DASHEND)
           (fun p => status p = DASHEND) Q Q Q); auto; unfold Q; cbv beta.
  - intros g0 H0.
    destruct (checkInput_dash_locked cosT km tm g0 (or_intror H0)) as (E & _).
    congruence.
  - intros g0 H0.
    destruct (updatePhysics_dashKept km dt g0) as (_ & _ & K3).
    destruct (K3 (or_introl H0)) as (E & _). congruence.
  - intros p H0. apply updateAnimation_dashEnd. auto.
  - intros p H0. destruct p; exact H0.
  - intros p H0. apply updateAnimation_dashEnd. exact H0.
  - intros g0 H0. apply updatePhysics_dashEnd. exact H0.
Qed.

(** X10.  Dashes chain while the dash button is held.  When a frame of a
    run takes the status from DASHEND to IDLE, the end of the DASH_END
    animation has cleared the remembered press and opened the lock, so a
    next frame with the dash button down (jump and attack buttons up)
    starts a new dash, whether or not the button was released in
    between. *)
Theorem dash_restarts_while_button_held (cosT : Q -> Q)
    (history : list FrameInput) (f : FrameInput) (km : KeyManager)
    (tm : TimeManager) :
  status (player (gameAfter cosT history)) = DASHEND ->
  status (player (gameAfter cosT (history ++ [f]))) = IDLE ->
  isKeyDown km KEY_Z = true ->
  isKeyDown km KEY_X = false ->
  isKeyDown km KEY_C = false ->
  isKeyDown km KEY_V = false ->
  dashKeyWasPressed (player (gameAfter cosT (history ++ [f]))) = false /\
  canDashAgain (player (gameAfter cosT (history ++ [f]))) = true /\
  status (player (checkInput cosT km tm (gameAfter cosT (history ++ [f]))))
    = DASH /\
  dashPhase (player (checkInput cosT km tm (gameAfter cosT (history ++ [f]))))
    = phase_start /\
  dashProgress
    (player (checkInput cosT km tm (gameAfter cosT (history ++ [f])))) = 0.
Proof.
  intros HE HI HZ HX HCk HV.
  destruct (gameAfter_alive cosT (history ++ [f])) as (C1 & D1).
  destruct (gameAfter_grounded cosT (history ++ [f])) as (_ & _ & _ & _ & K5).
  pose proof (gameAfter_dashConsistent cosT (history ++ [f])) as D.
  unfold dashConsistent in D. rewrite HI in D. destruct D as (D & _).
  assert (F : dashKeyWasPressed (player (gameAfter cosT (history ++ [f])))
              = false /\
              canDashAgain (player (gameAfter cosT (history ++ [f]))) = true).
  { revert HI. unfold gameAfter. rewrite runFrames_app. cbn [runFrames].
    fold (gameAfter cosT history). intros HI.
    destruct (gameAfter_alive cosT history) as (C0 & D0).
    destruct (update_dashEnd cosT (frameKeys f) (frameClock f) (frameDelta f)
                (gameAfter cosT history)
                (gameAfter_active cosT history) D0 C0 HE)
      as [E | (_ & E1 & E2)]; [ congruence | auto ]. }
  destruct F as (F1 & F2).
  split; [ exact F1 | ]. split; [ exact F2 | ].
  assert (G : maxYPosition <= y (player (gameAfter cosT (history ++ [f]))))
    by (apply K5; rewrite HI; reflexivity).
  destruct (checkInput_dashStart cosT km tm (gameAfter cosT (history ++ [f]))
              C1 (or_introl HI) G D F1 F2 HZ HX HCk HV)
    as (R1 & _ & R3 & R4 & _).
  auto.
Qed.

Lemma dash_restarts_while_button_held_witness :
  status (player (gameAfter cosOne (repeat dashFrame32nd 25))) = DASHEND /\
  status (player (gameAfter cosOne
                    (repeat dashFrame32nd 25 ++ [dashFrame32nd])))
    = IDLE /\
  status (player (checkInput cosOne keys_Z frame32nd
                    (gameAfter cosOne
                       (repeat dashFrame32nd 25 ++ [dashFrame32nd]))))
    = DASH.
Proof.
  split; [ vm_compute; reflexivity | ]. split; [ vm_compute; reflexivity | ].
  apply (dash_restarts_while_button_held cosOne (repeat dashFrame32nd 25)
           dashFrame32nd keys_Z frame32nd); vm_compute; reflexivity.
Defined.

Lemma updateAnimation_phaseless (km : KeyManager) (dt : Q) (p : Player) :
  status p = DASH /\ dashPhase p = phase_none ->
  status (updateAnimation km dt p) = DASH /\
  dashPhase (updateAnimation km dt p) = phase_none.
Proof.
  intros (H1 & H2).
  destruct (updateAnimation_outcome km dt p) as (e & a & f & t & L & E).
  rewrite E. clear E.
  destruct e, p; cbn in *;
    repeat match goal with H : _ /\ _ |- _ => destruct H end;
    subst; try discriminate; auto.
Qed.

Lemma update_phaseless (cosT : Q -> Q) (km : KeyManager) (tm : TimeManager)
    (dt : Q) (g : Game) :
  status (player g) = DASH /\ dashPhase (player g) = phase_none ->
  status (player (update cosT km tm dt g)) = DASH /\
  dashPhase (player (update cosT km tm dt g)) = phase_none.
Proof.
  apply (update_keeps
           (fun p => status p = DASH /\ dashPhase p = phase_none)).
  - intros km0 tm0 g0 (H1 & H2).
    destruct (checkInput_dash_locked cosT km0 tm0 g0 (or_introl H1))
      as (E1 & E2).
    split; congruence.
  - intros km0 dt0 g0 (H1 & H2).
    destruct (updatePhysics_dashKept km0 dt0 g0) as (_ & _ & K3).
    destruct (K3 (or_intror (or_intror (conj H1 H2)))) as (E1 & E2).
    split; congruence.
  - intros km0 dt0 p H. apply updateAnimation_phaseless. exact H.
  - intros p H. destruct p; exact H.
Qed.

(** X11.  [triggerDash()] on a grounded player that is not dashing returns
    true and leaves a DASH without a phase.  No later frame, whatever its
    input, changes that status or gives the dash a phase: the player stays
    in DASH for ever. *)
Theorem triggerDash_is_never_left (cosT : Q -> Q)
    (history frames : list FrameInput) :
  isOnGround (player (gameAfter cosT history)) = true ->
  isDashing (player (gameAfter cosT history)) = false ->
  fst (triggerDash (gameAfter cosT history)) = true /\
  status (player (runFrames cosT frames
                    (snd (triggerDash (gameAfter cosT history))))) = DASH /\
  dashPhase (player (runFrames cosT frames
                       (snd (triggerDash (gameAfter cosT history)))))
    = phase_none.
Proof.
  intros HG HD.
  pose proof (gameAfter_dashConsistent cosT history) as D.
  unfold triggerDash. rewrite HG. cbn [fst snd]. split; [ reflexivity | ].
  assert (B : status (player (gameAfter cosT history <~ set_status DASH))
              = DASH /\
              dashPhase (player (gameAfter cosT history <~ set_status DASH))
              = phase_none).
  { unfold dashConsistent in D.
    destruct (gameAfter cosT history) as [p sc pl].
    destruct_player p; cbn in *.
    split; [ reflexivity | ].
    destruct st;
      repeat match goal with H : _ /\ _ |- _ => destruct H end;
      congruence. }
  revert B. generalize (gameAfter cosT history <~ set_status DASH).
  induction frames as [|f frames IH]; intros g B; cbn [runFrames].
  - exact B.
  - apply IH. apply update_phaseless. exact B.
Qed.

Lemma triggerDash_is_never_left_witness :
  status (player (runFrames cosOne [idleFrame; dashFrame; jumpFrame]
                    (snd (triggerDash (gameAfter cosOne []))))) = DASH.
Proof.
  apply (triggerDash_is_never_left cosOne [] [idleFrame; dashFrame; jumpFrame]);
    reflexivity.
Defined.

Lemma checkInput_falling (cosT : Q -> Q) (km : KeyManager) (tm : TimeManager)
    (g : Game) :
  isControlEnabled (player g) = true ->
  status (player g) = JUMPDOWN \/ status (player g) = JUMPATTACK ->
  y (player g) < maxYPosition ->
  y (player (checkInput cosT km tm g)) = y (player g) /\
  velocityY (player (checkInput cosT km tm g)) = velocityY (player g) /\
  isOnGround (player (checkInput cosT km tm g)) = false.
Proof.
  intros HC HS HY.
  destruct g as [p sc pl], km as [kx kz kl kr kc kv].
  destruct_player p.
  run_stmts_in HC; run_stmts_in HS; run_stmts_in HY.
  subst. destruct HS; subst.
  all: match goal with |- context [checkInput ?c ?k ?t ?g] => steps_on (checkInput c k t g) end.
  all: try solve [ exfalso; decide_tests; refute_tests ].
  all: try solve [ exfalso; decide_tests; tests_to_props; lra ].
  all: try (unfold handleAirMovement; steps).
  all: repeat split.
Qed.

Lemma updatePhysics_falling (km : KeyManager) (dt : Q) (g : Game) (y0 v0 : Q) :
  fst (fallStep dt (y0, v0)) < maxYPosition ->
  y (player g) = y0 /\ velocityY (player g) = v0 /\
  isOnGround (player g) = false ->
  y (player (updatePhysics km dt g)) = fst (fallStep dt (y0, v0)) /\
  velocityY (player (updatePhysics km dt g)) = snd (fallStep dt (y0, v0)) /\
  isOnGround (player (updatePhysics km dt g)) = false.
Proof.
  unfold fallStep. cbn [fst snd]. intros HL (HY & HV & HG).
  destruct (updatePhysics_position km dt g) as (PY & _).
  destruct (updatePhysics_frame km dt g) as (_ & _ & _ & _ & _ & _ & _ & PV).
  destruct (updatePhysics_flags km dt g) as (PG & _).
  rewrite HG, HY, HV in PY, PV, PG.
  apply Qle_bool_false_iff in HL. rewrite HL in PY, PV, PG.
  auto.
Qed.

Lemma updateAnimation_falling (km : KeyManager) (dt : Q) (p : Player)
    (y0 v0 : Q) :
  y p = y0 /\ velocityY p = v0 /\ isOnGround p = false ->
  y (updateAnimation km dt p) = y0 /\
  velocityY (updateAnimation km dt p) = v0 /\
  isOnGround (updateAnimation km dt p) = false.
Proof.
  intros (HY & HV & HG).
  destruct (updateAnimation_grounding km dt p) as (A1' & A2' & A3' & _).
  repeat split; congruence.
Qed.

(** X12.  One call of [update] integrates a fall twice, because
    [GameObject.update] runs the physics step again: for a falling player
    (JUMPDOWN or JUMPATTACK, above the ground line) that stays in the air,
    the height and the vertical velocity after the frame are those of two
    steps of [fallStep] with the frame's [deltaTime]. *)
Theorem update_integrates_a_fall_twice (cosT : Q -> Q)
    (history : list FrameInput) (f : FrameInput) :
  status (player (gameAfter cosT history)) = JUMPDOWN
  \/ status (player (gameAfter cosT history)) = JUMPATTACK ->
  y (player (gameAfter cosT history)) < maxYPosition ->
  fst (fallStep (frameDelta f)
         (y (player (gameAfter cosT history)),
          velocityY (player (gameAfter cosT history)))) < maxYPosition ->
  fst (fallStep (frameDelta f)
         (fallStep (frameDelta f)
            (y (player (gameAfter cosT history)),
             velocityY (player (gameAfter cosT history))))) < maxYPosition ->
  (y (player (gameAfter cosT (history ++ [f]))),
   velocityY (player (gameAfter cosT (history ++ [f]))))
  = fallStep (frameDelta f)
      (fallStep (frameDelta f)
         (y (player (gameAfter cosT history)),
          velocityY (player (gameAfter cosT history)))).
Proof.
  intros HS HY H1 H2.
  unfold gameAfter. rewrite runFrames_app. cbn [runFrames].
  fold (gameAfter cosT history).
  destruct (gameAfter_alive cosT history) as (C0 & D0).
  pose proof (gameAfter_active cosT history) as A0.
  set (g := gameAfter cosT history) in *.
  set (dt := frameDelta f) in *.
  set (s1 := fallStep dt (y (player g), velocityY (player g))) in *.
  set (s2 := fallStep dt s1) in *.
  pose (at0 := fun p : Player =>
          isControlEnabled p = true /\
          (status p = JUMPDOWN \/ status p = JUMPATTACK) /\
          y p = y (player g) /\ velocityY p = velocityY (player g)).
  pose (at1 := fun p : Player =>
          y p = y (player g) /\ velocityY p = velocityY (player g) /\
          isOnGround p = false).
  pose (at2 := fun p : Player =>
          y p = fst s1 /\ velocityY p = snd s1 /\ isOnGround p = false).
  pose (at3 := fun p : Player =>
          y p = fst s2 /\ velocityY p = snd s2 /\ isOnGround p = false).
  assert (R : at3 (player (update cosT (frameKeys f) (frameClock f) dt g))).
  { apply (update_steps cosT (frameKeys f) (frameClock f) dt
             at0 at1 at2 at2 at2 at3); auto; unfold at0, at1, at2, at3.
    - intros g0 (Q1 & Q2 & Q3 & Q4).
      destruct (checkInput_falling cosT (frameKeys f) (frameClock f) g0 Q1 Q2)
        as (E1 & E2 & E3); [ rewrite Q3; exact HY | ].
      repeat split; congruence.
    - intros g0 Q. apply updatePhysics_falling; assumption.
    - intros p Q. apply updateAnimation_falling. exact Q.
    - intros p Q. destruct p; exact Q.
    - intros p Q. apply updateAnimation_falling. exact Q.
    - intros g0 Q. unfold s2.
      rewrite (surjective_pairing s1).
      apply updatePhysics_falling; [ | exact Q ].
      rewrite <- (surjective_pairing s1). exact H2.
    - repeat split; auto. }
  destruct R as (R1 & R2 & _). rewrite R1, R2.
  symmetry. apply surjective_pairing.
Qed.

Lemma update_integrates_a_fall_twice_witness :
  (y (player (gameAfter cosOne ([jumpFrame; idleFrame] ++ [idleFrame]))),
   velocityY (player (gameAfter cosOne ([jumpFrame; idleFrame] ++ [idleFrame]))))
  = fallStep 0.05
      (fallStep 0.05
         (y (player (gameAfter cosOne [jumpFrame; idleFrame])),
          velocityY (player (gameAfter cosOne [jumpFrame; idleFrame])))).
Proof.
  apply (update_integrates_a_fall_twice cosOne [jumpFrame; idleFrame]
           idleFrame); vm_compute; auto.
Defined.

(** What the input pass does during a dash. *)
Lemma checkInput_dashing (cosT : Q -> Q) (km : KeyManager)
    (tm : TimeManager) (g : Game) :
  isControlEnabled (player g) = true ->
  status (player g) = DASH \/ status (player g) = DASHEND ->
  maxYPosition <= y (player g) ->
  isDashing (player g) = true ->
  status (player (checkInput cosT km tm g)) = status (player g) /\
  x (player (checkInput cosT km tm g)) = x (player g) /\
  y (player (checkInput cosT km tm g)) = y (player g) /\
  velocityX (player (checkInput cosT km tm g)) = velocityX (player g) /\
  velocityY (player (checkInput cosT km tm g)) = velocityY (player g) /\
  direction (player (checkInput cosT km tm g)) = direction (player g) /\
  isDashing (player (checkInput cosT km tm g)) = isDashing (player g) /\
  dashPhase (player (checkInput cosT km tm g)) = dashPhase (player g) /\
  dashProgress (player (checkInput cosT km tm g)) = dashProgress (player g) /\
  dashDirection (player (checkInput cosT km tm g))
    = dashDirection (player g) /\
  canDashAgain (player (checkInput cosT km tm g))
    = canDashAgain (player g) /\
  attackTimer (player (checkInput cosT km tm g)) = attackTimer (player g) /\
  scrollOffset (checkInput cosT km tm g) = scrollOffset g /\
  dashKeyWasPressed (player (checkInput cosT km tm g))
    = isKeyDown km KEY_Z && dashKeyWasPressed (player g) /\
  jumpKeyWasPressed (player (checkInput cosT km tm g))
    = isKeyDown km KEY_X && jumpKeyWasPressed (player g) /\
  canJump (player (checkInput cosT km tm g))
    = negb (isKeyDown km KEY_X) || canJump (player g).
Proof.
  intros HC HS HY HD.
  destruct g as [p sc pl], km as [kx kz kl kr kc kv].
  destruct_player p.
  run_stmts_in HC; run_stmts_in HS; run_stmts_in HY; run_stmts_in HD.
  subst. destruct kx, kz; destruct HS; subst.
  all: match goal with |- context [checkInput ?c ?k ?t ?g] =>
         steps_on (checkInput c k t g) end.
  all: try solve [ exfalso; decide_tests; refute_tests ].
  all: try solve [ exfalso; decide_tests; tests_to_props; lra ].
  all: repeat split.
  all: try reflexivity.
  all: decide_tests; subst; try reflexivity; try discriminate.
  all: try (destruct dk; reflexivity); try (destruct jk; reflexivity).
Qed.

(** X8.  While the status is DASH or DASHEND the input pass starts no
    action and moves nothing: whatever keys are down, [checkInput] leaves
    the status, the position, the velocities, the facing direction,
    [isDashing], [dashPhase], [dashProgress], [dashDirection], the attack
    timer and the camera as they are.  In the states of a run it also
    leaves the dash lock [canDashAgain] as it is, but it still keeps the
    memory of the buttons: [dashKeyWasPressed] is cleared when the dash
    button is up and kept when it is down, [jumpKeyWasPressed] is cleared
    and [canJump] set when the jump button is up. *)
Theorem dash_ignores_input (cosT : Q -> Q) (km : KeyManager)
    (tm : TimeManager) :
  (forall g : Game,
     status (player g) = DASH \/ status (player g) = DASHEND ->
     status (player (checkInput cosT km tm g)) = status (player g) /\
     x (player (checkInput cosT km tm g)) = x (player g) /\
     y (player (checkInput cosT km tm g)) = y (player g) /\
     velocityX (player (checkInput cosT km tm g)) = velocityX (player g) /\
     velocityY (player (checkInput cosT km tm g)) = velocityY (player g) /\
     direction (player (checkInput cosT km tm g)) = direction (player g) /\
     isDashing (player (checkInput cosT km tm g)) = isDashing (player g) /\
     dashPhase (player (checkInput cosT km tm g)) = dashPhase (player g) /\
     dashProgress (player (checkInput cosT km tm g))
       = dashProgress (player g) /\
     dashDirection (player (checkInput cosT km tm g))
       = dashDirection (player g) /\
     attackTimer (player (checkInput cosT km tm g))
       = attackTimer (player g) /\
     scrollOffset (checkInput cosT km tm g) = scrollOffset g) /\
  (forall history : list FrameInput,
     status (player (gameAfter cosT history)) = DASH
     \/ status (player (gameAfter cosT history)) = DASHEND ->
     canDashAgain (player (checkInput cosT km tm (gameAfter cosT history)))
       = canDashAgain (player (gameAfter cosT history)) /\
     dashKeyWasPressed
       (player (checkInput cosT km tm (gameAfter cosT history)))
       = isKeyDown km KEY_Z
         && dashKeyWasPressed (player (gameAfter cosT history)) /\
     jumpKeyWasPressed
       (player (checkInput cosT km tm (gameAfter cosT history)))
       = isKeyDown km KEY_X
         && jumpKeyWasPressed (player (gameAfter cosT history)) /\
     canJump (player (checkInput cosT km tm (gameAfter cosT history)))
       = negb (isKeyDown km KEY_X)
         || canJump (player (gameAfter cosT history))).
Proof.
  split.
  - intros g HS.
    destruct g as [p sc pl], km as [kx kz kl kr kc kv].
    destruct_player p. run_stmts_in HS.
    destruct HS; subst.
    all: match goal with |- context [checkInput ?c ?k ?t ?g] =>
           steps_on (checkInput c k t g) end.
    all: repeat split.
    all: solve [ exfalso; decide_tests; refute_tests ].
  - intros history HS.
    destruct (gameAfter_alive cosT history) as (C & _).
    destruct (gameAfter_grounded cosT history) as (_ & _ & _ & _ & K5).
    pose proof (gameAfter_dashConsistent cosT history) as D.
    assert (G : maxYPosition <= y (player (gameAfter cosT history)))
      by (apply K5; destruct HS as [E | E]; rewrite E; reflexivity).
    assert (I : isDashing (player (gameAfter cosT history)) = true)
      by (unfold dashConsistent in D;
          destruct HS as [E | E]; rewrite E in D; apply D).
    destruct (checkInput_dashing cosT km tm (gameAfter cosT history) C HS G I)
      as (_ & _ & _ & _ & _ & _ & _ & _ & _ & _ & R1 & _ & _ & R2 & R3 & R4).
    auto.
Qed.

Lemma dash_ignores_input_witness :
  status (player (gameAfter cosOne [dashFrame32nd])) = DASH /\
  dashKeyWasPressed (player (gameAfter cosOne [dashFrame32nd])) = true /\
  status (player (checkInput cosOne keys_XC frame32nd
                    (gameAfter cosOne [dashFrame32nd]))) = DASH /\
  dashKeyWasPressed (player (checkInput cosOne keys_XC frame32nd
                               (gameAfter cosOne [dashFrame32nd]))) = false /\
  canDashAgain (player (checkInput cosOne keys_XC frame32nd
                          (gameAfter cosOne [dashFrame32nd]))) = false.
Proof.
  destruct (dash_ignores_input cosOne keys_XC frame32nd) as (A & B).
  destruct (A (gameAfter cosOne [dashFrame32nd]))
    as (E1 & _); [ left; vm_compute; reflexivity | ].
  destruct (B [dashFrame32nd]) as (E2 & E3 & _);
    [ left; vm_compute; reflexivity | ].
  split; [ vm_compute; reflexivity | ]. split; [ vm_compute; reflexivity | ].
  split; [ rewrite E1; vm_compute; reflexivity | ].
  split; [ rewrite E3 | rewrite E2 ]; vm_compute; reflexivity.
Defined.

(** X9.  In a frame of a run that finds the status IDLE or WALK with the
    dash button down, the jump and attack buttons up, no dash press
    remembered and the dash lock open, [checkInput] starts a dash: status
    DASH, phase 'start', progress 0, the press remembered and the lock
    closed.  The dash goes LEFT when the left arrow is down, else RIGHT
    when the right arrow is down, else where the player faces, and the
    player turns that way; [x] is not changed by the input pass. *)
Theorem dash_starts_on_the_ground (cosT : Q -> Q)
    (history : list FrameInput) (km : KeyManager) (tm : TimeManager) :
  status (player (gameAfter cosT history)) = IDLE
  \/ status (player (gameAfter cosT history)) = WALK ->
  dashKeyWasPressed (player (gameAfter cosT history)) = false ->
  canDashAgain (player (gameAfter cosT history)) = true ->
  isKeyDown km KEY_Z = true ->
  isKeyDown km KEY_X = false ->
  isKeyDown km KEY_C = false ->
  isKeyDown km KEY_V = false ->
  status (player (checkInput cosT km tm (gameAfter cosT history))) = DASH /\
  isDashing (player (checkInput cosT km tm (gameAfter cosT history)))
    = true /\
  dashPhase (player (checkInput cosT km tm (gameAfter cosT history)))
    = phase_start /\
  dashProgress (player (checkInput cosT km tm (gameAfter cosT history)))
    = 0 /\
  dashKeyWasPressed (player (checkInput cosT km tm (gameAfter cosT history)))
    = true /\
  canDashAgain (player (checkInput cosT km tm (gameAfter cosT history)))
    = false /\
  dashDirection (player (checkInput cosT km tm (gameAfter cosT history)))
    = (if isKeyDown km KEY_LEFT then LEFT
       else if isKeyDown km KEY_RIGHT then RIGHT
       else direction (player (gameAfter cosT history))) /\
  direction (player (checkInput cosT km tm (gameAfter cosT history)))
    = dashDirection (player (checkInput cosT km tm (gameAfter cosT history)))
  /\
  x (player (checkInput cosT km tm (gameAfter cosT history)))
    = x (player (gameAfter cosT history)).
Proof.
  intros HS HK HA HZ HX HCk HV.
  destruct (gameAfter_alive cosT history) as (C1 & _).
  destruct (gameAfter_grounded cosT history) as (_ & _ & _ & _ & K5).
  pose proof (gameAfter_dashConsistent cosT history) as D.
  assert (G : maxYPosition <= y (player (gameAfter cosT history)))
    by (apply K5; destruct HS as [HS | HS]; rewrite HS; reflexivity).
  assert (N : isDashing (player (gameAfter cosT history)) = false).
  { unfold dashConsistent in D.
    destruct HS as [HS | HS]; rewrite HS in D; apply D. }
  destruct (checkInput_dashStart cosT km tm (gameAfter cosT history)
              C1 HS G N HK HA HZ HX HCk HV)
    as (R1 & R2 & R3 & R4 & R5 & R6 & R7 & R8 & R9 & _).
  repeat (split; [ assumption | ]). assumption.
Qed.

Lemma dash_starts_on_the_ground_witness :
  status (player (checkInput cosOne keys_Z_LEFT_RIGHT frame50ms
                    (gameAfter cosOne [idleFrame]))) = DASH /\
  dashDirection (player (checkInput cosOne keys_Z_LEFT_RIGHT frame50ms
                           (gameAfter cosOne [idleFrame]))) = LEFT.
Proof.
  destruct (dash_starts_on_the_ground cosOne [idleFrame] keys_Z_LEFT_RIGHT
              frame50ms)
    as (R1 & _ & _ & _ & _ & _ & R7 & _);
    [ left; reflexivity | reflexivity | reflexivity | reflexivity
    | reflexivity | reflexivity | reflexivity | ].
  split; [ exact R1 | exact R7 ].
Defined.

(** [steps] with the movement helpers run in place. *)
Ltac steps_moving :=
  run_stmts;
  repeat (first [ progress (unfold handleWalking, handleAirMovement)
                | split_enum | branch_test ]; run_stmts).

Ltac steps_moving_on t :=
  let r := fresh "r" in
  let E := fresh "E" in
  remember t as r eqn:E; revert E; steps_moving; intros E; subst r; run_stmts.

Lemma checkInput_walk (cosT : Q -> Q) (km : KeyManager)
    (tm : TimeManager) (g : Game) :
  isControlEnabled (player g) = true ->
  status (player g) = IDLE \/ status (player g) = WALK ->
  maxYPosition <= y (player g) ->
  isDashing (player g) = false ->
  isKeyDown km KEY_X = false ->
  isKeyDown km KEY_Z = false ->
  isKeyDown km KEY_C = false ->
  isKeyDown km KEY_V = false ->
  status (player (checkInput cosT km tm g))
    = (if isKeyDown km KEY_LEFT || isKeyDown km KEY_RIGHT then WALK
       else IDLE) /\
  direction (player (checkInput cosT km tm g))
    = (if isKeyDown km KEY_LEFT then LEFT
       else if isKeyDown km KEY_RIGHT then RIGHT else direction (player g)) /\
  x (player (checkInput cosT km tm g))
    = (if isKeyDown km KEY_LEFT then x (player g) - speed * getTime tm
       else if isKeyDown km KEY_RIGHT then x (player g) + speed * getTime tm
       else x (player g)) /\
  y (player (checkInput cosT km tm g)) = y (player g) /\
  scrollOffset (checkInput cosT km tm g)
    = (if (isKeyDown km KEY_LEFT || isKeyDown km KEY_RIGHT)
          && Qlt_bool 400 (x (player (checkInput cosT km tm g)))
          && Qlt_bool (x (player (checkInput cosT km tm g))) 1200
       then ScrollOffset.mk
              (ScrollOffset.x (scrollOffset g)
               + (if isKeyDown km KEY_LEFT then speed * getTime tm
                  else - speed * getTime tm))
              (ScrollOffset.y (scrollOffset g))
              (ScrollOffset.z (scrollOffset g))
       else scrollOffset g).
Proof.
  intros HC HS HY HD HX HZ HCk HV.
  destruct g as [p sc pl], km as [kx kz kl kr kc kv].
  destruct_player p.
  run_stmts_in HC; run_stmts_in HS; run_stmts_in HY; run_stmts_in HD;
    run_stmts_in HZ; run_stmts_in HX; run_stmts_in HCk; run_stmts_in HV.
  subst. destruct HS; subst.
  all: match goal with |- context [checkInput ?c ?k ?t ?g] =>
         steps_moving_on (checkInput c k t g) end.
  all: try solve [ exfalso; decide_tests; refute_tests ].
  all: try solve [ exfalso; decide_tests; tests_to_props; lra ].
  all: repeat split.
  all: run_stmts;
       repeat match goal with
       | H : ?c = _ |- context [?c] => rewrite H
       end; try reflexivity.
  all: match goal with |- ?G => idtac G end.
Qed.

(** X13.  In a frame of a run that finds the status IDLE or WALK with the
    jump, dash and attack buttons up, [checkInput] walks: with the left
    arrow down (also together with the right one) the player faces LEFT
    and [x] drops by [speed * deltaTime], with only the right arrow down it
    faces RIGHT and [x] grows by as much, with neither the status is IDLE
    and nothing moves.  [y] is untouched, and the camera moves by the
    opposite amount exactly when the new [x] is inside the scroll
    window. *)
Theorem walking_prefers_left (cosT : Q -> Q) (history : list FrameInput)
    (km : KeyManager) (tm : TimeManager) :
  status (player (gameAfter cosT history)) = IDLE
  \/ status (player (gameAfter cosT history)) = WALK ->
  isKeyDown km KEY_X = false ->
  isKeyDown km KEY_Z = false ->
  isKeyDown km KEY_C = false ->
  isKeyDown km KEY_V = false ->
  status (player (checkInput cosT km tm (gameAfter cosT history)))
    = (if isKeyDown km KEY_LEFT || isKeyDown km KEY_RIGHT then WALK
       else IDLE) /\
  direction (player (checkInput cosT km tm (gameAfter cosT history)))
    = (if isKeyDown km KEY_LEFT then LEFT
       else if isKeyDown km KEY_RIGHT then RIGHT
       else direction (player (gameAfter cosT history))) /\
  x (player (checkInput cosT km tm (gameAfter cosT history)))
    = (if isKeyDown km KEY_LEFT
       then x (player (gameAfter cosT history)) - speed * getTime tm
       else if isKeyDown km KEY_RIGHT
       then x (player (gameAfter cosT history)) + speed * getTime tm
       else x (player (gameAfter cosT history))) /\
  y (player (checkInput cosT km tm (gameAfter cosT history)))
    = y (player (gameAfter cosT history)) /\
  scrollOffset (checkInput cosT km tm (gameAfter cosT history))
    = (if (isKeyDown km KEY_LEFT || isKeyDown km KEY_RIGHT)
          && Qlt_bool 400
               (x (player (checkInput cosT km tm (gameAfter cosT history))))
          && Qlt_bool
               (x (player (checkInput cosT km tm (gameAfter cosT history))))
               1200
       then ScrollOffset.mk
              (ScrollOffset.x (scrollOffset (gameAfter cosT history))
               + (if isKeyDown km KEY_LEFT then speed * getTime tm
                  else - speed * getTime tm))
              (ScrollOffset.y (scrollOffset (gameAfter cosT history)))
              (ScrollOffset.z (scrollOffset (gameAfter cosT history)))
       else scrollOffset (gameAfter cosT history)).
Proof.
  intros HS HX HZ HCk HV.
  destruct (gameAfter_alive cosT history) as (C1 & _).
  destruct (gameAfter_grounded cosT history) as (_ & _ & _ & _ & K5).
  pose proof (gameAfter_dashConsistent cosT history) as D.
  assert (G : maxYPosition <= y (player (gameAfter cosT history)))
    by (apply K5; destruct HS as [HS | HS]; rewrite HS; reflexivity).
  assert (N : isDashing (player (gameAfter cosT history)) = false).
  { unfold dashConsistent in D.
    destruct HS as [HS | HS]; rewrite HS in D; apply D. }
  exact (checkInput_walk cosT km tm (gameAfter cosT history)
           C1 HS G N HX HZ HCk HV).
Qed.

Lemma walking_prefers_left_witness :
  status (player (checkInput cosOne keys_LEFT_RIGHT frame50ms
                    (gameAfter cosOne [idleFrame]))) = WALK /\
  direction (player (checkInput cosOne keys_LEFT_RIGHT frame50ms
                       (gameAfter cosOne [idleFrame]))) = LEFT.
Proof.
  destruct (walking_prefers_left cosOne [idleFrame] keys_LEFT_RIGHT frame50ms)
    as (R1 & R2 & _);
    [ left; reflexivity | reflexivity | reflexivity | reflexivity
    | reflexivity | ].
  split; [ exact R1 | exact R2 ].
Defined.

Lemma airborne_only_while_jumping_witness :
  status (player (gameAfter cosOne [jumpFrame; idleFrame])) = JUMPSTART
  \/ status (player (gameAfter cosOne [jumpFrame; idleFrame])) = JUMPDOWN
  \/ status (player (gameAfter cosOne [jumpFrame; idleFrame])) = JUMPATTACK.
Proof.
  apply (airborne_only_while_jumping cosOne [jumpFrame; idleFrame]).
  vm_compute. reflexivity.
Defined.

(** ** Dash motion, step by step and frame by frame (C3) *)
















(** The frame that ends the dash: the first physics step takes the
    progress from 251.5625 past 255, and the second one adds nothing. *)
Example dash_last_frame_takes_one_step :
  let before := player (gameAfter cosOne (repeat dashFrame32nd 18)) in
  let after := player (gameAfter cosOne (repeat dashFrame32nd 18
                                           ++ [dashFrame32nd])) in
  status before = DASH /\ dashPhase before = phase_moving /\
  dashProgress before == 251.5625 /\
  status after = DASHEND /\ dashPhase after = phase_end /\
  dashProgress after == 262.5.
Proof.
  vm_compute. repeat split.
Qed.

(** ** ObjectSortManager: insertion, removal, the update sweep, clearing *)

Section StoredObjectsFacts.

Context {Ref Store : Type} `{ObjectStore Ref Store}.

Lemma nth_error_middle (pre post : list Ref) (o : Ref) :
  nth_error (pre ++ o :: post) (List.length pre) = Some o.
Proof. induction pre as [|a pre IH]; cbn; [ reflexivity | exact IH ]. Qed.

Lemma splice1_middle (pre post : list Ref) (o : Ref) :
  splice1 (List.length pre) (pre ++ o :: post) = pre ++ post.
Proof.
  induction pre as [|a pre IH]; cbn; [ reflexivity | ]. rewrite IH.
  reflexivity.
Qed.

(** The inner loop visits the objects it has not yet seen from the last to
    the first, whatever it has spliced out behind them. *)
Lemma updateLayer_visits (dt : Q) (pre post : list Ref) (s : Store) :
  updateLayer dt (List.length pre) (pre ++ post) s
  = fold_left (visit dt) (rev pre) (post, s).
Proof.
  revert post s. induction pre as [|o pre IH] using rev_ind; intros post s;
    [ reflexivity | ].
  rewrite length_app, Nat.add_1_r, <- app_assoc, rev_app_distr.
  cbn [app rev fold_left updateLayer].
  rewrite nth_error_middle. unfold visit at 2. cbn [fst snd].
  destruct (destroyedIn s o).
  - rewrite splice1_middle. apply IH.
  - destruct (activeIn s o); apply (IH (o :: post)).
Qed.

Lemma updateLayer_sweep (dt : Q) (layer : list Ref) (s : Store) :
  updateLayer dt (List.length layer) layer s
  = fold_left (visit dt) (rev layer) ([], s).
Proof.
  rewrite <- (app_nil_r layer) at 2. apply updateLayer_visits.
Qed.

Section UpdatesDestroyNothing.

Variable dt : Q.

Hypothesis update_keeps_destroyed :
  forall (o o' : Ref) (s : Store),
    destroyedIn (updateObject dt o s) o' = destroyedIn s o'.

Lemma updateIfActive_destroyed (s : Store) (o o' : Ref) :
  destroyedIn (updateIfActive dt s o) o' = destroyedIn s o'.
Proof.
  unfold updateIfActive. destruct (activeIn s o); [ | reflexivity ].
  apply update_keeps_destroyed.
Qed.

Lemma fold_updateIfActive_destroyed (l : list Ref) (s : Store) (o' : Ref) :
  destroyedIn (fold_left (updateIfActive dt) l s) o' = destroyedIn s o'.
Proof.
  revert s. induction l as [|o l IH]; intros s; cbn; [ reflexivity | ].
  rewrite IH. apply updateIfActive_destroyed.
Qed.

Lemma visit_fold (l kept : list Ref) (s s0 : Store) :
  (forall o, destroyedIn s o = destroyedIn s0 o) ->
  fold_left (visit dt) l (kept, s)
  = (rev (filter (alive s0) l) ++ kept,
     fold_left (updateIfActive dt) (filter (alive s0) l) s).
Proof.
  revert kept s. induction l as [|o l IH]; intros kept s E;
    cbn [fold_left filter]; [ reflexivity | ].
  assert (A : alive s0 o = negb (destroyedIn s o))
    by (unfold alive; rewrite E; reflexivity).
  rewrite A. unfold visit at 2. cbn [fst snd].
  destruct (destroyedIn s o); cbn [negb].
  - apply IH. exact E.
  - fold (updateIfActive dt s o). rewrite IH.
    + cbn [rev fold_left]. rewrite <- app_assoc. reflexivity.
    + intros o'. rewrite updateIfActive_destroyed. apply E.
Qed.

Lemma filter_rev (p : Ref -> bool) (l : list Ref) :
  filter p (rev l) = rev (filter p l).
Proof.
  induction l as [|o l IH]; cbn; [ reflexivity | ].
  rewrite filter_app, IH. cbn. destruct (p o); cbn;
    [ reflexivity | apply app_nil_r ].
Qed.

Lemma updateLayers_sweep (layers : list (list Ref)) (s : Store) :
  updateLayers dt layers s
  = (map (filter (alive s)) layers,
     fold_left (updateIfActive dt)
       (flat_map (fun layer => rev (filter (alive s) layer)) layers) s).
Proof.
  assert (G : forall s0,
            (forall o, destroyedIn s0 o = destroyedIn s o) ->
            updateLayers dt layers s0
            = (map (filter (alive s)) layers,
               fold_left (updateIfActive dt)
                 (flat_map (fun layer => rev (filter (alive s) layer)) layers)
                 s0)).
  { induction layers as [|layer rest IH]; intros s0 E; cbn [updateLayers];
      [ reflexivity | ].
    rewrite updateLayer_sweep, (visit_fold (rev layer) [] s0 s E).
    rewrite filter_rev, rev_involutive, app_nil_r.
    rewrite IH.
    - cbn [map flat_map]. rewrite fold_left_app. reflexivity.
    - intros o. rewrite fold_updateIfActive_destroyed. apply E. }
  apply G. reflexivity.
Qed.

End UpdatesDestroyNothing.

End StoredObjectsFacts.

(** X17.  [updateObjects], when the updates of the objects do not change
    which objects are destroyed: every layer loses its destroyed objects
    and keeps the others in order, and the remaining objects are updated
    (those that are active when their turn comes) layer after layer from
    layer 0, inside a layer from the last object to the first. *)
Theorem updateObjects_sweeps_each_layer_backwards {Ref Store : Type}
    `{ObjectStore Ref Store} (dt : Q) (m : ObjectSortManager Ref)
    (s : Store) :
  (forall (o o' : Ref) (s : Store),
     destroyedIn (updateObject dt o s) o' = destroyedIn s o') ->
  initialized m = true ->
  objectLayers (fst (updateObjects dt m s))
    = map (filter (alive s)) (objectLayers m) /\
  snd (updateObjects dt m s)
    = fold_left (updateIfActive dt)
        (flat_map (fun layer => rev (filter (alive s) layer))
                  (objectLayers m)) s /\
  initialized (fst (updateObjects dt m s)) = true.
Proof.
  intros HK HI. unfold updateObjects. rewrite HI. cbn [negb].
  rewrite (updateLayers_sweep dt HK). cbn. auto.
Qed.

Lemma updateObjects_sweeps_each_layer_backwards_witness :
  objectLayers
    (fst (updateObjects 0.016
            (mkManager [[1%nat; 21%nat; 41%nat]; [2%nat; 22%nat]] true)
            ([21%nat], [])))
    = [[1%nat; 41%nat]; [2%nat; 22%nat]] /\
  snd (updateObjects 0.016
         (mkManager [[1%nat; 21%nat; 41%nat]; [2%nat; 22%nat]] true)
         ([21%nat], []))
    = ([21%nat], [41%nat; 1%nat; 22%nat; 2%nat]).
Proof.
  destruct (updateObjects_sweeps_each_layer_backwards 0.016
              (mkManager [[1%nat; 21%nat; 41%nat]; [2%nat; 22%nat]] true)
              ([21%nat], []))
    as (L & S & _); [ reflexivity | reflexivity | ].
  split; [ exact L | exact S ].
Defined.

Section LayerFacts.

Context {Obj : Type}.

Lemma push_at_length (i : nat) (o : Obj) (layers : list (list Obj)) :
  List.length (push_at i o layers) = List.length layers.
Proof.
  revert i. induction layers as [|l rest IH]; intros [|i]; cbn; auto.
Qed.

Lemma push_at_nth (i j : nat) (o : Obj) (layers : list (list Obj)) :
  (i < List.length layers)%nat ->
  nth j (push_at i o layers) []
  = if (j =? i)%nat then nth j layers [] ++ [o] else nth j layers [].
Proof.
  revert i j. induction layers as [|l rest IH]; intros i j L; cbn in L;
    [ lia | ].
  destruct i as [|i], j as [|j]; cbn; try reflexivity.
  apply IH. lia.
Qed.

Lemma count_from (layers : list (list Obj)) (a : nat) :
  fold_left (fun count layer => (count + List.length layer)%nat) layers a
  = (a + List.length (List.concat layers))%nat.
Proof.
  revert a. induction layers as [|l rest IH]; intros a; cbn; [ lia | ].
  rewrite IH, length_app. lia.
Qed.

Lemma push_at_count (i : nat) (o : Obj) (layers : list (list Obj)) :
  (i < List.length layers)%nat ->
  List.length (List.concat (push_at i o layers))
  = S (List.length (List.concat layers)).
Proof.
  revert i. induction layers as [|l rest IH]; intros i L; cbn in L;
    [ lia | ].
  destruct i as [|i]; cbn; repeat rewrite length_app; cbn.
  - lia.
  - rewrite IH by lia. lia.
Qed.

Lemma getLayerObjectCount_getLayer (i : Z) (m : ObjectSortManager Obj) :
  getLayerObjectCount i m = List.length (getLayer i m).
Proof.
  unfold getLayerObjectCount, getLayer.
  destruct ((0 <=? i)%Z && (i <? Z.of_nat (List.length (objectLayers m)))%Z);
    reflexivity.
Qed.

End LayerFacts.

Lemma addSortedObject_flag {Obj : Type} `{SortedObject Obj} (o : Obj)
    (m : ObjectSortManager Obj) :
  fst (addSortedObject (Some o) m)
    = initialized m
      && ((0 <=? getSortID o)%Z
          && (getSortID o <? Z.of_nat (List.length (objectLayers m)))%Z).
Proof.
  unfold addSortedObject. destruct (initialized m); cbn [negb andb];
    [ | reflexivity ].
  destruct ((0 <=? getSortID o)%Z
            && (getSortID o <? Z.of_nat (List.length (objectLayers m)))%Z);
    reflexivity.
Qed.

Lemma addSortedObject_layers {Obj : Type} `{SortedObject Obj} (o : Obj)
    (m : ObjectSortManager Obj) (i : Z) :
  getLayer i (snd (addSortedObject (Some o) m))
  = if fst (addSortedObject (Some o) m) && (i =? getSortID o)%Z
    then getLayer i m ++ [o] else getLayer i m.
Proof.
  unfold addSortedObject.
  destruct (initialized m) eqn:HI; cbn [negb andb]; [ | reflexivity ].
  destruct ((0 <=? getSortID o)%Z
            && (getSortID o <? Z.of_nat (List.length (objectLayers m)))%Z)
    eqn:HR; cbn [fst snd andb initialized]; [ | reflexivity ].
  apply andb_prop in HR. destruct HR as (R1 & R2).
  apply Z.leb_le in R1. apply Z.ltb_lt in R2.
  unfold getLayer. cbn [objectLayers].
  rewrite push_at_length.
  destruct ((0 <=? i)%Z && (i <? Z.of_nat (List.length (objectLayers m)))%Z)
    eqn:HL.
  - apply andb_prop in HL. destruct HL as (L1 & L2).
    apply Z.leb_le in L1. apply Z.ltb_lt in L2.
    rewrite push_at_nth by lia.
    destruct (Z.eqb_spec i (getSortID o)) as [E | E].
    + subst i. rewrite Nat.eqb_refl. reflexivity.
    + destruct (Nat.eqb_spec (Z.to_nat i) (Z.to_nat (getSortID o)));
        [ lia | reflexivity ].
  - destruct (Z.eqb_spec i (getSortID o)) as [E | E]; [ | reflexivity ].
    subst i. apply andb_false_iff in HL.
    destruct HL as [HL | HL];
      [ apply Z.leb_gt in HL | apply Z.ltb_ge in HL ]; lia.
Qed.

(** X14.  [addSortedObject] succeeds exactly when the manager is
    initialised and the object's sort id is the index of a layer; it then
    appends the object at the end of that layer, as [getLayer] shows, and
    leaves every other layer alone, so that [getLayerObjectCount] of that
    layer and [getTotalObjectCount] grow by one.  In all other cases, and
    for a missing object, it returns false and changes nothing. *)
Theorem addSortedObject_appends_to_its_layer {Obj : Type}
    `{SortedObject Obj} (o : Obj) (m : ObjectSortManager Obj) :
  fst (addSortedObject (Some o) m)
    = initialized m
      && ((0 <=? getSortID o)%Z
          && (getSortID o <? Z.of_nat (List.length (objectLayers m)))%Z) /\
  (forall i : Z,
     getLayer i (snd (addSortedObject (Some o) m))
     = if fst (addSortedObject (Some o) m) && (i =? getSortID o)%Z
       then getLayer i m ++ [o] else getLayer i m) /\
  (forall i : Z,
     getLayerObjectCount i (snd (addSortedObject (Some o) m))
     = (getLayerObjectCount i m
        + (if fst (addSortedObject (Some o) m) && (i =? getSortID o)%Z
           then 1 else 0))%nat) /\
  getTotalObjectCount (snd (addSortedObject (Some o) m))
    = (getTotalObjectCount m
       + (if fst (addSortedObject (Some o) m) then 1 else 0))%nat /\
  initialized (snd (addSortedObject (Some o) m)) = initialized m /\
  fst (addSortedObject None m) = false /\
  snd (addSortedObject None m) = m.
Proof.
  assert (L : forall i : Z,
            getLayer i (snd (addSortedObject (Some o) m))
            = if fst (addSortedObject (Some o) m) && (i =? getSortID o)%Z
              then getLayer i m ++ [o] else getLayer i m).
  { apply addSortedObject_layers. }
  split; [ apply addSortedObject_flag | ].
  split; [ exact L | ].
  split.
  { intros i. rewrite !getLayerObjectCount_getLayer, L.
    destruct (fst (addSortedObject (Some o) m) && (i =? getSortID o)%Z);
      [ rewrite length_app; reflexivity | lia ]. }
  split.
  { unfold getTotalObjectCount, addSortedObject.
    destruct (initialized m); cbn [negb]; [ | cbn; lia ].
    destruct ((0 <=? getSortID o)%Z
              && (getSortID o <? Z.of_nat (List.length (objectLayers m)))%Z)
      eqn:HR; cbn [fst snd objectLayers]; [ | lia ].
    apply andb_prop in HR. destruct HR as (R1 & R2).
    apply Z.leb_le in R1. apply Z.ltb_lt in R2.
    rewrite !count_from, push_at_count by lia. lia. }
  unfold addSortedObject.
  destruct (initialized m) eqn:HI; cbn [negb];
    [ | cbn; try rewrite HI; repeat split ].
  destruct ((0 <=? getSortID o)%Z
            && (getSortID o <? Z.of_nat (List.length (objectLayers m)))%Z);
    cbn; try rewrite HI; repeat split.
Qed.

Section RemovalFacts.

Context {Ref Store : Type} `{ObjectStore Ref Store}.

Lemma indexOf_found (layer : list Ref) (o : Ref) (n : nat) :
  indexOf layer o = Some n ->
  exists pre post,
    layer = pre ++ o :: post /\ ~ In o pre /\ List.length pre = n.
Proof.
  revert n. induction layer as [|a rest IH]; intros n E; cbn in E;
    [ discriminate | ].
  destruct (sameObject a o) as [Eq | Ne].
  - injection E as <-. subst a. exists [], rest. cbn. auto.
  - destruct (indexOf rest o) as [k|] eqn:EK; [ | discriminate ].
    injection E as <-.
    destruct (IH k eq_refl) as (pre & post & E1 & E2 & E3).
    exists (a :: pre), post. subst rest. cbn.
    repeat split; [ | congruence ].
    intros [I | I]; [ exact (Ne I) | exact (E2 I) ].
Qed.

Lemma indexOf_missing (layer : list Ref) (o : Ref) :
  indexOf layer o = None -> ~ In o layer.
Proof.
  induction layer as [|a rest IH]; cbn; intros E; [ tauto | ].
  destruct (sameObject a o) as [Eq | Ne]; [ discriminate | ].
  destruct (indexOf rest o) eqn:EK; [ discriminate | ].
  intros [I | I]; [ exact (Ne I) | exact (IH eq_refl I) ].
Qed.

Lemma indexOf_fresh (layer : list Ref) (o : Ref) :
  ~ In o layer -> indexOf (layer ++ [o]) o = Some (List.length layer).
Proof.
  induction layer as [|a rest IH]; cbn; intros N.
  - destruct (sameObject o o); [ reflexivity | congruence ].
  - destruct (sameObject a o) as [Eq | Ne]; [ tauto | ].
    rewrite IH by tauto. reflexivity.
Qed.

Lemma splice1_last (layer : list Ref) (o : Ref) :
  splice1 (List.length layer) (layer ++ [o]) = layer.
Proof.
  rewrite (splice1_middle layer [] o). apply app_nil_r.
Qed.

Lemma splice_at_length (i idx : nat) (layers : list (list Ref)) :
  List.length (splice_at i idx layers) = List.length layers.
Proof.
  revert i. induction layers as [|l rest IH]; intros [|i]; cbn; auto.
Qed.

Lemma splice_at_nth (i j idx : nat) (layers : list (list Ref)) :
  (i < List.length layers)%nat ->
  nth j (splice_at i idx layers) []
  = if (j =? i)%nat then splice1 idx (nth j layers []) else nth j layers [].
Proof.
  revert i j. induction layers as [|l rest IH]; intros i j L; cbn in L;
    [ lia | ].
  destruct i as [|i], j as [|j]; cbn; try reflexivity.
  apply IH. lia.
Qed.

Lemma splice_at_push_at (i : nat) (o : Ref) (layers : list (list Ref)) :
  splice_at i (List.length (nth i layers [])) (push_at i o layers) = layers.
Proof.
  revert i. induction layers as [|l rest IH]; intros [|i]; cbn;
    try reflexivity.
  - rewrite splice1_last. reflexivity.
  - rewrite IH. reflexivity.
Qed.

Lemma splice_at_count (i : nat) (pre post : list Ref) (o : Ref)
    (layers : list (list Ref)) :
  (i < List.length layers)%nat ->
  nth i layers [] = pre ++ o :: post ->
  S (List.length (List.concat (splice_at i (List.length pre) layers)))
  = List.length (List.concat layers).
Proof.
  revert i. induction layers as [|l rest IH]; intros i L E; cbn in L;
    [ lia | ].
  destruct i as [|i]; cbn in E |- *.
  - subst l. rewrite splice1_middle. repeat rewrite length_app. cbn. lia.
  - repeat rewrite length_app.
    rewrite <- (IH i); [ lia | lia | exact E ].
Qed.

End RemovalFacts.

(** X15.  [removeSortedObject] returns true exactly when it removes
    something: the first occurrence of the object in the layer of its sort
    id goes, the objects before and after it keep their order, the other
    layers are untouched and the total count drops by one.  When it
    returns false the manager is unchanged, and an initialised manager
    does not hold the object in that layer. *)
Theorem removeSortedObject_takes_the_first_occurrence {Ref Store : Type}
    `{ObjectStore Ref Store} (s : Store) (o : Ref)
    (m : ObjectSortManager Ref) :
  (fst (removeSortedObject (Some o) s m) = true ->
     initialized m = true /\
     (exists pre post,
        getLayer (sortIDIn s o) m = pre ++ o :: post /\
        ~ In o pre /\
        getLayer (sortIDIn s o) (snd (removeSortedObject (Some o) s m))
          = pre ++ post) /\
     (forall i : Z,
        i <> sortIDIn s o ->
        getLayer i (snd (removeSortedObject (Some o) s m)) = getLayer i m) /\
     S (getTotalObjectCount (snd (removeSortedObject (Some o) s m)))
       = getTotalObjectCount m) /\
  (fst (removeSortedObject (Some o) s m) = false ->
     snd (removeSortedObject (Some o) s m) = m /\
     (initialized m = true -> ~ In o (getLayer (sortIDIn s o) m))) /\
  removeSortedObject None s m = (false, m).
Proof.
  unfold removeSortedObject, getLayer.
  destruct (initialized m) eqn:HI; cbn [negb].
  2:{ cbn. repeat split; try discriminate. }
  destruct ((0 <=? sortIDIn s o)%Z
            && (sortIDIn s o <? Z.of_nat (List.length (objectLayers m)))%Z)
    eqn:HR.
  2:{ cbn. repeat split; try discriminate. tauto. }
  apply andb_prop in HR. destruct HR as (R1 & R2).
  apply Z.leb_le in R1. apply Z.ltb_lt in R2.
  destruct (indexOf (nth (Z.to_nat (sortIDIn s o)) (objectLayers m) []) o)
    as [n|] eqn:EI; cbn [fst snd objectLayers].
  2:{ repeat split; try discriminate. intros _.
      apply indexOf_missing. exact EI. }
  split; [ | split; [ discriminate | reflexivity ] ].
  intros _. split; [ reflexivity | ].
  destruct (indexOf_found _ _ _ EI) as (pre & post & E1 & E2 & E3).
  rewrite splice_at_length.
  split; [ | split ].
  - exists pre, post. split; [ exact E1 | ]. split; [ exact E2 | ].
    destruct (Z.leb_spec 0 (sortIDIn s o)); [ | lia ].
    destruct (Z.ltb_spec (sortIDIn s o)
                (Z.of_nat (List.length (objectLayers m)))); [ | lia ].
    cbn [andb]. rewrite splice_at_nth by lia.
    rewrite Nat.eqb_refl, E1, <- E3. apply splice1_middle.
  - intros i NE.
    destruct ((0 <=? i)%Z
              && (i <? Z.of_nat (List.length (objectLayers m)))%Z) eqn:HL;
      [ | reflexivity ].
    apply andb_prop in HL. destruct HL as (L1 & L2).
    apply Z.leb_le in L1. apply Z.ltb_lt in L2.
    rewrite splice_at_nth by lia.
    destruct (Nat.eqb_spec (Z.to_nat i) (Z.to_nat (sortIDIn s o)));
      [ lia | reflexivity ].
  - unfold getTotalObjectCount. cbn [objectLayers].
    rewrite !count_from. cbn [Nat.add]. subst n.
    apply (splice_at_count _ pre post o); [ lia | exact E1 ].
Qed.

(** X16.  Removing an object right after adding it restores the manager,
    provided the object was not already in the layer of its sort id, and
    the removal reports what the insertion reported. *)
Theorem removeSortedObject_undoes_add {Ref Store : Type}
    `{ObjectStore Ref Store} (s : Store) (o : Ref)
    (m : ObjectSortManager Ref) :
  ~ In o (@getLayer Ref (sortIDIn s o) m) ->
  removeSortedObject (Some o) s
    (snd (@addSortedObject Ref (viewAt s) (Some o) m))
  = (fst (@addSortedObject Ref (viewAt s) (Some o) m), m).
Proof.
  intros N. unfold addSortedObject, removeSortedObject, getLayer in *.
  cbn [getSortID viewAt] in *.
  destruct (initialized m) eqn:HI; cbn [negb].
  2:{ cbn. rewrite HI. reflexivity. }
  destruct ((0 <=? sortIDIn s o)%Z
            && (sortIDIn s o <? Z.of_nat (List.length (objectLayers m)))%Z)
    eqn:HR; cbn [fst snd initialized objectLayers negb].
  2:{ rewrite HI, HR. reflexivity. }
  rewrite push_at_length, HR.
  apply andb_prop in HR. destruct HR as (R1 & R2).
  apply Z.leb_le in R1. apply Z.ltb_lt in R2.
  rewrite push_at_nth by lia. rewrite Nat.eqb_refl.
  rewrite indexOf_fresh by exact N.
  rewrite splice_at_push_at. destruct m; cbn in *. subst. reflexivity.
Qed.

Lemma removeSortedObject_undoes_add_witness :
  removeSortedObject (Some 21%nat) ([], [])
    (snd (@addSortedObject nat (viewAt ([], [])) (Some 21%nat)
            (mkManager (repeat [] 20) true)))
  = (true, mkManager (repeat [] 20) true).
Proof.
  assert (N : ~ In 21%nat
                 (@getLayer nat (sortIDIn ([], []) 21%nat)
                    (mkManager (repeat [] 20) true)))
    by (vm_compute; tauto).
  exact (removeSortedObject_undoes_add ([], []) 21%nat
           (mkManager (repeat [] 20) true) N).
Defined.

Section ClearingFacts.

Context {Ref Store : Type} `{ObjectStore Ref Store}.

Hypothesis destroy_marks :
  forall (o : Ref) (s : Store), destroyedIn (destroyObject o s) o = true.

Hypothesis destroy_keeps_marks :
  forall (o o' : Ref) (s : Store),
    destroyedIn s o' = true -> destroyedIn (destroyObject o s) o' = true.

Lemma destroyLayer_keeps_marks (layer : list Ref) (s : Store) (o : Ref) :
  destroyedIn s o = true -> destroyedIn (destroyLayer layer s) o = true.
Proof.
  unfold destroyLayer. revert s.
  induction layer as [|a rest IH]; intros s D; cbn; [ exact D | ].
  apply IH. apply destroy_keeps_marks. exact D.
Qed.

Lemma destroyLayer_marks (layer : list Ref) (s : Store) (o : Ref) :
  In o layer -> destroyedIn (destroyLayer layer s) o = true.
Proof.
  unfold destroyLayer. revert s.
  induction layer as [|a rest IH]; intros s I; cbn; [ destruct I | ].
  destruct I as [<- | I]; [ | apply IH; exact I ].
  apply (destroyLayer_keeps_marks rest). apply destroy_marks.
Qed.

Lemma destroyLayers_keep_marks (layers : list (list Ref)) (s : Store)
    (o : Ref) :
  destroyedIn s o = true ->
  destroyedIn (fold_left (fun s layer => destroyLayer layer s) layers s) o
    = true.
Proof.
  revert s. induction layers as [|l rest IH]; intros s D; cbn; [ exact D | ].
  apply IH. apply destroyLayer_keeps_marks. exact D.
Qed.

Lemma destroyLayers_mark (layers : list (list Ref)) (s : Store) (o : Ref) :
  In o (List.concat layers) ->
  destroyedIn (fold_left (fun s layer => destroyLayer layer s) layers s) o
    = true.
Proof.
  revert s. induction layers as [|l rest IH]; intros s I; cbn in *;
    [ destruct I | ].
  apply in_app_or in I. destruct I as [I | I]; [ | apply IH; exact I ].
  apply destroyLayers_keep_marks. apply destroyLayer_marks. exact I.
Qed.

End ClearingFacts.

Lemma renderLayers_empty {Obj : Type} `{SortedObject Obj}
    (layers : list (list Obj)) :
  renderLayers (map (fun _ => []) layers) = [].
Proof. induction layers as [|l rest IH]; cbn; [ reflexivity | exact IH ]. Qed.

Lemma concat_empty {Obj : Type} (layers : list (list Obj)) :
  List.concat (map (fun _ => []) layers) = @nil Obj.
Proof. induction layers as [|l rest IH]; cbn; [ reflexivity | exact IH ]. Qed.

(** X18.  [clearAllObjects], when [destroy] marks its object destroyed and
    never revives another: every object that was in a layer is destroyed
    afterwards, the manager keeps its layers, all empty, and its
    initialisation flag, and a following [renderObjects] renders nothing
    and a following [updateObjects] changes nothing. *)
Theorem clearAllObjects_destroys_every_object {Ref Store : Type}
    `{ObjectStore Ref Store} (m : ObjectSortManager Ref) (s : Store) :
  (forall (o : Ref) (s : Store), destroyedIn (destroyObject o s) o = true) ->
  (forall (o o' : Ref) (s : Store),
     destroyedIn s o' = true -> destroyedIn (destroyObject o s) o' = true) ->
  (forall o : Ref,
     In o (List.concat (objectLayers m)) ->
     destroyedIn (snd (clearAllObjects m s)) o = true) /\
  getTotalObjectCount (fst (clearAllObjects m s)) = O /\
  List.length (objectLayers (fst (clearAllObjects m s)))
    = List.length (objectLayers m) /\
  initialized (fst (clearAllObjects m s)) = initialized m /\
  (forall s' : Store,
     @renderObjects Ref (viewAt s') (fst (clearAllObjects m s)) = []) /\
  (forall (dt : Q) (s' : Store),
     updateObjects dt (fst (clearAllObjects m s)) s'
     = (fst (clearAllObjects m s), s')).
Proof.
  intros M K. unfold clearAllObjects. cbn [fst snd].
  split; [ intros o I; apply destroyLayers_mark; assumption | ].
  split.
  { unfold getTotalObjectCount. cbn [objectLayers].
    rewrite count_from, concat_empty. reflexivity. }
  split; [ cbn; apply length_map | ].
  split; [ reflexivity | ].
  split.
  { intros s'. unfold renderObjects. cbn [initialized objectLayers].
    destruct (negb (initialized m)); [ reflexivity | ].
    apply renderLayers_empty. }
  intros dt s'. unfold updateObjects. cbn [initialized objectLayers].
  destruct (initialized m); cbn [negb]; [ | reflexivity ].
  assert (E : updateLayers dt (map (fun _ => []) (objectLayers m)) s'
              = (map (fun _ => []) (objectLayers m), s')).
  { induction (objectLayers m) as [|l rest IH]; cbn; [ reflexivity | ].
    rewrite IH. reflexivity. }
  rewrite E. reflexivity.
Qed.

Lemma clearAllObjects_destroys_every_object_witness :
  destroyedIn
    (snd (clearAllObjects (mkManager [[1%nat; 21%nat]; [2%nat]] true)
            ([], [])))
    2%nat = true.
Proof.
  destruct (clearAllObjects_destroys_every_object
              (mkManager [[1%nat; 21%nat]; [2%nat]] true) ([], []))
    as (D & _).
  - intros o s. cbn. rewrite Nat.eqb_refl. reflexivity.
  - intros o o' s E. cbn in *. rewrite E. apply orb_true_r.
  - apply D. cbn. auto.
Defined.

Section ClearLayerFacts.

Context {Ref Store : Type} `{ObjectStore Ref Store}.

Lemma empty_at_middle (pre rest : list (list Ref)) (l : list Ref) :
  empty_at (List.length pre) (pre ++ l :: rest) = pre ++ [] :: rest.
Proof.
  induction pre as [|a pre IH]; cbn; [ reflexivity | ]. rewrite IH.
  reflexivity.
Qed.

Lemma nth_middle_layer (pre rest : list (list Ref)) (l : list Ref) :
  nth (List.length pre) (pre ++ l :: rest) [] = l.
Proof. induction pre as [|a pre IH]; cbn; [ reflexivity | exact IH ]. Qed.

Lemma clearLayer_middle (pre rest : list (list Ref)) (l : list Ref)
    (b : bool) (s : Store) :
  clearLayer (Z.of_nat (List.length pre)) (mkManager (pre ++ l :: rest) b) s
  = (mkManager (pre ++ [] :: rest) b, destroyLayer l s).
Proof.
  unfold clearLayer. cbn [objectLayers initialized].
  rewrite length_app. cbn [List.length].
  destruct (Z.leb_spec 0 (Z.of_nat (List.length pre))); [ | lia ].
  destruct (Z.ltb_spec (Z.of_nat (List.length pre))
              (Z.of_nat (List.length pre + S (List.length rest))));
    [ | lia ].
  cbn [andb]. rewrite Nat2Z.id, empty_at_middle, nth_middle_layer.
  reflexivity.
Qed.

Lemma clearLayer_each (todo pre : list (list Ref)) (b : bool) (s : Store) :
  fold_left (fun ms i => clearLayer (Z.of_nat i) (fst ms) (snd ms))
    (seq (List.length pre) (List.length todo))
    (mkManager (pre ++ todo) b, s)
  = (mkManager (pre ++ map (fun _ => []) todo) b,
     fold_left (fun s layer => destroyLayer layer s) todo s).
Proof.
  revert pre s. induction todo as [|l rest IH]; intros pre s;
    [ reflexivity | ].
  cbn [List.length seq fold_left fst snd map].
  rewrite clearLayer_middle. cbn [fst snd].
  replace (S (List.length pre)) with (List.length (pre ++ [[]]))
    by (rewrite length_app; cbn; lia).
  replace (pre ++ [] :: rest) with ((pre ++ [[]]) ++ rest)
    by (rewrite <- app_assoc; reflexivity).
  rewrite IH. rewrite <- app_assoc. reflexivity.
Qed.

End ClearLayerFacts.

(** X19.  Clearing the layers one by one with [clearLayer], from layer 0
    to the last, is [clearAllObjects]: same manager, same objects
    destroyed in the same order.  [clearLayer] on an index outside the
    layers does nothing. *)
Theorem clearAllObjects_is_clearLayer_on_every_layer {Ref Store : Type}
    `{ObjectStore Ref Store} (m : ObjectSortManager Ref) (s : Store) :
  fold_left (fun ms i => clearLayer (Z.of_nat i) (fst ms) (snd ms))
    (seq 0 (List.length (objectLayers m))) (m, s)
  = clearAllObjects m s /\
  (forall i : Z,
     (i < 0)%Z \/ (Z.of_nat (List.length (objectLayers m)) <= i)%Z ->
     clearLayer i m s = (m, s)).
Proof.
  split.
  - destruct m as [layers b]. cbn [objectLayers].
    apply (clearLayer_each layers [] b s).
  - intros i R. unfold clearLayer.
    destruct (Z.leb_spec 0 i); cbn [andb]; [ | reflexivity ].
    destruct (Z.ltb_spec i (Z.of_nat (List.length (objectLayers m))));
      [ lia | reflexivity ].
Qed.

(** ** GameObject and TimeManager *)

Lemma Qlt_bool_sym_and (a b c d : bool) : a && b && c && d = b && a && d && c.
Proof. destruct a, b, c, d; reflexivity. Qed.

(** X20.  [checkCollision] is symmetric; it is false when collision is
    disabled on the receiver; boxes that only touch along an edge do not
    collide; and an object collides with itself exactly when collision is
    enabled and its box has a positive width and height. *)
Theorem checkCollision_is_symmetric_and_strict (a b : GameObject.t) :
  GameObject.checkCollision a b = GameObject.checkCollision b a /\
  (GameObject.collisionEnabled a = false ->
     GameObject.checkCollision a b = false) /\
  (GameObject.box_x (GameObject.collisionBox a)
   + GameObject.width (GameObject.collisionBox a)
   == GameObject.box_x (GameObject.collisionBox b) ->
     GameObject.checkCollision a b = false) /\
  (GameObject.checkCollision a a
   = GameObject.collisionEnabled a
     && Qlt_bool 0 (GameObject.width (GameObject.collisionBox a))
     && Qlt_bool 0 (GameObject.height (GameObject.collisionBox a))).
Proof.
  destruct a as [i1 sp1 t1 m1 [x1 y1 w1 h1] e1],
           b as [i2 sp2 t2 m2 [x2 y2 w2 h2] e2].
  unfold GameObject.checkCollision. cbn.
  split; [ | split; [ | split ] ].
  - destruct e1, e2; cbn; try reflexivity. apply Qlt_bool_sym_and.
  - intros ->. reflexivity.
  - intros E. destruct e1, e2; cbn; try reflexivity.
    destruct (Qlt_bool x2 (x1 + w1)) eqn:T.
    + apply Qlt_bool_iff in T. lra.
    + rewrite andb_false_r. reflexivity.
  - destruct e1; cbn; [ | reflexivity ].
    assert (A : forall x w, Qlt_bool x (x + w) = Qlt_bool 0 w).
    { intros x w. destruct (Qlt_bool 0 w) eqn:T.
      - apply Qlt_bool_iff in T. apply Qlt_bool_iff. lra.
      - apply Qlt_bool_false_iff in T. apply Qlt_bool_false_iff. lra. }
    rewrite !A. destruct (Qlt_bool 0 w1), (Qlt_bool 0 h1); reflexivity.
Qed.

(** X21.  For boxes of positive width and height, [checkCollision]
    returns true exactly when collision is enabled on both objects and
    some point lies strictly inside both boxes. *)
Theorem checkCollision_is_overlap (a b : GameObject.t) :
  0 < GameObject.width (GameObject.collisionBox a) ->
  0 < GameObject.height (GameObject.collisionBox a) ->
  0 < GameObject.width (GameObject.collisionBox b) ->
  0 < GameObject.height (GameObject.collisionBox b) ->
  (GameObject.checkCollision a b = true <->
   GameObject.collisionEnabled a = true /\
   GameObject.collisionEnabled b = true /\
   exists px py : Q,
     insideBox px py (GameObject.collisionBox a) /\
     insideBox px py (GameObject.collisionBox b)).
Proof.
  destruct a as [i1 sp1 t1 m1 [x1 y1 w1 h1] e1],
           b as [i2 sp2 t2 m2 [x2 y2 w2 h2] e2].
  unfold GameObject.checkCollision, insideBox. cbn.
  intros W1 H1 W2 H2. split.
  - destruct e1, e2; cbn; try discriminate. intros E.
    apply andb_prop in E. destruct E as (E & E4).
    apply andb_prop in E. destruct E as (E & E3).
    apply andb_prop in E. destruct E as (E1 & E2).
    apply Qlt_bool_iff in E1, E2, E3, E4.
    split; [ reflexivity | ]. split; [ reflexivity | ].
    assert (PX : exists px, x1 < px /\ px < x1 + w1 /\
                            x2 < px /\ px < x2 + w2).
    { destruct (Qlt_le_dec x1 x2), (Qlt_le_dec (x1 + w1) (x2 + w2));
        [ exists ((x2 + (x1 + w1)) * (1#2)) | exists ((x2 + (x2 + w2)) * (1#2))
        | exists ((x1 + (x1 + w1)) * (1#2)) | exists ((x1 + (x2 + w2)) * (1#2)) ];
        repeat split; lra. }
    assert (PY : exists py, y1 < py /\ py < y1 + h1 /\
                            y2 < py /\ py < y2 + h2).
    { destruct (Qlt_le_dec y1 y2), (Qlt_le_dec (y1 + h1) (y2 + h2));
        [ exists ((y2 + (y1 + h1)) * (1#2)) | exists ((y2 + (y2 + h2)) * (1#2))
        | exists ((y1 + (y1 + h1)) * (1#2)) | exists ((y1 + (y2 + h2)) * (1#2)) ];
        repeat split; lra. }
    destruct PX as (px & P1 & P2 & P3 & P4).
    destruct PY as (py & P5 & P6 & P7 & P8).
    exists px, py. repeat split; assumption.
  - intros (-> & -> & px & py & (A1 & A2 & A3 & A4) & (B1 & B2 & B3 & B4)).
    cbn.
    rewrite !(proj2 (Qlt_bool_iff _ _)); [ reflexivity | lra | lra | lra | lra ].
Qed.

Lemma checkCollision_is_overlap_witness :
  exists px py : Q,
    insideBox px py (GameObject.collisionBox box_10_10) /\
    insideBox px py (GameObject.collisionBox box_5_5).
Proof.
  apply (checkCollision_is_overlap box_10_10 box_5_5);
    reflexivity.
Defined.

(** X22.  The base [updateAnimation] keeps the frame index inside
    [0 .. maxFrames - 1] and the frame time inside [0, 1), for a
    non-negative [deltaTime]: the index either stays or moves to the next
    frame, wrapping to 0 after the last, and [maxFrames] and [frameSpeed]
    are not changed. *)
Theorem base_updateAnimation_cycles_the_frames (dt : Q) (o : GameObject.t) :
  (0 <= GameObject.frameIndex o < GameObject.maxFrames o)%Z ->
  0 <= GameObject.frameTime o ->
  GameObject.frameTime o < 1 ->
  0 <= dt ->
  (0 <= GameObject.frameIndex (GameObject.updateAnimation dt o)
   < GameObject.maxFrames o)%Z /\
  0 <= GameObject.frameTime (GameObject.updateAnimation dt o) /\
  GameObject.frameTime (GameObject.updateAnimation dt o) < 1 /\
  GameObject.maxFrames (GameObject.updateAnimation dt o)
    = GameObject.maxFrames o /\
  GameObject.frameSpeed (GameObject.updateAnimation dt o)
    = GameObject.frameSpeed o /\
  (GameObject.frameIndex (GameObject.updateAnimation dt o)
     = GameObject.frameIndex o
   \/ GameObject.frameIndex (GameObject.updateAnimation dt o)
      = ((GameObject.frameIndex o + 1) mod GameObject.maxFrames o)%Z).
Proof.
  destruct o as [i sp t m box e]. unfold GameObject.updateAnimation. cbn.
  intros HI T0 T1 HT.
  destruct (Qle_bool sp 0) eqn:ES; cbn [orb].
  { cbn. repeat split; auto; lia. }
  destruct (m <=? 1)%Z eqn:EM.
  { cbn. repeat split; auto; lia. }
  apply Qle_bool_false_iff in ES. apply Z.leb_gt in EM.
  destruct (Qle_bool 1 (t + sp * dt)) eqn:EF; cbn.
  - rewrite Z.rem_mod_nonneg by lia.
    pose proof (Z.mod_pos_bound (i + 1) m ltac:(lia)).
    repeat split; auto; try lia; lra.
  - apply Qle_bool_false_iff in EF.
    assert (0 <= sp * dt) by (apply Qmult_le_0_compat; lra).
    repeat split; auto; try lia; lra.
Qed.

Lemma base_updateAnimation_cycles_the_frames_witness :
  (0 <= GameObject.frameIndex (GameObject.updateAnimation 0.016 fourFrames)
   < 4)%Z.
Proof.
  apply (base_updateAnimation_cycles_the_frames 0.016 fourFrames);
    vm_compute; intuition discriminate.
Defined.

(** ** The clock *)

Lemma setTime_bounded (now : Q) (tm : TimeMgr.t) :
  TimeMgr.deltaTime tm <= 0.05 ->
  TimeMgr.deltaTime (TimeMgr.setTime now tm) <= 0.05.
Proof.
  intros B. unfold TimeMgr.setTime.
  destruct (TimeMgr.initialized tm); cbn; [ | exact B ].
  destruct (Qlt_bool 0.05 ((now - TimeMgr.lastTime tm) / 1000)) eqn:E;
    [ lra | ].
  apply Qlt_bool_false_iff in E. exact E.
Qed.

Lemma setTime_last (now : Q) (tm : TimeMgr.t) :
  TimeMgr.initialized tm = true ->
  TimeMgr.lastTime (TimeMgr.setTime now tm) = now /\
  TimeMgr.initialized (TimeMgr.setTime now tm) = true.
Proof.
  intros I. unfold TimeMgr.setTime. rewrite I. cbn. auto.
Qed.

Lemma setTime_nonneg (now : Q) (tm : TimeMgr.t) :
  TimeMgr.initialized tm = true ->
  TimeMgr.lastTime tm <= now ->
  0 <= TimeMgr.deltaTime (TimeMgr.setTime now tm).
Proof.
  intros I L. unfold TimeMgr.setTime. rewrite I. cbn.
  destruct (Qlt_bool 0.05 ((now - TimeMgr.lastTime tm) / 1000)); [ lra | ].
  apply Qle_shift_div_l; lra.
Qed.

Lemma clock_run (readings : list Q) (tm : TimeMgr.t) :
  TimeMgr.initialized tm = true ->
  TimeMgr.monotonic (TimeMgr.lastTime tm) readings ->
  0 <= TimeMgr.deltaTime tm <= 0.05 ->
  0 <= TimeMgr.deltaTime
         (fold_left (fun tm now => TimeMgr.setTime now tm) readings tm)
    <= 0.05.
Proof.
  revert tm. induction readings as [|now rest IH]; intros tm I M B; cbn;
    [ exact B | ].
  destruct M as (M1 & M2). destruct (setTime_last now tm I) as (L1 & L2).
  apply IH; [ exact L2 | rewrite L1; exact M2 | ].
  split; [ apply setTime_nonneg; assumption | apply setTime_bounded, B ].
Qed.

(** X23.  With a clock that does not run backwards, the delta time that
    [getTime] reports after [initTimeMgr] and any number of [setTime] calls
    lies between 0 and 0.05 seconds, and [getFPS] is either 0 (no time
    elapsed) or at least 20. *)
Theorem deltaTime_stays_within_50ms (start : Q) (readings : list Q) :
  TimeMgr.monotonic start readings ->
  0 <= TimeMgr.getTime (TimeMgr.clockAfter start readings) /\
  TimeMgr.getTime (TimeMgr.clockAfter start readings) <= 0.05 /\
  (TimeMgr.getFPS (TimeMgr.clockAfter start readings) == 0
   \/ 20 <= TimeMgr.getFPS (TimeMgr.clockAfter start readings)).
Proof.
  intros M.
  assert (B : 0 <= TimeMgr.deltaTime (TimeMgr.clockAfter start readings)
              <= 0.05).
  { unfold TimeMgr.clockAfter. apply clock_run; cbn; auto. lra. }
  unfold TimeMgr.getTime, TimeMgr.getFPS.
  split; [ apply B | ]. split; [ apply B | ].
  destruct (Qlt_bool 0 (TimeMgr.deltaTime (TimeMgr.clockAfter start readings)))
    eqn:E; [ right | left; reflexivity ].
  apply Qlt_bool_iff in E.
  apply Qle_shift_div_l; [ exact E | ]. lra.
Qed.

Lemma deltaTime_stays_within_50ms_witness :
  TimeMgr.getTime (TimeMgr.clockAfter 1000 [1016; 1032; 2000]) <= 0.05.
Proof.
  apply (deltaTime_stays_within_50ms 1000 [1016; 1032; 2000]).
  cbn. repeat split; discriminate.
Defined.

(** ** KeyManager *)

Lemma Key_eqb_spec (a b : KeyMgr.Key) : reflect (a = b) (KeyMgr.Key_eqb a b).
Proof.
  destruct a as [s | s], b as [t | t]; cbn;
    try (constructor; discriminate);
    destruct (String.eqb_spec s t); constructor; congruence.
Qed.

Lemma Key_eqb_refl (a : KeyMgr.Key) : KeyMgr.Key_eqb a a = true.
Proof. destruct (Key_eqb_spec a a); congruence. Qed.

Lemma Map_get_set_same (key : KeyMgr.Key) (v : bool) (m : KeyMgr.KeyMap) :
  KeyMgr.Map_get key (KeyMgr.Map_set key v m) = Some v.
Proof.
  induction m as [|[k w] rest IH]; cbn.
  - rewrite Key_eqb_refl. reflexivity.
  - destruct (KeyMgr.Key_eqb k key) eqn:E; cbn; rewrite E; auto.
Qed.

Lemma Map_get_set_other (key other : KeyMgr.Key) (v : bool)
    (m : KeyMgr.KeyMap) :
  other <> key ->
  KeyMgr.Map_get other (KeyMgr.Map_set key v m) = KeyMgr.Map_get other m.
Proof.
  intros N. induction m as [|[k w] rest IH]; cbn.
  - destruct (Key_eqb_spec key other); [ congruence | reflexivity ].
  - destruct (Key_eqb_spec k key) as [E | E]; cbn.
    + subst k. destruct (Key_eqb_spec key other); [ congruence | ].
      reflexivity.
    + rewrite IH. reflexivity.
Qed.

Lemma Map_set_fresh (key : KeyMgr.Key) (v : bool) (m : KeyMgr.KeyMap) :
  ~ In key (map fst m) -> KeyMgr.Map_set key v m = m ++ [(key, v)].
Proof.
  induction m as [|[k w] rest IH]; cbn; intros N; [ reflexivity | ].
  destruct (Key_eqb_spec k key) as [E | E]; [ tauto | ].
  rewrite IH by tauto. reflexivity.
Qed.

Lemma Map_set_keys (key other : KeyMgr.Key) (v : bool) (m : KeyMgr.KeyMap) :
  In other (map fst (KeyMgr.Map_set key v m)) ->
  In other (map fst m) \/ other = key.
Proof.
  induction m as [|[k w] rest IH]; cbn.
  - intros [<- | []]. auto.
  - destruct (Key_eqb_spec k key) as [E | E]; cbn.
    + tauto.
    + intros [<- | I]; [ auto | ]. destruct (IH I); auto.
Qed.

Lemma Map_set_NoDup (key : KeyMgr.Key) (v : bool) (m : KeyMgr.KeyMap) :
  NoDup (map fst m) -> NoDup (map fst (KeyMgr.Map_set key v m)).
Proof.
  induction m as [|[k w] rest IH]; cbn; intros N.
  - repeat constructor. intros [].
  - inversion N as [|? ? N1 N2]; subst.
    destruct (Key_eqb_spec k key) as [E | E]; cbn.
    + constructor; assumption.
    + constructor; [ | apply IH; exact N2 ].
      intros I. destruct (Map_set_keys _ _ _ _ I); [ tauto | congruence ].
Qed.

(** Copying a Map entry by entry gives the Map back. *)
Lemma copy_entries (m acc : KeyMgr.KeyMap) :
  NoDup (map fst (acc ++ m)) ->
  fold_left (fun prev entry => KeyMgr.Map_set (fst entry) (snd entry) prev)
            m acc
  = acc ++ m.
Proof.
  revert acc. induction m as [|[k w] rest IH]; intros acc N; cbn.
  - symmetry. apply app_nil_r.
  - rewrite Map_set_fresh.
    + rewrite IH; rewrite <- app_assoc; [ reflexivity | exact N ].
    + rewrite map_app in N. cbn in N. apply NoDup_remove_2 in N.
      intros I. apply N. apply in_or_app. left. exact I.
Qed.

Lemma handle_NoDup (km : KeyMgr.t) (e : KeyMgr.Event) :
  NoDup (map fst (KeyMgr.keys km)) ->
  NoDup (map fst (KeyMgr.keys (KeyMgr.handle km e))).
Proof.
  intros N. destruct e; cbn.
  - unfold KeyMgr.keydown. destruct (KeyMgr.keyMappings code); cbn;
      [ apply Map_set_NoDup | ]; exact N.
  - unfold KeyMgr.keyup. destruct (KeyMgr.keyMappings code); cbn;
      [ apply Map_set_NoDup | ]; exact N.
  - constructor.
  - constructor.
  - exact N.
  - exact N.
  - unfold KeyMgr.update, KeyMgr.updateGamepad.
    destruct (KeyMgr.initialized km); cbn; [ | exact N ].
    destruct (KeyMgr.gamepadIndex km =? -1)%Z; cbn; [ exact N | ].
    destruct pad; cbn; [ | exact N ].
    repeat apply Map_set_NoDup. exact N.
Qed.

Lemma after_snoc (events : list KeyMgr.Event) (e : KeyMgr.Event) :
  KeyMgr.after (events ++ [e]) = KeyMgr.handle (KeyMgr.after events) e.
Proof. unfold KeyMgr.after. rewrite fold_left_app. reflexivity. Qed.

Lemma after_NoDup (events : list KeyMgr.Event) :
  NoDup (map fst (KeyMgr.keys (KeyMgr.after events))).
Proof.
  induction events as [|e events IH] using rev_ind; [ constructor | ].
  rewrite after_snoc. apply handle_NoDup. exact IH.
Qed.

Lemma after_initialized (events : list KeyMgr.Event) :
  KeyMgr.initialized (KeyMgr.after events) = true.
Proof.
  induction events as [|e events IH] using rev_ind; [ reflexivity | ].
  rewrite after_snoc. destruct e; cbn; try exact IH.
  - unfold KeyMgr.keydown. destruct (KeyMgr.keyMappings code); exact IH.
  - unfold KeyMgr.keyup. destruct (KeyMgr.keyMappings code); exact IH.
  - unfold KeyMgr.update, KeyMgr.updateGamepad. rewrite IH. cbn.
    destruct (KeyMgr.gamepadIndex _ =? -1)%Z; [ reflexivity | ].
    destruct pad; reflexivity.
Qed.

(** X24.  Right after [update()], when no gamepad is connected or the
    connected pad is missing, the edge queries see nothing: [isKeyPressed]
    and [isKeyReleased] are false for every key, because [update] has just
    copied [keys] into [prevKeys]; [isKeyDown] is unchanged. *)
Theorem edge_queries_see_nothing_after_update
    (events : list KeyMgr.Event) (pad : option KeyMgr.Gamepad)
    (key : KeyMgr.Key) :
  pad = None \/ KeyMgr.gamepadIndex (KeyMgr.after events) = (-1)%Z ->
  KeyMgr.isKeyPressed key (KeyMgr.after (events ++ [KeyMgr.Update pad]))
    = false /\
  KeyMgr.isKeyReleased key (KeyMgr.after (events ++ [KeyMgr.Update pad]))
    = false /\
  KeyMgr.isKeyDown key (KeyMgr.after (events ++ [KeyMgr.Update pad]))
    = KeyMgr.isKeyDown key (KeyMgr.after events).
Proof.
  intros HP. rewrite after_snoc. cbn [KeyMgr.handle].
  pose proof (after_NoDup events) as N.
  pose proof (after_initialized events) as I.
  set (km := KeyMgr.after events) in *.
  assert (E : KeyMgr.update pad km
              = KeyMgr.mk (KeyMgr.keys km) (KeyMgr.keys km) true
                  (KeyMgr.gamepadIndex km)).
  { unfold KeyMgr.update, KeyMgr.updateGamepad. rewrite I. cbn.
    rewrite (copy_entries (KeyMgr.keys km) []) by exact N. cbn.
    destruct HP as [-> | ->]; [ | reflexivity ].
    destruct (KeyMgr.gamepadIndex km =? -1)%Z; reflexivity. }
  rewrite E.
  unfold KeyMgr.isKeyPressed, KeyMgr.isKeyReleased, KeyMgr.isKeyDown,
    KeyMgr.wasKeyDown. cbn.
  destruct (KeyMgr.Map_get key (KeyMgr.keys km)) as [[|]|]; auto.
Qed.

Lemma edge_queries_see_nothing_after_update_witness :
  KeyMgr.isKeyPressed (KeyMgr.Name "X")
    (KeyMgr.after ([KeyMgr.Update None; KeyMgr.KeyDown "KeyX"]
                   ++ [KeyMgr.Update None])) = false /\
  KeyMgr.isKeyDown (KeyMgr.Name "X")
    (KeyMgr.after ([KeyMgr.Update None; KeyMgr.KeyDown "KeyX"]
                   ++ [KeyMgr.Update None])) = true.
Proof.
  destruct (edge_queries_see_nothing_after_update
              [KeyMgr.Update None; KeyMgr.KeyDown "KeyX"] None
              (KeyMgr.Name "X"))
    as (E1 & _ & E3); [ left; reflexivity | ].
  split; [ exact E1 | rewrite E3; reflexivity ].
Defined.

(** X25.  After any sequence of events on an initialised manager,
    [getPressedKeys] lists exactly the keys for which [isKeyDown] is true,
    each once. *)
Theorem getPressedKeys_lists_the_keys_down (events : list KeyMgr.Event) :
  NoDup (KeyMgr.getPressedKeys (KeyMgr.after events)) /\
  (forall key : KeyMgr.Key,
     In key (KeyMgr.getPressedKeys (KeyMgr.after events)) <->
     KeyMgr.isKeyDown key (KeyMgr.after events) = true).
Proof.
  pose proof (after_NoDup events) as N.
  unfold KeyMgr.getPressedKeys, KeyMgr.isKeyDown.
  induction (KeyMgr.keys (KeyMgr.after events)) as [|[k v] rest IH]; cbn.
  - split; [ constructor | ]. intros key. split; [ tauto | discriminate ].
  - cbn in N. inversion N as [|? ? N1 N2]; subst.
    destruct (IH N2) as (D & M).
    assert (S : forall key, In key (map fst (filter (fun e => snd e) rest))
                            -> In key (map fst rest)).
    { intros key I. apply in_map_iff in I. destruct I as (e & <- & I).
      apply filter_In in I. apply in_map. apply I. }
    split.
    + destruct v; cbn; [ | exact D ].
      constructor; [ | exact D ]. intros I. exact (N1 (S k I)).
    + intros key. destruct (Key_eqb_spec k key) as [E | E].
      * subst key. destruct v; cbn.
        -- split; auto.
        -- split; [ | discriminate ]. intros I. exfalso. exact (N1 (S k I)).
      * rewrite <- M. destruct v; cbn; [ | tauto ].
        split; [ intros [C | I]; [ contradiction | exact I ] | auto ].
Qed.

Lemma ownProperty_absent (code : string) (literal : list (string * string)) :
  ~ In code (map fst literal) -> KeyMgr.ownProperty code literal = None.
Proof.
  induction literal as [|[c name] rest IH]; cbn; intros N; [ reflexivity | ].
  destruct (String.eqb_spec c code) as [E | E]; [ tauto | ].
  apply IH. tauto.
Qed.

Lemma isKeyDown_set_same (key : KeyMgr.Key) (v : bool) (km : KeyMgr.t) :
  KeyMgr.isKeyDown key
    (KeyMgr.mk (KeyMgr.Map_set key v (KeyMgr.keys km)) (KeyMgr.prevKeys km)
       (KeyMgr.initialized km) (KeyMgr.gamepadIndex km)) = v.
Proof.
  unfold KeyMgr.isKeyDown. cbn. rewrite Map_get_set_same.
  destruct v; reflexivity.
Qed.

(** X26.  A [keydown] whose code the [keyMappings] lookup answers makes
    [isKeyDown] true for the key looked up and a [keyup] makes it false,
    without touching any other key.  The lookup answers the 13 codes of
    the literal with their key names and, [keyMappings] being a plain
    object, also the twelve property names of [Object.prototype], for
    which the listeners store the inherited member itself as the key of
    the Map; the events leave the manager as it is only for a code that
    is neither.  After [blur] or [focus] no key is down. *)
Theorem keyboard_events_set_one_key (code : string) (km : KeyMgr.t) :
  (forall key : KeyMgr.Key,
     KeyMgr.keyMappings code = Some key ->
     KeyMgr.isKeyDown key (KeyMgr.keydown code km) = true /\
     KeyMgr.isKeyDown key (KeyMgr.keyup code km) = false /\
     (forall other : KeyMgr.Key,
        other <> key ->
        KeyMgr.isKeyDown other (KeyMgr.keydown code km)
          = KeyMgr.isKeyDown other km /\
        KeyMgr.isKeyDown other (KeyMgr.keyup code km)
          = KeyMgr.isKeyDown other km)) /\
  (forall name : string,
     In (code, name) KeyMgr.ownMappings ->
     KeyMgr.keyMappings code = Some (KeyMgr.Name name)) /\
  (In code KeyMgr.inheritedProperties ->
     KeyMgr.keyMappings code = Some (KeyMgr.Inherited code)) /\
  (~ In code (map fst KeyMgr.ownMappings) ->
   ~ In code KeyMgr.inheritedProperties ->
     KeyMgr.keyMappings code = None /\
     KeyMgr.keydown code km = km /\ KeyMgr.keyup code km = km) /\
  (forall key : KeyMgr.Key,
     KeyMgr.isKeyDown key (KeyMgr.blur km) = false /\
     KeyMgr.isKeyDown key (KeyMgr.focus km) = false).
Proof.
  split; [ | split; [ | split; [ | split ] ] ].
  - unfold KeyMgr.keydown, KeyMgr.keyup. intros key E. rewrite E.
    split; [ apply isKeyDown_set_same | ].
    split; [ apply isKeyDown_set_same | ].
    intros other N. unfold KeyMgr.isKeyDown. cbn.
    rewrite !Map_get_set_other by exact N. auto.
  - intros name I. cbn in I.
    repeat (destruct I as [I | I];
            [ injection I as <- <-; reflexivity | ]).
    destruct I.
  - intros I. cbn in I.
    repeat (destruct I as [<- | I]; [ reflexivity | ]).
    destruct I.
  - intros N1 N2.
    assert (E : KeyMgr.keyMappings code = None).
    { unfold KeyMgr.keyMappings.
      rewrite (ownProperty_absent code KeyMgr.ownMappings N1).
      destruct (existsb (String.eqb code) KeyMgr.inheritedProperties) eqn:X;
        [ | reflexivity ].
      apply existsb_exists in X. destruct X as (s & I & X).
      apply String.eqb_eq in X. subst s. contradiction. }
    unfold KeyMgr.keydown, KeyMgr.keyup. rewrite E. auto.
  - intros key. split; reflexivity.
Qed.

(** A press of a key whose code is 'toString' stores the prototype's
    method as a key of the Map. *)
Example keydown_with_an_inherited_name :
  KeyMgr.keys (KeyMgr.after [KeyMgr.KeyDown "toString"])
  = [(KeyMgr.Inherited "toString", true)] /\
  KeyMgr.getPressedKeys
    (KeyMgr.after [KeyMgr.KeyDown "toString"; KeyMgr.KeyDown "KeyX"])
  = [KeyMgr.Inherited "toString"; KeyMgr.Name "X"] /\
  KeyMgr.after [KeyMgr.KeyDown "F1"] = KeyMgr.init KeyMgr.new.
Proof. repeat split. Qed.

(** X27.  With a gamepad connected and present, [update()] overwrites the
    eight keys the pad drives: X, Z, C and V read buttons 0 to 3, the
    arrows read the d-pad buttons 14, 15, 12, 13 or the left stick beyond
    the 0.3 threshold, whatever the keyboard had set; every other key
    keeps its keyboard state. *)
Theorem gamepad_overrides_the_keyboard (gamepad : KeyMgr.Gamepad)
    (km : KeyMgr.t) :
  KeyMgr.initialized km = true ->
  KeyMgr.gamepadIndex km <> (-1)%Z ->
  KeyMgr.isKeyDown (KeyMgr.Name "X") (KeyMgr.update (Some gamepad) km)
    = KeyMgr.pressed gamepad 0 /\
  KeyMgr.isKeyDown (KeyMgr.Name "Z") (KeyMgr.update (Some gamepad) km)
    = KeyMgr.pressed gamepad 1 /\
  KeyMgr.isKeyDown (KeyMgr.Name "C") (KeyMgr.update (Some gamepad) km)
    = KeyMgr.pressed gamepad 2 /\
  KeyMgr.isKeyDown (KeyMgr.Name "V") (KeyMgr.update (Some gamepad) km)
    = KeyMgr.pressed gamepad 3 /\
  KeyMgr.isKeyDown (KeyMgr.Name "LEFT") (KeyMgr.update (Some gamepad) km)
    = KeyMgr.pressed gamepad 14 || KeyMgr.axisBelow gamepad 0 (Qopp 0.3) /\
  KeyMgr.isKeyDown (KeyMgr.Name "RIGHT") (KeyMgr.update (Some gamepad) km)
    = KeyMgr.pressed gamepad 15 || KeyMgr.axisAbove gamepad 0 0.3 /\
  KeyMgr.isKeyDown (KeyMgr.Name "UP") (KeyMgr.update (Some gamepad) km)
    = KeyMgr.pressed gamepad 12 || KeyMgr.axisBelow gamepad 1 (Qopp 0.3) /\
  KeyMgr.isKeyDown (KeyMgr.Name "DOWN") (KeyMgr.update (Some gamepad) km)
    = KeyMgr.pressed gamepad 13 || KeyMgr.axisAbove gamepad 1 0.3 /\
  (forall key : KeyMgr.Key,
     ~ In key (map KeyMgr.Name
                 ["LEFT"; "RIGHT"; "UP"; "DOWN"; "X"; "Z"; "C"; "V"]%string) ->
     KeyMgr.isKeyDown key (KeyMgr.update (Some gamepad) km)
       = KeyMgr.isKeyDown key km).
Proof.
  intros I G. unfold KeyMgr.update, KeyMgr.updateGamepad. rewrite I.
  cbn [negb KeyMgr.gamepadIndex KeyMgr.keys KeyMgr.initialized
       KeyMgr.prevKeys].
  destruct (Z.eqb_spec (KeyMgr.gamepadIndex km) (-1)) as [E | _];
    [ contradiction | ].
  unfold KeyMgr.isKeyDown. cbn [KeyMgr.keys].
  repeat split.
  1-8: repeat first
         [ rewrite Map_get_set_same
         | rewrite Map_get_set_other by discriminate ];
       match goal with |- (if ?b then _ else _) = _ => destruct b end;
       reflexivity.
  intros key N. cbn in N.
  repeat rewrite Map_get_set_other by (intros ->; tauto).
  reflexivity.
Qed.

Lemma gamepad_overrides_the_keyboard_witness :
  KeyMgr.isKeyDown (KeyMgr.Name "X")
    (KeyMgr.update (Some padWithA)
       (KeyMgr.after [KeyMgr.GamepadConnected 0; KeyMgr.KeyDown "KeyZ"]))
    = true /\
  KeyMgr.isKeyDown (KeyMgr.Name "Z")
    (KeyMgr.update (Some padWithA)
       (KeyMgr.after [KeyMgr.GamepadConnected 0; KeyMgr.KeyDown "KeyZ"]))
    = false.
Proof.
  destruct (gamepad_overrides_the_keyboard padWithA
              (KeyMgr.after [KeyMgr.GamepadConnected 0; KeyMgr.KeyDown "KeyZ"]))
    as (E1 & E2 & _); [ reflexivity | discriminate | ].
  split; [ exact E1 | exact E2 ].
Defined.

